(** * Upload pipeline and metadata tiers of the web client

    A shallow embedding of
    - [web/packages/base/crypto/types.ts] (the chunk size constant, and
      the [updateAPIOrigin] that the file carries),
    - [web/packages/media/file-metadata.ts] (metadata hash, magic metadata
      read and update paths, and what is shown of a file),
    - [web/packages/gallery/services/upload/upload-service.ts] (chunked
      reading, type and thumbnail, hashing, dedup, live photo pairing,
      stream encryption, the pool of upload URLs and the upload
      transport),
    together with the properties of these functions.

    Conventions.  A JavaScript [number] that holds a size, a count, a
    version or a timestamp is a [Z]; one that holds a measure (a duration,
    a coordinate, a percentage) is a [Q].  A [Uint8Array] is a list of
    bytes.  A [ReadableStream] that ends is the list of the chunks it still
    has to deliver.  A function that can [throw] returns a [result];
    [await] is sequencing.  Platform, crypto worker and network calls are
    section variables. *)

From Stdlib Require Import ZArith QArith Qround List String Ascii Bool Lia.
From stdpp Require Import base option list gmap strings fin_maps pretty.

Local Open Scope Z_scope.

(** ** JavaScript values and errors *)

Module Js.

(** The errors the modelled code throws or inspects, by message. *)
Inductive Error :=
| UPLOAD_CANCELLED                (* CustomError.UPLOAD_CANCELLED *)
| FILE_TOO_LARGE                  (* CustomError.FILE_TOO_LARGE *)
| eTagMissing                     (* CustomErrorMessage.eTagMissing *)
| LessChunksThanExpected          (* "Less chunks than expected" *)
| MoreChunksThanExpected          (* "More chunks than expected" *)
| UnexpectedFileType              (* "Unexpected file type ..." *)
| NotDecrypted                    (* "... had not been decrypted ..." *)
| FailedToObtainUploadURL         (* "Failed to obtain upload URL" *)
| DuplicateUploadURLs             (* "Duplicate upload URLs detected" *)
| HTTPError                       (* what ensureOk throws *)
| ZodError                        (* what a Zod schema's parse throws *)
| TypeError                       (* a property of undefined was read *)
| OtherError (message : string).

#[global] Instance Error_eq_dec : EqDecision Error.
Proof. solve_decision. Defined.

(** The outcome of a call that may throw. *)
Inductive result (A : Type) :=
| Ok (a : A)
| Throw (e : Error).
Arguments Ok {A} a.
Arguments Throw {A} e.

#[global] Instance result_ret : MRet result := @Ok.
#[global] Instance result_bind : MBind result := fun A B k r =>
  match r with
  | Ok a => k a
  | Throw e => Throw e
  end.
#[global] Instance result_fmap : FMap result := fun A B f r =>
  match r with
  | Ok a => Ok (f a)
  | Throw e => Throw e
  end.

(** [Math.ceil(a / b)] for a size [a >= 0] and a positive [b]. *)
Definition ceil_div (a b : Z) : Z := (a + b - 1) / b.

(** [arr.length] *)
Definition len {A} (l : list A) : Z := Z.of_nat (length l).

(** [arr.slice(0, n)] for [n >= 0]. *)
Fixpoint slice_to {A} (n : Z) (l : list A) : list A :=
  match l with
  | [] => []
  | x :: l' => if 0 <? n then x :: slice_to (n - 1) l' else []
  end.

(** [arr.slice(n)] for [n >= 0]. *)
Fixpoint slice_from {A} (n : Z) (l : list A) : list A :=
  match l with
  | [] => []
  | x :: l' => if 0 <? n then slice_from (n - 1) l' else l
  end.

(** [reader.read()] on a stream: [{ done, value }] and the stream after it.
    [value] is [None] (undefined) exactly when [done]. *)
Definition read {A} (s : list A) : option A * list A :=
  match s with
  | [] => (None, [])
  | c :: s' => (Some c, s')
  end.

End Js.
Export Js.

(** ** crypto/types.ts *)

(** [export const streamEncryptionChunkSize = 4 * 1024 * 1024] *)
Definition streamEncryptionChunkSize : Z := 4 * 1024 * 1024.

Abbreviation Uint8Array := (list Byte.byte).

(** A readable stream of byte chunks, as the chunks it has yet to deliver. *)
Abbreviation ReadableStream := (list Uint8Array).

(** ** upload-service.ts: upload items and their chunked reading *)

Module ChunkedReader.

(** A web [File]: its name, size, modification time, and the chunks its
    [stream()] delivers (the browser chooses how the bytes are split). *)
Record File := {
  File_name : string;
  File_size : Z;
  File_lastModified : Z;
  File_stream : ReadableStream;
}.

(** A path on the local file system, or an entry of a zip file there. *)
Inductive PathOrZipItem :=
| Path (path : string)
| ZipItem (zipPath entryName : string).

(** [UploadItem]: a [File], a path, a zip item, or a [File] with its path. *)
Inductive UploadItem :=
| ItemFile (file : File)
| ItemPath (path : string)
| ItemZip (zipPath entryName : string)
| ItemFileAndPath (file : File) (path : string).

(** What [readStream] of the desktop app resolves to: the response body,
    and the size and modification time it reports. *)
Record StreamResult := {
  response_body : ReadableStream;
  response_size : Z;
  response_lastModifiedMs : Z;
}.

(** The desktop app's side of reading ([ensureElectron()] with
    [readStream] and [pathOrZipItemSize]); a call fails where there is no
    desktop app or the item cannot be read. *)
Class Electron := {
  readStream : PathOrZipItem -> result StreamResult;
  pathOrZipItemSize : PathOrZipItem -> result Z;
}.

(** [interface FileStream] *)
Record FileStream := {
  stream : ReadableStream;
  chunkCount : Z;
  fileSize : Z;
  FileStream_lastModifiedMs : Z;
  file : option File;
}.

(** What the transformer closes over: the [pending] bytes, and the chunks
    it has passed to [controller.enqueue] so far. *)
Record TransformState := {
  pending : option Uint8Array;
  enqueued : list Uint8Array;
}.

Section Transformer.

(** [const N = streamEncryptionChunkSize] *)
Variable N : Z.

(** [while (next.length >= N) { controller.enqueue(next.slice(0, N));
    next = next.slice(N); }], one unit of [fuel] per iteration. *)
Fixpoint drain (fuel : nat) (next : Uint8Array) (out : list Uint8Array)
  : list Uint8Array * Uint8Array :=
  match fuel with
  | O => (out, next)
  | S fuel' =>
      if N <=? len next
      then drain fuel' (slice_from N next) (out ++ [slice_to N next])
      else (out, next)
  end.

(** [transform(chunk, controller)].  An iteration of the loop removes [N]
    bytes of [next], so with [N >= 1] it runs at most [next.length] times:
    that is the fuel. *)
Definition transform (st : TransformState) (chunk : Uint8Array) : TransformState :=
  let next := match pending st with
              | Some p => p ++ chunk
              | None => chunk
              end in
  let '(out, next) := drain (length next) next (enqueued st) in
  {| pending := if len next =? 0 then None else Some next;
     enqueued := out |}.

(** [flush(controller)] *)
Definition flush (st : TransformState) : list Uint8Array :=
  match pending st with
  | Some p => enqueued st ++ [p]
  | None => enqueued st
  end.

(** [underlyingStream.pipeThrough(transformer)], read to its end. *)
Definition pipeThrough (underlyingStream : ReadableStream) : ReadableStream :=
  flush (fold_left transform underlyingStream {| pending := None; enqueued := [] |}).

End Transformer.

(** The first half of [readUploadItem]: the underlying stream, the [File]
    when there is one, the size and the modification time. *)
Definition underlying `{Electron} (uploadItem : UploadItem)
  : result (ReadableStream * option File * Z * Z) :=
  match uploadItem with
  | ItemPath path =>
      r ← readStream (Path path);
      mret (response_body r, None, response_size r, response_lastModifiedMs r)
  | ItemZip zipPath entryName =>
      r ← readStream (ZipItem zipPath entryName);
      mret (response_body r, None, response_size r, response_lastModifiedMs r)
  | ItemFile file =>
      mret (File_stream file, Some file, File_size file, File_lastModified file)
  | ItemFileAndPath file _ =>
      mret (File_stream file, Some file, File_size file, File_lastModified file)
  end.

(** [readUploadItem] *)
Definition readUploadItem `{Electron} (uploadItem : UploadItem) : result FileStream :=
  '(underlyingStream, file, fileSize, lastModifiedMs) ← underlying uploadItem;
  let N := streamEncryptionChunkSize in
  let chunkCount := ceil_div fileSize streamEncryptionChunkSize in
  let stream := pipeThrough N underlyingStream in
  mret {| stream := stream; chunkCount := chunkCount; fileSize := fileSize;
          FileStream_lastModifiedMs := lastModifiedMs; file := file |}.

End ChunkedReader.
Export ChunkedReader.

(** ** JavaScript truthiness, and the values a metadata object holds *)

Module JsValue.

(** The value of an object property, or of an expression whose type is a
    union of primitives. *)
Inductive Value :=
| VUndefined
| VNull
| VBool (b : bool)
| VNumber (n : Z)
| VString (s : string).

#[global] Instance Value_eq_dec : EqDecision Value.
Proof. solve_decision. Defined.

#[global] Instance Value_countable : Countable Value.
Proof.
  refine (inj_countable'
    (fun v => match v with
              | VUndefined => inl (inl tt)
              | VNull => inl (inr tt)
              | VBool b => inr (inl b)
              | VNumber n => inr (inr (inl n))
              | VString s => inr (inr (inr s))
              end)
    (fun c => match c with
              | inl (inl _) => VUndefined
              | inl (inr _) => VNull
              | inr (inl b) => VBool b
              | inr (inr (inl n)) => VNumber n
              | inr (inr (inr s)) => VString s
              end) _).
  by intros [].
Defined.

(** [Boolean(x)]: what [if (x)], [!x], [x && y] and [x ? a : b] test. *)
Class Truthy (A : Type) := truthy : A -> bool.

#[global] Instance truthy_string : Truthy string := fun s =>
  negb (String.eqb s "").
#[global] Instance truthy_Z : Truthy Z := fun n => negb (n =? 0).
#[global] Instance truthy_Q : Truthy Q := fun q => negb (Qeq_bool q 0).
#[global] Instance truthy_bool : Truthy bool := fun b => b.
(** [undefined] is falsy; so is a present but falsy primitive. *)
#[global] Instance truthy_option {A} `{Truthy A} : Truthy (option A) := fun o =>
  match o with
  | Some a => truthy a
  | None => false
  end.
#[global] Instance truthy_Value : Truthy Value := fun v =>
  match v with
  | VUndefined | VNull => false
  | VBool b => b
  | VNumber n => truthy n
  | VString s => truthy s
  end.

(** An object, as opposed to a primitive, is truthy whenever it is there. *)
Definition present {A} (o : option A) : bool :=
  match o with
  | Some _ => true
  | None => false
  end.

(** [a && b] *)
Definition js_and (a b : Value) : Value := if truthy a then b else a.

(** A [string | undefined] as a value. *)
Definition of_string (o : option string) : Value :=
  match o with
  | Some s => VString s
  | None => VUndefined
  end.

(** [`${x}`] for [x : string | undefined]. *)
Definition template (o : option string) : string :=
  match o with
  | Some s => s
  | None => "undefined"
  end.

End JsValue.
Export JsValue.

(** ** file-type.ts and file-metadata.ts: the immutable metadata *)

Module FileMetadata.

(** [FileType] *)
Inductive FileType :=
| image
| video
| livePhoto.

#[global] Instance FileType_eq_dec : EqDecision FileType.
Proof. solve_decision. Defined.

(** [interface Metadata] *)
Record Metadata := {
  fileType : FileType;
  title : string;
  creationTime : Z;
  modificationTime : Z;
  latitude : option Q;
  longitude : option Q;
  hash : option string;
  imageHash : option string;
  videoHash : option string;
  duration : option Z;
  hasStaticThumbnail : option bool;
  localID : option Z;
  version : option Z;
  deviceFolder : option string;
}.

(** [metadataHash] *)
Definition metadataHash (metadata : Metadata) : option string :=
  let hash := hash metadata in
  if truthy hash then hash
  else
    (* Handle past live photos upload from web client. *)
    if bool_decide (fileType metadata = livePhoto)
       && truthy (imageHash metadata)
       && truthy (videoHash metadata)
    then Some (template (imageHash metadata) ++ ":" ++ template (videoHash metadata))%string
    else None.

(** [Location], from [ente-base/types]. *)
Record Location := {
  Location_latitude : Q;
  Location_longitude : Q;
}.

(** [interface ParsedMetadataDate] *)
Record ParsedMetadataDate := {
  dateTime : string;
  offset : option string;
  timestamp : Z;
}.

(** [interface ParsedMetadata].  [creationDate] is declared
    [ParsedMetadataDate | undefined], so the key can be there and hold
    [undefined]: [Some None]. *)
Record ParsedMetadata := {
  width : option Z;
  height : option Z;
  creationDate : option (option ParsedMetadataDate);
  location : option Location;
  description : option string;
}.

End FileMetadata.
Export FileMetadata.

(** ** file-metadata.ts: the private and public mutable metadata *)

Module MetadataStore.

(** What the statements of a function that awaits the network do: from the
    requests made so far to an outcome and the requests made by then. *)
Definition Eff (S A : Type) : Type := S -> result A * S.

#[global] Instance Eff_ret {S} : MRet (Eff S) := fun A a s => (Ok a, s).
#[global] Instance Eff_bind {S} : MBind (Eff S) := fun A B k m s =>
  match m s with
  | (Ok a, s') => k a s'
  | (Throw e, s') => (Throw e, s')
  end.

(** A call that makes no request. *)
Definition pure {S A} (r : result A) : Eff S A := fun s => (r, s).

(** [envelope.data]: the ciphertext (base64) as remote has it, or the
    object once it has been decrypted. *)
Inductive EnvelopeData :=
| Encrypted (ciphertext : string)
| Decrypted (o : gmap string Value).

(** [RemoteMagicMetadata], [FileMagicMetadata], [FilePublicMagicMetadata]:
    the envelope of a tier. *)
Record MagicMetadata := {
  MM_version : Z;
  MM_count : Z;
  MM_data : EnvelopeData;
  MM_header : string;
}.

(** [EnteFile], the fields that the metadata tiers and the dedup use. *)
Record EnteFile := {
  file_id : Z;
  file_key : string;
  file_collectionID : Z;
  EnteFile_metadata : Metadata;
  magicMetadata : option MagicMetadata;
  pubMagicMetadata : option MagicMetadata;
}.

(** [ente-base/crypto]: the ciphertext and the decryption header of a JSON
    object, and back. *)
Class Crypto := {
  encryptMetadataJSON : gmap string Value -> string -> result (string * string);
  decryptMetadataJSON : string * string -> string -> result (gmap string Value);
}.

(** [mergeMetadata1], from [./file]: it re-derives, in place, the other
    bits of the file that depend on its public magic metadata. *)
Class FileImports := {
  mergeMetadata1 : EnteFile -> EnteFile;
}.

(** [interface UpdateMagicMetadataRequest] *)
Record MetadataListEntry := {
  entry_id : Z;
  entry_magicMetadata : MagicMetadata;
}.

Record UpdateMagicMetadataRequest := {
  metadataList : list MetadataListEntry;
}.

(** A [PUT] of a request, by the path of its URL. *)
Record Put := {
  put_path : string;
  put_body : UpdateMagicMetadataRequest;
}.

(** Remote: given the requests made before, what [fetch] resolves to for
    this one: [Response.ok], or a network failure. *)
Class Remote := {
  fetch : list Put -> Put -> result bool;
}.

(** [v !== null && v !== undefined] *)
Definition nonNullish (v : Value) : Prop := v <> VNull /\ v <> VUndefined.

#[global] Instance nonNullish_dec v : Decision (nonNullish v).
Proof. unfold nonNullish. apply _. Defined.

(** [withoutNullAndUndefinedValues] *)
Definition withoutNullAndUndefinedValues (o : gmap string Value) : gmap string Value :=
  filter (fun kv => nonNullish kv.2) o.

(** [PublicMagicMetadata.parse], for the schema
    [z.looseObject({ editedTime: z.number().optional() })]: an object whose
    [editedTime], when there, is a number, comes back with all its keys. *)
Definition PublicMagicMetadata_parse (o : gmap string Value)
  : result (gmap string Value) :=
  match o !! "editedTime"%string with
  | None | Some VUndefined | Some (VNumber _) => Ok o
  | Some _ => Throw ZodError
  end.

(** [filePrivateMagicMetadata] *)
Definition filePrivateMagicMetadata (file : EnteFile)
  : result (option (gmap string Value)) :=
  match magicMetadata file with
  | None => Ok None
  | Some envelope =>
      match MM_data envelope with
      | Encrypted _ => Throw NotDecrypted
      | Decrypted o => Ok (Some o)
      end
  end.

(** [filePublicMagicMetadata] *)
Definition filePublicMagicMetadata (file : EnteFile)
  : result (option (gmap string Value)) :=
  match pubMagicMetadata file with
  | None => Ok None
  | Some envelope =>
      match MM_data envelope with
      | Encrypted _ => Throw NotDecrypted
      | Decrypted o => Ok (Some o)
      end
  end.

(** [envelope.data = result], on the public envelope of the file *)
Definition withPublicEnvelope (file : EnteFile) (envelope : MagicMetadata) : EnteFile := {|
  file_id := file_id file;
  file_key := file_key file;
  file_collectionID := file_collectionID file;
  EnteFile_metadata := EnteFile_metadata file;
  magicMetadata := magicMetadata file;
  pubMagicMetadata := Some envelope;
|}.

Definition withData (envelope : MagicMetadata) (d : EnvelopeData) : MagicMetadata := {|
  MM_version := MM_version envelope;
  MM_count := MM_count envelope;
  MM_data := d;
  MM_header := MM_header envelope;
|}.

Definition withVersion (envelope : MagicMetadata) (v : Z) : MagicMetadata := {|
  MM_version := v;
  MM_count := MM_count envelope;
  MM_data := MM_data envelope;
  MM_header := MM_header envelope;
|}.

(** [decryptPublicMagicMetadata]: what it returns, and the file after it
    (it caches the result on the envelope). *)
Definition decryptPublicMagicMetadata `{Crypto} (file : EnteFile)
  : result (option (gmap string Value) * EnteFile) :=
  match pubMagicMetadata file with
  | None => Ok (None, file)
  | Some envelope =>
      jsonValue ←
        match MM_data envelope return result (gmap string Value) with
        | Encrypted ciphertext =>
            decryptMetadataJSON (ciphertext, MM_header envelope) (file_key file)
        | Decrypted o => Ok o
        end;
      result ← PublicMagicMetadata_parse (withoutNullAndUndefinedValues jsonValue);
      Ok (Some result, withPublicEnvelope file (withData envelope (Decrypted result)))
  end.

(** [{ ...(existingMetadata ?? {}), ...metadataUpdates }]: the keys of
    both, with the value of the update where both have the key. *)
Definition shallowMerge (existingMetadata : option (gmap string Value))
    (metadataUpdates : gmap string Value) : gmap string Value :=
  metadataUpdates ∪ default ∅ existingMetadata.

(** [updateMagicMetadataRequest] *)
Definition updateMagicMetadataRequest `{Crypto} (file : EnteFile)
    (metadata : gmap string Value) (metadataVersion : Z)
  : result UpdateMagicMetadataRequest :=
  (* Drop all null or undefined values to obtain the syncable entries. *)
  let validEntries := filter (fun kv => nonNullish kv.2) metadata in
  '(encryptedData, decryptionHeader) ← encryptMetadataJSON validEntries (file_key file);
  Ok {| metadataList := [
          {| entry_id := file_id file;
             entry_magicMetadata := {|
               MM_version := metadataVersion;
               MM_count := Z.of_nat (size validEntries);
               MM_data := Encrypted encryptedData;
               MM_header := decryptionHeader;
             |} |} ] |}.

(** [ensureOk(await fetch(url, { method: "PUT", ..., body }))] *)
Definition put `{Remote} (path : string) (request : UpdateMagicMetadataRequest)
  : Eff (list Put) unit := fun sent =>
  let p := {| put_path := path; put_body := request |} in
  (ok ← fetch sent p; if ok : bool then Ok tt else Throw HTTPError, sent ++ [p]).

(** [putFilesPrivateMagicMetadata] *)
Definition putFilesPrivateMagicMetadata `{Remote} (request : UpdateMagicMetadataRequest)
  : Eff (list Put) unit :=
  put "/files/magic-metadata" request.

(** [putFilesPublicMagicMetadata] *)
Definition putFilesPublicMagicMetadata `{Remote} (request : UpdateMagicMetadataRequest)
  : Eff (list Put) unit :=
  put "/files/public-magic-metadata" request.

(** [updateRequest.metadataList[0]!.magicMetadata] *)
Definition firstEnvelope (updateRequest : UpdateMagicMetadataRequest)
  : result MagicMetadata :=
  match metadataList updateRequest with
  | entry :: _ => Ok (entry_magicMetadata entry)
  | [] => Throw TypeError
  end.

(** [updateRemotePrivateMagicMetadata]: the tier object it returns. *)
Definition updateRemotePrivateMagicMetadata `{Crypto} `{Remote} (file : EnteFile)
    (metadataUpdates : gmap string Value) : Eff (list Put) MagicMetadata :=
  existingMetadata ← pure (filePrivateMagicMetadata file);
  let updatedMetadata := shallowMerge existingMetadata metadataUpdates in
  let metadataVersion := default 1 (MM_version <$> magicMetadata file) in
  updateRequest ← pure (updateMagicMetadataRequest file updatedMetadata metadataVersion);
  updatedEnvelope ← pure (firstEnvelope updateRequest);
  _ ← putFilesPrivateMagicMetadata updateRequest;
  (* Use the updated envelope we sent as a starting point; temporarily bump
     the version; set the contents to the metadata we just PUT. *)
  let updatedMagicMetadata := updatedEnvelope in
  let updatedMagicMetadata := withVersion updatedMagicMetadata (metadataVersion + 1) in
  let updatedMagicMetadata := withData updatedMagicMetadata (Decrypted updatedMetadata) in
  mret updatedMagicMetadata.

(** [updateRemotePublicMagicMetadata]: the file after it, which it
    modifies in place. *)
Definition updateRemotePublicMagicMetadata `{Crypto} `{Remote} `{FileImports}
    (file : EnteFile) (metadataUpdates : gmap string Value) : Eff (list Put) EnteFile :=
  '(existingMetadata, file) ← pure (decryptPublicMagicMetadata file);
  let updatedMetadata := shallowMerge existingMetadata metadataUpdates in
  let metadataVersion := default 1 (MM_version <$> pubMagicMetadata file) in
  updateRequest ← pure (updateMagicMetadataRequest file updatedMetadata metadataVersion);
  updatedEnvelope ← pure (firstEnvelope updateRequest);
  _ ← putFilesPublicMagicMetadata updateRequest;
  (* Modify the in-memory object to use the updated envelope. *)
  let file := withPublicEnvelope file updatedEnvelope in
  (* Temporarily bump the version for the in place edits. *)
  let file := withPublicEnvelope file
                (withVersion updatedEnvelope (MM_version updatedEnvelope + 1)) in
  (* Re-read the data. *)
  '(_, file) ← pure (decryptPublicMagicMetadata file);
  mret (mergeMetadata1 file).

End MetadataStore.
Export MetadataStore.

(** ** upload-service.ts: hashing, dedup and the metadata of an upload *)

Module UploadMetadata.

(** The part of [CryptoWorker] the upload uses.  The hash state and the
    push state of libsodium are changed in place by the calls; here a call
    returns the state after it. *)
Record CryptoWorker := {
  HashState : Type;
  chunkHashInit : HashState;
  chunkHashUpdate : HashState -> Uint8Array -> HashState;
  chunkHashFinal : HashState -> string;
  PushState : Type;
  (** the decryption header and the push state for a key *)
  initChunkEncryption : string -> Uint8Array * PushState;
  (** [encryptStreamChunk(data, pushState, isFinalChunk)]; [data] is
      [undefined] when the caller read past the end of its source. *)
  encryptStreamChunk :
    option Uint8Array -> PushState -> bool -> result (Uint8Array * PushState);
}.

(** The body of the [for] loop of [computeHash], [n] times. *)
Fixpoint computeHash_loop (worker : CryptoWorker) (n : nat)
    (streamReader : ReadableStream) (hashState : HashState worker)
  : result (ReadableStream * HashState worker) :=
  match n with
  | O => Ok (streamReader, hashState)
  | S n' =>
      match read streamReader with
      | (None, _) => Throw LessChunksThanExpected
      | (Some chunk, streamReader) =>
          computeHash_loop worker n' streamReader (chunkHashUpdate worker hashState chunk)
      end
  end.

(** [computeHash], from the [FileStream] that [readUploadItem] gave it. *)
Definition computeHash_of (fs : FileStream) (worker : CryptoWorker) : result string :=
  let hashState := chunkHashInit worker in
  '(streamReader, hashState) ←
    computeHash_loop worker (Z.to_nat (chunkCount fs)) (stream fs) hashState;
  match read streamReader with
  | (Some _, _) => Throw MoreChunksThanExpected
  | (None, _) => Ok (chunkHashFinal worker hashState)
  end.

(** [computeHash] *)
Definition computeHash `{Electron} (uploadItem : UploadItem) (worker : CryptoWorker)
  : result string :=
  fs ← readUploadItem uploadItem;
  computeHash_of fs worker.

(** [areFilesSame].  The last line is [return fh && gh && fh == gh], whose
    value is a boolean only when both hashes are truthy. *)
Definition areFilesSame (f g : Metadata) : Value :=
  if negb (bool_decide (fileType f = fileType g)) || negb (String.eqb (title f) (title g))
  then VBool false
  else
    let fh := metadataHash f in
    let gh := metadataHash g in
    js_and (of_string fh) (js_and (of_string gh) (VBool (bool_decide (fh = gh)))).

End UploadMetadata.
Export UploadMetadata.

(** ** upload-service.ts: extracting the metadata of an asset *)

Module MetadataExtractor.

(** [ParsedMetadataJSON], from [./metadata-json]: what a sidecar JSON file
    of a takeout says about a file. *)
Record ParsedMetadataJSON := {
  JSON_creationTime : option Z;
  JSON_modificationTime : option Z;
  JSON_location : option Location;
  JSON_description : option string;
}.

(** [ExternalParsedMetadata = ParsedMetadata & { creationTime? }]; also the
    type of [parsedMetadata] in [extractImageOrVideoMetadata]. *)
Record ExternalParsedMetadata := {
  ext_width : option Z;
  ext_height : option Z;
  ext_creationDate : option (option ParsedMetadataDate);
  ext_location : option Location;
  ext_description : option string;
  ext_creationTime : option Z;
}.

(** A [ParsedMetadata] at the wider type. *)
Definition widen (p : ParsedMetadata) : ExternalParsedMetadata := {|
  ext_width := width p;
  ext_height := height p;
  ext_creationDate := creationDate p;
  ext_location := location p;
  ext_description := description p;
  ext_creationTime := None;
|}.

(** [o?.k] *)
Definition chain {A B} (o : option A) (k : A -> option B) : option B :=
  match o with
  | Some a => k a
  | None => None
  end.
Notation "o ?. k" := (chain o k) (at level 21, left associativity, format "o ?. k").

(** The later of two optional keys, as a spread or [b ?? a] takes it. *)
Definition later {A} (b a : option A) : option A :=
  match b with
  | Some _ => b
  | None => a
  end.

(** [{ ...externalParsedMetadata, ...parsedMetadata }] *)
Definition spread (e : ExternalParsedMetadata) (p : option ParsedMetadata)
  : ExternalParsedMetadata :=
  match p with
  | None => e
  | Some p => {|
      ext_width := later (width p) (ext_width e);
      ext_height := later (height p) (ext_height e);
      ext_creationDate := later (creationDate p) (ext_creationDate e);
      ext_location := later (location p) (ext_location e);
      ext_description := later (description p) (ext_description e);
      ext_creationTime := ext_creationTime e;
    |}
  end.

(** [FileTypeInfo], from [ente-media/file-type].  [extension] is optional
    here because [extractLivePhotoMetadata] fills it from [imageType]. *)
Record FileTypeInfo := {
  FileTypeInfo_fileType : FileType;
  extension : option string;
  imageType : option string;
  videoType : option string;
}.

(** [LivePhotoAssets] *)
Record LivePhotoAssets := {
  LivePhoto_image : UploadItem;
  LivePhoto_video : UploadItem;
}.

(** The functions of other modules that the extraction and the pairing
    call, and of the runtime. *)
Class Imports := {
  (** [String.prototype.toLowerCase], of the JavaScript runtime.  It
      follows the case mappings of Unicode, by which the lower case of a
      string can be longer than the string ([U+0130] becomes [U+0069 U+0307]);
      nothing is assumed of it. *)
  toLowerCase : string -> string;
  (** [ente-base/file-name] *)
  basename : string -> string;
  nameAndExtension : string -> string * option string;
  (** [ente-gallery/services/exif] and [ente-gallery/services/ffmpeg] *)
  extractExif : File -> result ParsedMetadata;
  extractVideoMetadata : UploadItem -> result ParsedMetadata;
  determineVideoDuration : UploadItem -> result Q;
  (** [./metadata-json] and [./date] *)
  matchJSONMetadata :
    option string -> Z -> string -> gmap string ParsedMetadataJSON ->
    option ParsedMetadataJSON;
  tryParseEpochMicrosecondsFromFileName : string -> option Z;
  (** [Date.now()], the modification time of a [File] made without one *)
  now : Z;
}.

(** [interface ExtractAssetMetadataResult].  The public magic metadata is
    an object: its keys, each with a value. *)
Record ExtractAssetMetadataResult := {
  metadata : Metadata;
  publicMagicMetadata : gmap string Value;
}.

(** [uploadItemFileName] *)
Definition uploadItemFileName `{Imports} (uploadItem : UploadItem) : string :=
  match uploadItem with
  | ItemFile file => File_name file
  | ItemPath path => basename path
  | ItemZip _ entryName => basename entryName
  | ItemFileAndPath file _ => File_name file
  end.

(** [try { return await f() } catch (e) { log.error(...); return undefined }] *)
Definition orUndefined {A} (r : result A) : option A :=
  match r with
  | Ok a => Some a
  | Throw _ => None
  end.

(** [new File([await response.arrayBuffer()], basename(path), opts)] *)
Definition fileOfResponse `{Imports} (r : StreamResult) (path : string)
    (lastModifiedMs : option Z) : File := {|
  File_name := basename path;
  File_size := len (concat (response_body r));
  File_lastModified :=
    match lastModifiedMs with
    | Some lm => if truthy lm then lm else now
    | None => now
    end;
  File_stream := [concat (response_body r)];
|}.

(** [tryExtractImageMetadata] *)
Definition tryExtractImageMetadata `{Electron} `{Imports}
    (uploadItem : UploadItem) (lastModifiedMs : option Z)
  : result (option ParsedMetadata) :=
  file ← match uploadItem with
         | ItemPath path =>
             r ← readStream (Path path);
             mret (fileOfResponse r path lastModifiedMs)
         | ItemZip zipPath entryName =>
             r ← readStream (ZipItem zipPath entryName);
             mret (fileOfResponse r entryName lastModifiedMs)
         | ItemFile file => mret file
         | ItemFileAndPath file _ => mret file
         end;
  mret (orUndefined (extractExif file)).

(** [tryExtractVideoMetadata] *)
Definition tryExtractVideoMetadata `{Imports} (uploadItem : UploadItem)
  : option ParsedMetadata :=
  orUndefined (extractVideoMetadata uploadItem).

(** [tryDetermineVideoDuration] *)
Definition tryDetermineVideoDuration `{Imports} (uploadItem : UploadItem) : option Q :=
  orUndefined (determineVideoDuration uploadItem).

(** [ensureInteger], from [ente-utils/ensure]: it throws on a number that
    is not an integer, which a [Z] never is. *)
Definition ensureInteger (n : Z) : Z := n.

(** [o.k = v] on an object *)
Definition set (k : string) (v : Value) (o : gmap string Value) : gmap string Value :=
  <[k := v]> o.

(** [if (x) o.k = v(x)] *)
Definition setIf {A} `{Truthy A} (k : string) (x : option A) (v : A -> Value)
    (o : gmap string Value) : gmap string Value :=
  match x with
  | Some a => if truthy a then set k (v a) o else o
  | None => o
  end.

(** [extractImageOrVideoMetadata] *)
Definition extractImageOrVideoMetadata `{Electron} `{Imports}
    (uploadItem : UploadItem) (pathPrefix : option string)
    (externalParsedMetadata : option ExternalParsedMetadata)
    (fileTypeInfo : FileTypeInfo) (lastModifiedMs : Z) (collectionID : Z)
    (parsedMetadataJSONMap : gmap string ParsedMetadataJSON)
    (worker : CryptoWorker) : result ExtractAssetMetadataResult :=
  let fileName := uploadItemFileName uploadItem in
  let fileType := FileTypeInfo_fileType fileTypeInfo in
  parsedMetadata ←
    match fileType return result (option ParsedMetadata) with
    | image => tryExtractImageMetadata uploadItem (Some lastModifiedMs)
    | video => Ok (tryExtractVideoMetadata uploadItem)
    | livePhoto => Throw UnexpectedFileType
    end;
  (* The [UploadAsset] itself might have metadata associated with it. *)
  let parsedMetadata : option ExternalParsedMetadata :=
    match externalParsedMetadata with
    | Some e => Some (spread e parsedMetadata)
    | None => widen <$> parsedMetadata
    end in
  hash ← computeHash uploadItem worker;
  let parsedMetadataJSON :=
    matchJSONMetadata pathPrefix collectionID fileName parsedMetadataJSONMap in
  let publicMagicMetadata : gmap string Value := ∅ in
  let modificationTime :=
    default (lastModifiedMs * 1000) (parsedMetadataJSON ?. JSON_modificationTime) in
  let creationDate := parsedMetadata ?. ext_creationDate ?. id in
  let '(creationTime, publicMagicMetadata) :=
    if truthy (parsedMetadataJSON ?. JSON_creationTime)
    then (default 0 (parsedMetadataJSON ?. JSON_creationTime), publicMagicMetadata)
    else
      match creationDate with
      | Some d =>
          (timestamp d,
           setIf "offsetTime" (offset d) VString
             (set "dateTime" (VString (dateTime d)) publicMagicMetadata))
      | None =>
          if truthy (parsedMetadata ?. ext_creationTime)
          then (default 0 (parsedMetadata ?. ext_creationTime), publicMagicMetadata)
          else (default modificationTime (tryParseEpochMicrosecondsFromFileName fileName),
                publicMagicMetadata)
      end in
  (* Video duration *)
  let duration :=
    match fileType with
    | video => tryDetermineVideoDuration uploadItem
    | _ => None
    end in
  let location :=
    later (parsedMetadataJSON ?. JSON_location) (parsedMetadata ?. ext_location) in
  let metadata := {|
    fileType := fileType;
    title := fileName;
    creationTime := ensureInteger creationTime;
    modificationTime := ensureInteger modificationTime;
    hash := Some hash;
    duration :=
      match duration with
      | Some d => if truthy d then Some (ensureInteger (Qceiling d)) else None
      | None => None
      end;
    latitude := Location_latitude <$> location;
    longitude := Location_longitude <$> location;
    imageHash := None;
    videoHash := None;
    hasStaticThumbnail := None;
    localID := None;
    version := None;
    deviceFolder := None;
  |} in
  let publicMagicMetadata :=
    match parsedMetadata with
    | Some p =>
        setIf "h" (ext_height p) (fun h => VNumber (ensureInteger h))
          (setIf "w" (ext_width p) (fun w => VNumber (ensureInteger w))
             publicMagicMetadata)
    | None => publicMagicMetadata
    end in
  let caption :=
    later (parsedMetadataJSON ?. JSON_description) (parsedMetadata ?. ext_description) in
  let publicMagicMetadata := setIf "caption" caption VString publicMagicMetadata in
  mret {| metadata := metadata; publicMagicMetadata := publicMagicMetadata |}.

(** [extractLivePhotoMetadata] *)
Definition extractLivePhotoMetadata `{Electron} `{Imports}
    (livePhotoAssets : LivePhotoAssets) (pathPrefix : option string)
    (fileTypeInfo : FileTypeInfo) (lastModifiedMs : Z) (collectionID : Z)
    (parsedMetadataJSONMap : gmap string ParsedMetadataJSON)
    (worker : CryptoWorker) : result ExtractAssetMetadataResult :=
  let imageFileTypeInfo := {|
    FileTypeInfo_fileType := image;
    extension := imageType fileTypeInfo;
    imageType := None;
    videoType := None;
  |} in
  r ← extractImageOrVideoMetadata (LivePhoto_image livePhotoAssets) pathPrefix None
        imageFileTypeInfo lastModifiedMs collectionID parsedMetadataJSONMap worker;
  let imageMetadata := metadata r in
  let imageHash := hash imageMetadata in
  videoHash ← computeHash (LivePhoto_video livePhotoAssets) worker;
  let hash := (template imageHash ++ ":" ++ videoHash)%string in
  mret {|
    metadata := {|
      fileType := livePhoto;
      title := uploadItemFileName (LivePhoto_image livePhotoAssets);
      creationTime := creationTime imageMetadata;
      modificationTime := modificationTime imageMetadata;
      latitude := latitude imageMetadata;
      longitude := longitude imageMetadata;
      hash := Some hash;
      imageHash := FileMetadata.imageHash imageMetadata;
      videoHash := FileMetadata.videoHash imageMetadata;
      duration := duration imageMetadata;
      hasStaticThumbnail := hasStaticThumbnail imageMetadata;
      localID := localID imageMetadata;
      version := version imageMetadata;
      deviceFolder := deviceFolder imageMetadata;
    |};
    publicMagicMetadata := publicMagicMetadata r;
  |}.

End MetadataExtractor.
Export MetadataExtractor.

(** ** upload-service.ts: pairing an image and a video as a live photo *)

Module LivePhotoPairer.

(** [endsWith] and [slice(0, -k)], on strings as sequences of code
    units. *)
Definition endsWith (s suffix : string) : bool :=
  let n := String.length s in
  let k := String.length suffix in
  (k <=? n)%nat && String.eqb (substring (n - k) k s) suffix.

Definition dropLast (k : nat) (s : string) : string :=
  substring 0 (String.length s - k) s.

(** [interface PotentialLivePhotoAsset] *)
Record PotentialLivePhotoAsset := {
  fileName : string;
  PLPA_fileType : FileType;
  collectionID : Z;
  uploadItem : UploadItem;
  pathPrefix : option string;
}.

(** [removePotentialLivePhotoSuffix] *)
Definition removePotentialLivePhotoSuffix `{Imports} (name : string)
    (suffix : option string) : string :=
  let suffix_3 := "_3"%string in
  let suffix_hvec := "_HVEC"%string in
  let foundSuffix : option string :=
    if endsWith name suffix_3 then Some suffix_3
    else if endsWith name suffix_hvec || endsWith name (toLowerCase suffix_hvec)
    then Some suffix_hvec
    else
      match suffix with
      | Some suffix =>
          if truthy suffix
          then if endsWith name suffix || endsWith name (toLowerCase suffix)
               then Some suffix else None
          else None
      | None => None
      end in
  match foundSuffix with
  | Some found => if truthy found then dropLast (String.length found) name else name
  | None => name
  end.

(** [ext ? `.${ext}` : undefined] *)
Definition dotted (ext : option string) : option string :=
  match ext with
  | Some e => if truthy e then Some ("." ++ e)%string else None
  | None => None
  end.

(** The names of the two assets without their live photo suffixes, when one
    is an image and the other a video; [None] is the [else] that returns
    [false]. *)
Definition prunedNames `{Imports} (f g : PotentialLivePhotoAsset)
  : option (string * string) :=
  let '(fName, fExt) := nameAndExtension (fileName f) in
  let '(gName, gExt) := nameAndExtension (fileName g) in
  match PLPA_fileType f, PLPA_fileType g with
  | image, video =>
      Some (removePotentialLivePhotoSuffix fName (dotted gExt),
            removePotentialLivePhotoSuffix gName None)
  | video, image =>
      Some (removePotentialLivePhotoSuffix fName None,
            removePotentialLivePhotoSuffix gName (dotted fExt))
  | _, _ => None
  end.

(** [uploadItemSize] *)
Definition uploadItemSize `{Electron} (uploadItem : UploadItem) : result Z :=
  match uploadItem with
  | ItemFile file => Ok (File_size file)
  | ItemPath path => pathOrZipItemSize (Path path)
  | ItemZip zipPath entryName => pathOrZipItemSize (ZipItem zipPath entryName)
  | ItemFileAndPath file _ => Ok (File_size file)
  end.

(** [uploadItemCreationDate] *)
Definition uploadItemCreationDate `{Electron} `{Imports} (uploadItem : UploadItem)
    (fileType : FileType) (parsedMetadataJSON : option ParsedMetadataJSON)
  : result (option Z) :=
  if truthy (parsedMetadataJSON ?. JSON_creationTime)
  then Ok (parsedMetadataJSON ?. JSON_creationTime)
  else
    parsedMetadata ←
      match fileType return result (option ParsedMetadata) with
      | image => tryExtractImageMetadata uploadItem None
      | video => Ok (tryExtractVideoMetadata uploadItem)
      | livePhoto => Throw UnexpectedFileType
      end;
    Ok (timestamp <$> parsedMetadata ?. creationDate ?. id).

(** [fDate && gDate && Math.abs(fDate - gDate) / 1e6 < thresholdSeconds],
    as the [if] that follows tests it. *)
Definition haveSameishDate (fDate gDate : option Z) : bool :=
  let thresholdSeconds := 24 * 60 * 60 in
  truthy fDate && truthy gDate &&
  match fDate, gDate with
  | Some fDate, Some gDate =>
      negb (Qle_bool (inject_Z thresholdSeconds)
              (inject_Z (Z.abs (fDate - gDate)) / inject_Z 1000000))
  | _, _ => false
  end.

(** [areLivePhotoAssets] *)
Definition areLivePhotoAssets `{Electron} `{Imports} (f g : PotentialLivePhotoAsset)
    (parsedMetadataJSONMap : gmap string ParsedMetadataJSON) : result bool :=
  if negb (collectionID f =? collectionID g) then Ok false else
  if negb (bool_decide (pathPrefix f = pathPrefix g)) then Ok false else
  match prunedNames f g with
  | None => Ok false
  | Some (fPrunedName, gPrunedName) =>
      if negb (String.eqb fPrunedName gPrunedName) then Ok false else
      let maxAssetSize := 20 * 1024 * 1024 in
      fSize ← uploadItemSize (uploadItem f);
      gSize ← uploadItemSize (uploadItem g);
      if (fSize >? maxAssetSize) || (gSize >? maxAssetSize) then Ok false else
      let fParsedMetadataJSON :=
        matchJSONMetadata (pathPrefix f) (collectionID f) (fileName f)
          parsedMetadataJSONMap in
      let gParsedMetadataJSON :=
        matchJSONMetadata (pathPrefix g) (collectionID g) (fileName g)
          parsedMetadataJSONMap in
      fDate ← uploadItemCreationDate (uploadItem f) (PLPA_fileType f) fParsedMetadataJSON;
      gDate ← uploadItemCreationDate (uploadItem g) (PLPA_fileType g) gParsedMetadataJSON;
      if negb (haveSameishDate fDate gDate)
      then
        (* So only incorporate this check if either neither file has a
           metadata JSON, or both have it. *)
        if (negb (present fParsedMetadataJSON) && negb (present gParsedMetadataJSON))
           || (present fParsedMetadataJSON && present gParsedMetadataJSON)
        then Ok false
        else Ok true
      else Ok true
  end.

End LivePhotoPairer.
Export LivePhotoPairer.

(** ** upload-service.ts: encrypting the stream of a file *)

Module StreamEncryptor.

(** What the [pull] of [encryptFileStream] closes over: the reader of the
    file's stream, the push state, and [ref.pullCount]. *)
Record PullState (worker : CryptoWorker) := {
  fileStreamReader : ReadableStream;
  pushState : PushState worker;
  pullCount : Z;
}.
Arguments fileStreamReader {worker} _.
Arguments pushState {worker} _.
Arguments pullCount {worker} _.

(** [pull(controller)]: the chunk it enqueues, whether it then closes the
    stream, and the state after it.  It throws when the worker does. *)
Definition pull (worker : CryptoWorker) (chunkCount : Z) (st : PullState worker)
  : result (Uint8Array * bool * PullState worker) :=
  let '(value, rest) := read (fileStreamReader st) in
  '(encryptedFileChunk, pushState) ←
    encryptStreamChunk worker value (pushState st) (pullCount st =? chunkCount);
  Ok (encryptedFileChunk, pullCount st =? chunkCount,
      {| fileStreamReader := rest; pushState := pushState;
         pullCount := pullCount st + 1 |}).

(** [interface EncryptedFileStream], as [encryptFileStream] makes it: a
    stream that is pulled, and the number of chunks it is said to emit. *)
Record PulledFileStream (worker : CryptoWorker) := {
  pulled_state : PullState worker;
  pulled_chunkCount : Z;
}.
Arguments pulled_state {worker} _.
Arguments pulled_chunkCount {worker} _.

(** [encryptFileStream]: the decryption header and the encrypted stream. *)
Definition encryptFileStream (fs : FileStream) (fileKey : string) (worker : CryptoWorker)
  : Uint8Array * PulledFileStream worker :=
  let '(decryptionHeader, pushState) := initChunkEncryption worker fileKey in
  (decryptionHeader,
   {| pulled_state := {| fileStreamReader := stream fs; pushState := pushState;
                         pullCount := 1 |};
      pulled_chunkCount := chunkCount fs |}).

(** What the reader of a pulled stream gets when it reads until the stream
    is done: the chunks, and how the stream ended; [StillOpen] when [fuel]
    pulls did not end it. *)
Inductive Delivered :=
| Closed (chunks : list Uint8Array)
| Errored (chunks : list Uint8Array) (e : Error)
| StillOpen (chunks : list Uint8Array).

Definition deliver_more (chunk : Uint8Array) (d : Delivered) : Delivered :=
  match d with
  | Closed chunks => Closed (chunk :: chunks)
  | Errored chunks e => Errored (chunk :: chunks) e
  | StillOpen chunks => StillOpen (chunk :: chunks)
  end.

Fixpoint pullAll (worker : CryptoWorker) (chunkCount : Z) (fuel : nat)
    (st : PullState worker) : Delivered :=
  match fuel with
  | O => StillOpen []
  | S fuel' =>
      match pull worker chunkCount st with
      | Throw e => Errored [] e
      | Ok (chunk, true, _) => Closed [chunk]
      | Ok (chunk, false, st') => deliver_more chunk (pullAll worker chunkCount fuel' st')
      end
  end.

(** The stream closes at the pull whose count is [chunkCount], so that
    many pulls end it when it is at least one. *)
Definition delivered {worker} (s : PulledFileStream worker) : Delivered :=
  pullAll worker (pulled_chunkCount s) (Z.to_nat (pulled_chunkCount s)) (pulled_state s).

End StreamEncryptor.
Export StreamEncryptor.

(** ** upload-service.ts: the upload service and the transport *)

Module UploadTransport.

(** [const multipartChunksPerPart = 5] *)
Definition multipartChunksPerPart : Z := 5.

(** [ObjectUploadURL], [MultipartUploadURLs] and [MultipartCompletedPart]
    of [./remote]. *)
Record ObjectUploadURL := {
  objectKey : string;
  url : string;
}.

Record MultipartUploadURLs := {
  multipart_objectKey : string;
  partURLs : list string;
  completeURL : string;
}.

Record MultipartCompletedPart := {
  partNumber : Z;
  eTag : string;
}.

#[global] Instance MultipartCompletedPart_eq_dec : EqDecision MultipartCompletedPart.
Proof. solve_decision. Defined.

(** [interface EncryptedFileStream], as its reader sees it. *)
Record EncryptedFileStream := {
  encrypted_stream : ReadableStream;
  encrypted_chunkCount : Z;
}.

(** [Uint8Array | EncryptedFileStream] *)
Inductive EncryptedData :=
| Bytes (data : Uint8Array)
| Streamed (s : EncryptedFileStream).

(** [interface EncryptedFilePieces] *)
Record EncryptedFilePieces := {
  file_encryptedData : EncryptedData;
  file_decryptionHeader : string;
  thumbnail_encryptedData : Uint8Array;
  thumbnail_decryptionHeader : string;
  pieces_metadata : string * string;
  pieces_pubMagicMetadata : option MagicMetadata;
  pieces_localID : Z;
}.

(** An uploaded object, in [PostEnteFileRequest]. *)
Record UploadedObject := {
  decryptionHeader : string;
  uploaded_objectKey : string;
  uploaded_size : Z;
}.

(** What [uploadToBucket] returns:
    [Pick<PostEnteFileRequest, "file" | "thumbnail" | "metadata" | "pubMagicMetadata">] *)
Record BackedUpFile := {
  backedUp_file : UploadedObject;
  backedUp_thumbnail : UploadedObject;
  backedUp_metadata : string * string;
  backedUp_pubMagicMetadata : option MagicMetadata;
}.

(** A call out of the upload: to a callback of the upload context, or to a
    function of [./remote]; [Wait] is the pause between two attempts. *)
Inductive Call :=
| AbortIfCancelled
| UpdateUploadProgress (fileLocalID : Z) (percentage : Q)
| FetchUploadURLs (count : Z) (credentials : option string)
| FetchMultipartUploadURLs (uploadPartCount : Z) (credentials : option string)
| PutFile (viaWorker : bool) (url : string) (data : Uint8Array)
| PutFilePart (viaWorker : bool) (partUploadURL : string) (partData : Uint8Array)
| CompleteMultipartUpload (viaWorker : bool) (completionURL : string)
    (completedParts : list MultipartCompletedPart)
| Wait (ms : Z)
| Other (name : string).

(** What is outside: each answer may depend on the calls made before. *)
Class Outside := {
  (** whether the user has cancelled the upload by now *)
  userCancelled : list Call -> bool;
  (** [Math.floor(95 + 5 * Math.random())] *)
  drawMaxPercent : list Call -> Z;
  fetchUploadURLs : list Call -> Z -> option string -> result (list ObjectUploadURL);
  fetchMultipartUploadURLs :
    list Call -> Z -> option string -> result MultipartUploadURLs;
  putFile : list Call -> bool -> string -> Uint8Array -> result unit;
  (** the ETag of the response, when it has one *)
  putFilePart : list Call -> bool -> string -> Uint8Array -> result (option string);
  completeMultipartUpload :
    list Call -> bool -> string -> list MultipartCompletedPart -> result unit;
}.

(** The calls made so far, and the fields of the [UploadService]
    singleton. *)
Record World := {
  calls : list Call;
  uploadURLs : list ObjectUploadURL;
  pendingUploadCount : Z;
  publicAlbumsCredentials : option string;
}.

Definition logged (c : Call) (w : World) : World := {|
  calls := calls w ++ [c];
  uploadURLs := uploadURLs w;
  pendingUploadCount := pendingUploadCount w;
  publicAlbumsCredentials := publicAlbumsCredentials w;
|}.

Definition withUploadURLs (urls : list ObjectUploadURL) (w : World) : World := {|
  calls := calls w;
  uploadURLs := urls;
  pendingUploadCount := pendingUploadCount w;
  publicAlbumsCredentials := publicAlbumsCredentials w;
|}.

(** A call, answered from outside. *)
Definition call {A} (c : Call) (answer : list Call -> result A) : Eff World A :=
  fun w => (answer (calls w), logged c w).

(** Reading the world. *)
Definition get {A} (f : World -> A) : Eff World A := fun w => (Ok (f w), w).

(** [throw new Error(...)] *)
Definition throw {A} (e : Error) : Eff World A := fun w => (Throw e, w).

(** [uploadContext.abortIfCancelled()], a callback the caller of [upload]
    supplies.  By the comment of [createAbortableRetryEnsuringHTTPOk] it
    "aborts the operation by throwing a error with the message set to
    [CustomError.UPLOAD_CANCELLED]" if the upload has been cancelled, and
    returns otherwise. *)
Definition abortIfCancelled `{Outside} : Eff World unit :=
  call AbortIfCancelled
    (fun before => if userCancelled before then Throw UPLOAD_CANCELLED else Ok tt).

(** [uploadContext.updateUploadProgress(fileLocalID, percentage)] *)
Definition updateUploadProgress (fileLocalID : Z) (percentage : Q) : Eff World unit :=
  call (UpdateUploadProgress fileLocalID percentage) (fun _ => Ok tt).

(** [UploadService._refillUploadURLs], [refillUploadURLs] (without the
    sharing of a refill in flight, which is for concurrent uploads). *)
Definition refillUploadURLs `{Outside} : Eff World unit := fun w =>
  let count := pendingUploadCount w in
  let credentials := publicAlbumsCredentials w in
  match fetchUploadURLs (calls w) count credentials with
  | Ok urls =>
      (Ok tt, withUploadURLs (uploadURLs w ++ urls)
                (logged (FetchUploadURLs count credentials) w))
  | Throw e => (Throw e, logged (FetchUploadURLs count credentials) w)
  end.

(** [UploadService.ensureUniqueUploadURLs] *)
Definition ensureUniqueUploadURLs : Eff World unit := fun w =>
  if negb (length (uploadURLs w) =? length (remove_dups (url <$> uploadURLs w)))%nat
  then (Throw DuplicateUploadURLs, w)
  else (Ok tt, w).

(** [this.uploadURLs.pop()] *)
Definition popUploadURL : Eff World (option ObjectUploadURL) := fun w =>
  (Ok (last (uploadURLs w)), withUploadURLs (removelast (uploadURLs w)) w).

(** [UploadService.getUploadURL] *)
Definition getUploadURL `{Outside} : Eff World ObjectUploadURL :=
  empty ← get (fun w => (len (uploadURLs w) =? 0) && truthy (pendingUploadCount w));
  _ ← (if empty : bool
       then _ ← refillUploadURLs; ensureUniqueUploadURLs
       else mret tt);
  url ← popUploadURL;
  match url with
  | Some url => mret url
  | None => throw FailedToObtainUploadURL
  end.

(** [UploadService.fetchMultipartUploadURLs] *)
Definition serviceFetchMultipartUploadURLs `{Outside} (uploadPartCount : Z)
  : Eff World MultipartUploadURLs :=
  credentials ← get publicAlbumsCredentials;
  call (FetchMultipartUploadURLs uploadPartCount credentials)
    (fun before => fetchMultipartUploadURLs before uploadPartCount credentials).

(** Modelled from the spec: [mergeUint8Arrays] of [ente-utils/array], which
    is not among the sources; a part is made of its chunks, in their order
    (spec 4.5, multipart path), so the arrays are put one after the other. *)
Definition mergeUint8Arrays (chunks : list Uint8Array) : Uint8Array := concat chunks.

(** The loop of [nextMultipartUploadPart]: up to [n] reads, stopping at
    [done]. *)
Fixpoint nextChunks (n : nat) (streamReader : ReadableStream)
  : list Uint8Array * ReadableStream :=
  match n with
  | O => ([], streamReader)
  | S n' =>
      match read streamReader with
      | (None, streamReader) => ([], streamReader)
      | (Some chunk, streamReader) =>
          let '(chunks, streamReader) := nextChunks n' streamReader in
          (chunk :: chunks, streamReader)
      end
  end.

(** [nextMultipartUploadPart]: the part, and the reader after it. *)
Definition nextMultipartUploadPart (streamReader : ReadableStream)
  : Uint8Array * ReadableStream :=
  let '(chunks, streamReader) :=
    nextChunks (Z.to_nat multipartChunksPerPart) streamReader in
  (mergeUint8Arrays chunks, streamReader).

(** A [Response], as far as the retrier looks at it. *)
Record Response := {
  response_ok : bool;
  response_etag : option string;
}.

(** Modelled from the spec: [ensureOk] of [ente-base/http], which is not
    among the sources; a response that is not 2xx is a failure (spec 4.5,
    retry policy, (b)). *)
Definition ensureOk (r : Response) : result unit :=
  if response_ok r then Ok tt else Throw HTTPError.

(** Modelled from the spec: [retryAsyncOperation] of [ente-base/http],
    which is not among the sources.  By the spec (4.5, retry policy) and the
    comment of [createAbortableRetryEnsuringHTTPOk]: each attempt calls the
    operation afresh; a failure is first shown to [abortIfNeeded], and what
    that throws ends the retries; otherwise the operation is tried again
    after a wait, as long as the retry profile has a wait left ([waits]);
    when it has none left the failure is thrown. *)
Fixpoint retryAsyncOperation {A} (op : Eff World A)
    (abortIfNeeded : Error -> result unit) (waits : list Z) : Eff World A := fun w =>
  match op w with
  | (Ok a, w) => (Ok a, w)
  | (Throw e, w) =>
      match abortIfNeeded e with
      | Throw e' => (Throw e', w)
      | Ok _ =>
          match waits with
          | [] => (Throw e, w)
          | t :: waits => retryAsyncOperation op abortIfNeeded waits (logged (Wait t) w)
          end
      end
  end.

(** [createAbortableRetryEnsuringHTTPOk]: the retrier for a given
    [abortIfCancelled]; [waits] stands for [opts]. *)
Definition createAbortableRetryEnsuringHTTPOk (abortIfCancelled : Eff World unit)
    (request : Eff World Response) (waits : list Z) : Eff World Response :=
  retryAsyncOperation
    (_ ← abortIfCancelled;
     r ← request;
     _ ← pure (ensureOk r);
     mret r)
    (fun e => if bool_decide (e = UPLOAD_CANCELLED) then Throw e else Ok tt)
    waits.

(** The state of the loop of [uploadStreamUsingMultipart]. *)
Record PartsState := {
  streamReader : ReadableStream;
  parts_fileSize : Z;
  completedParts : list MultipartCompletedPart;
}.

(** The [for] loop of [uploadStreamUsingMultipart], over the entries
    [[index, partUploadURL]] of [multipartUploadURLs.partURLs].  The
    functions of [./remote] are given [requestRetrier]; what they do with it
    is in their answer. *)
Fixpoint uploadParts `{Outside} (isCFUploadProxyDisabled : bool) (fileLocalID : Z)
    (percentPerPart : Q) (partURLs : list string) (index : Z) (st : PartsState)
  : Eff World PartsState :=
  match partURLs with
  | [] => mret st
  | partUploadURL :: partURLs =>
      _ ← abortIfCancelled;
      let partNumber := index + 1 in
      let '(partData, streamReader) := nextMultipartUploadPart (streamReader st) in
      let fileSize := parts_fileSize st + len partData in
      eTag ← call (PutFilePart (negb isCFUploadProxyDisabled) partUploadURL partData)
               (fun before =>
                  putFilePart before (negb isCFUploadProxyDisabled) partUploadURL partData);
      match eTag with
      | Some eTag =>
          if truthy eTag
          then
            _ ← updateUploadProgress fileLocalID (percentPerPart * inject_Z partNumber);
            uploadParts isCFUploadProxyDisabled fileLocalID percentPerPart partURLs
              (index + 1)
              {| streamReader := streamReader;
                 parts_fileSize := fileSize;
                 completedParts :=
                   completedParts st ++ [ {| partNumber := partNumber; eTag := eTag |} ] |}
          else throw eTagMissing
      | None => throw eTagMissing
      end
  end.

(** [uploadStreamUsingMultipart]: the object key and the size. *)
Definition uploadStreamUsingMultipart `{Outside} (fileLocalID : Z)
    (dataStream : EncryptedFileStream) (isCFUploadProxyDisabled : bool)
    (maxPercent : Z) : Eff World (string * Z) :=
  let uploadPartCount := ceil_div (encrypted_chunkCount dataStream) multipartChunksPerPart in
  multipartUploadURLs ← serviceFetchMultipartUploadURLs uploadPartCount;
  let percentPerPart := (inject_Z maxPercent / inject_Z uploadPartCount)%Q in
  st ← uploadParts isCFUploadProxyDisabled fileLocalID percentPerPart
         (partURLs multipartUploadURLs) 0
         {| streamReader := encrypted_stream dataStream;
            parts_fileSize := 0;
            completedParts := [] |};
  match read (streamReader st) with
  | (Some _, _) => throw MoreChunksThanExpected
  | (None, _) =>
      let completionURL := completeURL multipartUploadURLs in
      _ ← call (CompleteMultipartUpload (negb isCFUploadProxyDisabled) completionURL
                  (completedParts st))
            (fun before =>
               completeMultipartUpload before (negb isCFUploadProxyDisabled)
                 completionURL (completedParts st));
      mret (multipart_objectKey multipartUploadURLs, parts_fileSize st)
  end.

(** [readEntireStream] *)
Definition readEntireStream (s : ReadableStream) : Uint8Array := concat s.

(** The [else] branch of [uploadToBucket]: a single [PUT] of [data]. *)
Definition putWhole `{Outside} (localID : Z) (isCFUploadProxyDisabled : bool)
    (maxPercent : Z) (data : Uint8Array) : Eff World (string * Z) :=
  let fileSize := len data in
  fileUploadURL ← getUploadURL;
  let fileObjectKey := objectKey fileUploadURL in
  _ ← call (PutFile (negb isCFUploadProxyDisabled) (url fileUploadURL) data)
        (fun before =>
           putFile before (negb isCFUploadProxyDisabled) (url fileUploadURL) data);
  _ ← updateUploadProgress localID (inject_Z maxPercent);
  mret (fileObjectKey, fileSize).

(** [uploadToBucket] *)
Definition uploadToBucket `{Outside} (encryptedFilePieces : EncryptedFilePieces)
    (isCFUploadProxyDisabled : bool) : Eff World BackedUpFile :=
  let localID := pieces_localID encryptedFilePieces in
  maxPercent ← get (fun w => drawMaxPercent (calls w));
  let encryptedData := file_encryptedData encryptedFilePieces in
  '(fileObjectKey, fileSize) ←
    match encryptedData with
    | Streamed s =>
        if encrypted_chunkCount s >=? multipartChunksPerPart
        then
          (* We have a stream, and it is more than multipartChunksPerPart
             chunks long, so use a multipart upload to upload it. *)
          uploadStreamUsingMultipart localID s isCFUploadProxyDisabled maxPercent
        else
          putWhole localID isCFUploadProxyDisabled maxPercent
            (readEntireStream (encrypted_stream s))
    | Bytes data => putWhole localID isCFUploadProxyDisabled maxPercent data
    end;
  thumbnailUploadURL ← getUploadURL;
  let thumbnail := thumbnail_encryptedData encryptedFilePieces in
  _ ← call (PutFile (negb isCFUploadProxyDisabled) (url thumbnailUploadURL) thumbnail)
        (fun before =>
           putFile before (negb isCFUploadProxyDisabled) (url thumbnailUploadURL) thumbnail);
  mret {|
    backedUp_file := {|
      decryptionHeader := file_decryptionHeader encryptedFilePieces;
      uploaded_objectKey := fileObjectKey;
      uploaded_size := fileSize |};
    backedUp_thumbnail := {|
      decryptionHeader := thumbnail_decryptionHeader encryptedFilePieces;
      uploaded_objectKey := objectKey thumbnailUploadURL;
      uploaded_size := len thumbnail |};
    backedUp_metadata := pieces_metadata encryptedFilePieces;
    backedUp_pubMagicMetadata := pieces_pubMagicMetadata encryptedFilePieces;
  |}.

End UploadTransport.
Export UploadTransport.

(** ** upload-service.ts: [upload] *)

Module UploadPipeline.

(** The collection an item is uploaded to. *)
Record Collection := {
  collection_id : Z;
  collection_key : string;
}.

(** [interface UploadAsset] *)
Record UploadAsset := {
  isLivePhoto : option bool;
  livePhotoAssets : option LivePhotoAssets;
  asset_uploadItem : option UploadItem;
  asset_pathPrefix : option string;
  externalParsedMetadata : option ExternalParsedMetadata;
}.

(** [UploadableUploadItem] *)
Record UploadableUploadItem := {
  collection : Collection;
  item_localID : Z;
  item_fileName : string;
  uploadAsset : UploadAsset;
}.

(** [interface ReadAssetDetailsResult] *)
Record ReadAssetDetailsResult := {
  fileTypeInfo : FileTypeInfo;
  details_fileSize : Z;
  details_lastModifiedMs : Z;
}.

(** [interface ThumbnailedFile] *)
Record ThumbnailedFile := {
  fileStreamOrData : FileStream + Uint8Array;
  thumbnail : Uint8Array;
  thumbnailed_hasStaticThumbnail : bool;
}.

(** [interface FileWithMetadata] *)
Record FileWithMetadata := {
  fwm_localID : Z;
  fwm_fileStreamOrData : FileStream + Uint8Array;
  fwm_thumbnail : Uint8Array;
  fwm_metadata : Metadata;
  fwm_pubMagicMetadata : option MagicMetadata;
}.

(** [PostEnteFileRequest] *)
Record PostEnteFileRequest := {
  post_collectionID : Z;
  encryptedKey : string;
  keyDecryptionNonce : string;
  post_backedUp : BackedUpFile;
}.

(** [UploadResult]: the results that [upload] returns; and [cancelled],
    modelled from the spec, which lists it in its taxonomy of results
    (spec 4.5 and 7) and which no statement of [upload] returns. *)
Inductive UploadResult :=
| unsupported
| tooLarge
| alreadyUploaded
| addedSymlink
| uploaded
| uploadedWithStaticThumbnail
| blocked
| largerThanAvailableStorage
| failed
| cancelled.

#[global] Instance UploadResult_eq_dec : EqDecision UploadResult.
Proof. solve_decision. Defined.

(** [interface UploadResponse] *)
Record UploadResponse := {
  uploadResult : UploadResult;
  uploadedFile : option EnteFile;
}.

(** The stages of [upload] that are taken whole, with the thumbnail
    generators, the file type detection, the encryption of the pieces and
    the calls to remote that they involve; and [handleUploadError] of
    [ente-shared/error], which returns an error or throws one. *)
Class Stages := {
  readAssetDetails : UploadAsset -> result ReadAssetDetailsResult;
  isFileTypeNotSupportedError : Error -> bool;
  readAsset : FileTypeInfo -> UploadAsset -> result ThumbnailedFile;
  constructPublicMagicMetadata : gmap string Value -> result (option MagicMetadata);
  encryptFile :
    FileWithMetadata -> string -> CryptoWorker ->
    result (EncryptedFilePieces * (string * string));
  addToCollection : Collection -> list EnteFile -> result unit;
  postFile : option string -> PostEnteFileRequest -> result EnteFile;
  handleUploadError : Error -> result Error;
}.

(** A stage, as a call. *)
Definition stage {A} (name : string) (r : result A) : Eff World A :=
  call (Other name) (fun _ => r).

(** [extractAssetMetadata] *)
Definition extractAssetMetadata `{Electron} `{Imports} (asset : UploadAsset)
    (fileTypeInfo : FileTypeInfo) (lastModifiedMs : Z) (collectionID : Z)
    (parsedMetadataJSONMap : gmap string ParsedMetadataJSON) (worker : CryptoWorker)
  : result ExtractAssetMetadataResult :=
  if truthy (isLivePhoto asset)
  then
    match livePhotoAssets asset with
    | Some livePhotoAssets =>
        extractLivePhotoMetadata livePhotoAssets (asset_pathPrefix asset) fileTypeInfo
          lastModifiedMs collectionID parsedMetadataJSONMap worker
    | None => Throw TypeError
    end
  else
    match asset_uploadItem asset with
    | Some uploadItem =>
        extractImageOrVideoMetadata uploadItem (asset_pathPrefix asset)
          (externalParsedMetadata asset) fileTypeInfo lastModifiedMs collectionID
          parsedMetadataJSONMap worker
    | None => Throw TypeError
    end.

(** [if (hasStaticThumbnail) metadata.hasStaticThumbnail = true] *)
Definition withStaticThumbnail (m : Metadata) : Metadata := {|
  fileType := fileType m; title := title m;
  creationTime := creationTime m; modificationTime := modificationTime m;
  latitude := latitude m; longitude := longitude m;
  hash := hash m; imageHash := imageHash m; videoHash := videoHash m;
  duration := duration m; hasStaticThumbnail := Some true; localID := localID m;
  version := version m; deviceFolder := deviceFolder m;
|}.

(** [Object.assign({}, anyMatch)] with [collectionID] set *)
Definition symlinkTo (collectionID : Z) (f : EnteFile) : EnteFile := {|
  file_id := file_id f; file_key := file_key f;
  file_collectionID := collectionID;
  EnteFile_metadata := EnteFile_metadata f;
  magicMetadata := magicMetadata f; pubMagicMetadata := pubMagicMetadata f;
|}.

(** The [try] block of [upload], after [readAssetDetails]. *)
Definition upload_details `{Electron} `{Imports} `{Outside} `{Stages}
    (item : UploadableUploadItem) (uploaderName : string)
    (existingFiles : list EnteFile)
    (parsedMetadataJSONMap : gmap string ParsedMetadataJSON) (worker : CryptoWorker)
    (isCFUploadProxyDisabled : bool) (assetDetails : ReadAssetDetailsResult)
  : Eff World UploadResponse :=
  let collection := collection item in
  let maxFileSize := 10 * 1024 * 1024 * 1024 in
  if details_fileSize assetDetails >=? maxFileSize
  then mret {| uploadResult := tooLarge; uploadedFile := None |}
  else
    _ ← abortIfCancelled;
    extracted ← stage "extractAssetMetadata"
      (extractAssetMetadata (uploadAsset item) (fileTypeInfo assetDetails)
         (details_lastModifiedMs assetDetails) (collection_id collection)
         parsedMetadataJSONMap worker);
    let metadata := metadata extracted in
    let matches :=
      filter (fun file => truthy (areFilesSame (EnteFile_metadata file) metadata) = true)
        existingFiles in
    match matches with
    | anyMatch :: _ =>
        match find (fun f => file_collectionID f =? collection_id collection) matches with
        | Some matchInSameCollection =>
            mret {| uploadResult := alreadyUploaded;
                    uploadedFile := Some matchInSameCollection |}
        | None =>
            (* Any of the matching files can be used to add a symlink. *)
            let symlink := symlinkTo (collection_id collection) anyMatch in
            _ ← stage "addToCollection" (addToCollection collection [symlink]);
            mret {| uploadResult := addedSymlink; uploadedFile := Some symlink |}
        end
    | [] =>
        _ ← abortIfCancelled;
        thumbnailed ← stage "readAsset"
          (readAsset (fileTypeInfo assetDetails) (uploadAsset item));
        let metadata :=
          if thumbnailed_hasStaticThumbnail thumbnailed
          then withStaticThumbnail metadata else metadata in
        pubMM ← stage "constructPublicMagicMetadata"
          (constructPublicMagicMetadata
             (<["uploaderName"%string := VString uploaderName]>
                (publicMagicMetadata extracted)));
        _ ← abortIfCancelled;
        let fileWithMetadata := {|
          fwm_localID := item_localID item;
          fwm_fileStreamOrData := fileStreamOrData thumbnailed;
          fwm_thumbnail := thumbnail thumbnailed;
          fwm_metadata := metadata;
          fwm_pubMagicMetadata := pubMM;
        |} in
        '(encryptedFilePieces, encryptedFileKey) ← stage "encryptFile"
          (encryptFile fileWithMetadata (collection_key collection) worker);
        _ ← abortIfCancelled;
        backedUpFile ← uploadToBucket encryptedFilePieces isCFUploadProxyDisabled;
        _ ← abortIfCancelled;
        credentials ← get publicAlbumsCredentials;
        posted ← stage "postFile"
          (postFile credentials
             {| post_collectionID := collection_id collection;
                encryptedKey := encryptedFileKey.1;
                keyDecryptionNonce := encryptedFileKey.2;
                post_backedUp := backedUpFile |});
        mret {| uploadResult :=
                  if truthy (hasStaticThumbnail metadata)
                  then uploadedWithStaticThumbnail else uploaded;
                uploadedFile := Some posted |}
    end.

(** The [try] block of [upload]. *)
Definition upload_try `{Electron} `{Imports} `{Outside} `{Stages}
    (item : UploadableUploadItem) (uploaderName : string)
    (existingFiles : list EnteFile)
    (parsedMetadataJSONMap : gmap string ParsedMetadataJSON) (worker : CryptoWorker)
    (isCFUploadProxyDisabled : bool) : Eff World UploadResponse := fun w =>
  match stage "readAssetDetails" (readAssetDetails (uploadAsset item)) w with
  | (Throw e, w) =>
      if isFileTypeNotSupportedError e
      then (Ok {| uploadResult := unsupported; uploadedFile := None |}, w)
      else (Throw e, w)
  | (Ok assetDetails, w) =>
      upload_details item uploaderName existingFiles parsedMetadataJSONMap worker
        isCFUploadProxyDisabled assetDetails w
  end.

(** The [catch] block of [upload]. *)
Definition upload_catch `{Stages} (e : Error) : result UploadResponse :=
  error ← handleUploadError e;
  Ok {| uploadResult :=
          match error with
          | eTagMissing => blocked
          | FILE_TOO_LARGE => largerThanAvailableStorage
          | _ => failed
          end;
        uploadedFile := None |}.

(** [upload] *)
Definition upload `{Electron} `{Imports} `{Outside} `{Stages}
    (item : UploadableUploadItem) (uploaderName : string)
    (existingFiles : list EnteFile)
    (parsedMetadataJSONMap : gmap string ParsedMetadataJSON) (worker : CryptoWorker)
    (isCFUploadProxyDisabled : bool) : Eff World UploadResponse := fun w =>
  match upload_try item uploaderName existingFiles parsedMetadataJSONMap worker
          isCFUploadProxyDisabled w with
  | (Ok response, w) => (Ok response, w)
  | (Throw e, w) => (upload_catch e, w)
  end.

End UploadPipeline.
Export UploadPipeline.

(** ** Concrete collaborators and inputs, for examples *)

Module Doubles.

(** A browser without the desktop app: every call to it fails. *)
Definition noElectron : Electron := {|
  readStream := fun _ => Throw (OtherError "no electron");
  pathOrZipItemSize := fun _ => Throw (OtherError "no electron");
|}.

(** A three byte file, delivered by the browser as two reads. *)
Definition threeBytes : File := {|
  File_name := "a.jpg";
  File_size := 3;
  File_lastModified := 1700000000000;
  File_stream := [[Byte.x01; Byte.x02]; [Byte.x03]];
|}.

(** The lower case of a string of ASCII characters. *)
Definition lowerChar (c : ascii) : ascii :=
  let n := N_of_ascii c in
  if ((65 <=? n) && (n <=? 90))%N then ascii_of_N (n + 32) else c.

Fixpoint asciiLowerCase (s : string) : string :=
  match s with
  | EmptyString => EmptyString
  | String c s' => String (lowerChar c) (asciiLowerCase s')
  end.

(** Test doubles: names in ASCII, file names without directories, no
    Exif, no sidecar JSON, and a worker whose hash of a stream is its bytes
    read as text. *)
Definition plainImports : Imports := {|
  toLowerCase := asciiLowerCase;
  basename := fun path => path;
  nameAndExtension := fun name => (name, None);
  extractExif := fun _ => Throw (OtherError "no Exif");
  extractVideoMetadata := fun _ => Throw (OtherError "no metadata");
  determineVideoDuration := fun _ => Throw (OtherError "no duration");
  matchJSONMetadata := fun _ _ _ _ => None;
  tryParseEpochMicrosecondsFromFileName := fun _ => None;
  now := 1700000000000;
|}.

Definition echoWorker : CryptoWorker := {|
  HashState := Uint8Array;
  chunkHashInit := [];
  chunkHashUpdate := fun st chunk => st ++ chunk;
  chunkHashFinal := string_of_list_byte;
  PushState := Z;
  initChunkEncryption := fun _ => ([], 0);
  encryptStreamChunk := fun data n isFinal =>
    match data with
    | Some d => Ok (d, n + 1)
    | None => Throw (OtherError "no data")
    end;
|}.

Definition stillAndClip : LivePhotoAssets := {|
  LivePhoto_image := ItemFile {|
    File_name := "IMG_1.heic"; File_size := 2; File_lastModified := 5;
    File_stream := [[Byte.x61; Byte.x62]] |};
  LivePhoto_video := ItemFile {|
    File_name := "IMG_1.mov"; File_size := 1; File_lastModified := 6;
    File_stream := [[Byte.x63]] |};
|}.

(** A live photo of an old client: no [hash], the two hashes apart. *)
Definition legacyLivePhoto : Metadata := {|
  fileType := livePhoto; title := "IMG_1.heic";
  creationTime := 1; modificationTime := 2;
  latitude := None; longitude := None;
  hash := None; imageHash := Some "ab"%string; videoHash := Some "c"%string;
  duration := None; hasStaticThumbnail := None; localID := None;
  version := None; deviceFolder := None;
|}.

(** [nameAndExtension] as a split at the last dot of the name, when there
    is one and it is not the first character. *)
Fixpoint lastDot (s : string) : option nat :=
  match s with
  | EmptyString => None
  | String c s' =>
      match lastDot s' with
      | Some i => Some (S i)
      | None => if Ascii.eqb c "." then Some O else None
      end
  end.

Definition splitAtLastDot (name : string) : string * option string :=
  match lastDot name with
  | None | Some O => (name, None)
  | Some i => (substring 0 i name,
               Some (substring (S i) (String.length name - S i) name))
  end.

(** An import of a takeout: the sidecar JSON of a file is looked up by the
    name of the file. *)
Definition takeoutImports : Imports := {|
  toLowerCase := asciiLowerCase;
  basename := fun path => path;
  nameAndExtension := splitAtLastDot;
  extractExif := fun _ => Throw (OtherError "no Exif");
  extractVideoMetadata := fun _ => Throw (OtherError "no metadata");
  determineVideoDuration := fun _ => Throw (OtherError "no duration");
  matchJSONMetadata := fun _ _ fileName map => map !! fileName;
  tryParseEpochMicrosecondsFromFileName := fun _ => None;
  now := 1700000000000;
|}.

(** The still and the clip of a live photo of a takeout; the takeout has a
    sidecar JSON for the still only. *)
Definition takeoutStill : PotentialLivePhotoAsset := {|
  fileName := "IMG_1.jpg";
  PLPA_fileType := image;
  collectionID := 7;
  uploadItem := ItemFile {| File_name := "IMG_1.jpg"; File_size := 2;
                            File_lastModified := 5;
                            File_stream := [[Byte.x61; Byte.x62]] |};
  pathPrefix := None;
|}.

Definition takeoutClip : PotentialLivePhotoAsset := {|
  fileName := "IMG_1.mp4";
  PLPA_fileType := video;
  collectionID := 7;
  uploadItem := ItemFile {| File_name := "IMG_1.mp4"; File_size := 1;
                            File_lastModified := 6;
                            File_stream := [[Byte.x63]] |};
  pathPrefix := None;
|}.

Definition takeoutJSON : gmap string ParsedMetadataJSON :=
  {[ "IMG_1.jpg"%string :=
       {| JSON_creationTime := Some 1600000000000000;
          JSON_modificationTime := None;
          JSON_location := None;
          JSON_description := None |} ]}.

(** A cipher that hides nothing: the ciphertext of an object is its code
    as a number, in binary digits; the header is the key. *)
Fixpoint bits (p : positive) : string :=
  match p with
  | xH => EmptyString
  | xO p => String "0" (bits p)
  | xI p => String "1" (bits p)
  end.

Fixpoint unbits (s : string) : positive :=
  match s with
  | EmptyString => xH
  | String c s => if Ascii.eqb c "0" then xO (unbits s) else xI (unbits s)
  end.

Definition clearCrypto : Crypto := {|
  encryptMetadataJSON := fun o key => Ok (bits (encode o), key);
  decryptMetadataJSON := fun c key =>
    match decode (unbits c.1) with
    | Some o => if String.eqb c.2 key then Ok o else Throw (OtherError "wrong key")
    | None => Throw (OtherError "not a ciphertext")
    end;
|}.

(** A remote that accepts every request. *)
Definition acceptingRemote : Remote := {| fetch := fun _ _ => Ok true |}.

(** A remote that answers every request with a status that is not 2xx. *)
Definition rejectingRemote : Remote := {| fetch := fun _ _ => Ok false |}.

Definition noFileImports : FileImports := {| mergeMetadata1 := fun file => file |}.

Definition plainMetadata : Metadata := {|
  fileType := image; title := "a.jpg";
  creationTime := 1; modificationTime := 2;
  latitude := None; longitude := None;
  hash := Some "h"%string; imageHash := None; videoHash := None;
  duration := None; hasStaticThumbnail := None; localID := None;
  version := None; deviceFolder := None;
|}.

(** A file as remote sent it: its public magic metadata, at version 3,
    still encrypted; it holds a caption of [null] besides a width. *)
Definition syncedFile : EnteFile := {|
  file_id := 10;
  file_key := "k";
  file_collectionID := 7;
  EnteFile_metadata := plainMetadata;
  magicMetadata :=
    Some {| MM_version := 2; MM_count := 1;
            MM_data := Decrypted {[ "visibility"%string := VNumber 0 ]};
            MM_header := "k" |};
  pubMagicMetadata :=
    Some {| MM_version := 3; MM_count := 2;
            MM_data := Encrypted
              (bits (encode ({[ "caption"%string := VNull;
                                "w"%string := VNumber 640 ]} : gmap string Value)));
            MM_header := "k" |};
|}.

(** An outside where every call succeeds: remote hands out as many URLs
    as it is asked for, and every part gets an ETag.  [flag] is the
    cancellation flag. *)
Definition obligingOutside (flag : list Call -> bool) : Outside := {|
  userCancelled := flag;
  drawMaxPercent := fun _ => 97;
  fetchUploadURLs := fun _ n _ =>
    Ok ((fun i => {| objectKey := "object" +:+ pretty i; url := "url" +:+ pretty i |})
          <$> seq 1 (Z.to_nat n));
  fetchMultipartUploadURLs := fun _ n _ =>
    if n <? 0 then Throw (OtherError "bad count")
    else Ok {| multipart_objectKey := "big";
               partURLs := (fun i => "part" +:+ pretty i) <$> seq 1 (Z.to_nat n);
               completeURL := "complete" |};
  putFile := fun _ _ _ _ => Ok tt;
  putFilePart := fun _ _ partUploadURL _ => Ok (Some ("etag-" +:+ partUploadURL));
  completeMultipartUpload := fun _ _ _ _ => Ok tt;
|}.

Definition neverCancelled : list Call -> bool := fun _ => false.

(** The user cancels while the first part is being put. *)
Definition cancelledDuringFirstPart : list Call -> bool := fun before =>
  existsb (fun c => match c with PutFilePart _ _ _ => true | _ => false end) before.

(** The upload service as two uploads begin. *)
Definition freshWorld : World := {|
  calls := [];
  uploadURLs := [];
  pendingUploadCount := 2;
  publicAlbumsCredentials := None;
|}.

(** The pieces of a file of twelve encrypted chunks, of one byte each. *)
Definition twelveChunks : EncryptedFilePieces := {|
  file_encryptedData := Streamed {|
    encrypted_stream := (fun i => [Byte.x61]) <$> seq 1 12;
    encrypted_chunkCount := 12 |};
  file_decryptionHeader := "fh";
  thumbnail_encryptedData := [Byte.x74];
  thumbnail_decryptionHeader := "th";
  pieces_metadata := ("m", "mh")%string;
  pieces_pubMagicMetadata := None;
  pieces_localID := 1;
|}.

(** Stages that all succeed, and hand the twelve chunks to the transport;
    [h] is [handleUploadError]. *)
Definition twelveChunkStages (h : Error -> result Error) : Stages := {|
  readAssetDetails := fun _ =>
    Ok {| fileTypeInfo := {| FileTypeInfo_fileType := image;
                             extension := Some "jpg"%string;
                             imageType := None; videoType := None |};
          details_fileSize := 3;
          details_lastModifiedMs := 1700000000000 |};
  isFileTypeNotSupportedError := fun _ => false;
  readAsset := fun _ _ =>
    Ok {| fileStreamOrData := inr [];
          thumbnail := [Byte.x74];
          thumbnailed_hasStaticThumbnail := false |};
  constructPublicMagicMetadata := fun _ => Ok None;
  encryptFile := fun _ _ _ => Ok (twelveChunks, ("ek", "nonce")%string);
  addToCollection := fun _ _ => Ok tt;
  postFile := fun _ _ => Ok syncedFile;
  handleUploadError := h;
|}.

Definition anItem : UploadableUploadItem := {|
  collection := {| collection_id := 7; collection_key := "ck" |};
  item_localID := 1;
  item_fileName := "a.jpg";
  uploadAsset := {|
    isLivePhoto := None;
    livePhotoAssets := None;
    asset_uploadItem := Some (ItemFile threeBytes);
    asset_pathPrefix := None;
    externalParsedMetadata := None;
  |};
|}.

End Doubles.
Export Doubles.

(** ** upload-service.ts: the other methods of [UploadService] *)

Module UploadServiceState.

Definition withPendingUploadCount (n : Z) (w : World) : World := {|
  calls := calls w;
  uploadURLs := uploadURLs w;
  pendingUploadCount := n;
  publicAlbumsCredentials := publicAlbumsCredentials w;
|}.

(** [init(publicAlbumsCredentials)] *)
Definition init (credentials : option string) : Eff World unit := fun w =>
  (Ok tt, {| calls := calls w;
             uploadURLs := uploadURLs w;
             pendingUploadCount := pendingUploadCount w;
             publicAlbumsCredentials := credentials |}).

(** [logout()] *)
Definition logout : Eff World unit := fun w =>
  (Ok tt, {| calls := calls w;
             uploadURLs := [];
             pendingUploadCount := 0;
             publicAlbumsCredentials := None |}).

(** [reducePendingUploadCount()] *)
Definition reducePendingUploadCount : Eff World unit := fun w =>
  (Ok tt, withPendingUploadCount (pendingUploadCount w - 1) w).

(** [preFetchUploadURLs()]: a refill that fails is shown to
    [handleUploadError], whose result is dropped; what that function throws
    is thrown. *)
Definition preFetchUploadURLs `{Outside} `{Stages} : Eff World unit := fun w =>
  match refillUploadURLs w with
  | (Ok _, w) => ensureUniqueUploadURLs w
  | (Throw e, w) =>
      (* checking for any subscription related errors *)
      match handleUploadError e with
      | Throw e' => (Throw e', w)
      | Ok _ => ensureUniqueUploadURLs w
      end
  end.

(** [setFileCount(fileCount)] *)
Definition setFileCount `{Outside} `{Stages} (fileCount : Z) : Eff World unit := fun w =>
  preFetchUploadURLs (withPendingUploadCount fileCount w).

End UploadServiceState.
Export UploadServiceState.

(** ** upload-service.ts: the type, size and thumbnail of an asset *)

Module AssetReader.

(** [detectFileTypeInfoFromChunk], of [ente-gallery/utils/detect-type].
    It is given a callback [readChunk] and the name of the file; the
    callback resolves to the chunk that a first read of the stream gives, so
    the detection is taken as a function of that chunk and the name. *)
Class Detector := {
  detectFileTypeInfoFromChunk : option Uint8Array -> string -> result FileTypeInfo;
}.

(** [readImageOrVideoDetails] *)
Definition readImageOrVideoDetails `{Electron} `{Imports} `{Detector}
    (uploadItem : UploadItem) : result ReadAssetDetailsResult :=
  fs ← readUploadItem uploadItem;
  fileTypeInfo ←
    detectFileTypeInfoFromChunk
      (* const chunk = (await reader.read()).value *)
      (read (stream fs)).1
      (uploadItemFileName uploadItem);
  mret {| fileTypeInfo := fileTypeInfo;
          details_fileSize := fileSize fs;
          details_lastModifiedMs := FileStream_lastModifiedMs fs |}.

(** [readLivePhotoDetails] *)
Definition readLivePhotoDetails `{Electron} `{Imports} `{Detector}
    (livePhotoAssets : LivePhotoAssets) : result ReadAssetDetailsResult :=
  img ← readImageOrVideoDetails (LivePhoto_image livePhotoAssets);
  vid ← readImageOrVideoDetails (LivePhoto_video livePhotoAssets);
  mret {|
    fileTypeInfo := {|
      FileTypeInfo_fileType := livePhoto;
      extension :=
        Some (template (extension (fileTypeInfo img)) ++ "+"
              ++ template (extension (fileTypeInfo vid)))%string;
      imageType := extension (fileTypeInfo img);
      videoType := extension (fileTypeInfo vid);
    |};
    details_fileSize := details_fileSize img + details_fileSize vid;
    details_lastModifiedMs := details_lastModifiedMs img;
  |}.

(** [readAssetDetails] *)
Definition readAssetDetails `{Electron} `{Imports} `{Detector}
    (asset : UploadAsset) : result ReadAssetDetailsResult :=
  if truthy (isLivePhoto asset)
  then
    match livePhotoAssets asset with
    | Some livePhotoAssets => readLivePhotoDetails livePhotoAssets
    | None => Throw TypeError
    end
  else
    match asset_uploadItem asset with
    | Some uploadItem => readImageOrVideoDetails uploadItem
    | None => Throw TypeError
    end.

(** A [Blob]: a [File], or bytes wrapped as one. *)
Inductive Blob :=
| BlobOfFile (file : File)
| BlobOfData (data : Uint8Array).

(** [globalThis.electron], and the thumbnail generators of [./thumbnail]. *)
Class Thumbnails := {
  electron : bool;
  generateThumbnailNative : UploadItem -> FileTypeInfo -> result Uint8Array;
  generateThumbnailWeb : Blob -> FileTypeInfo -> result Uint8Array;
  fallbackThumbnail : Uint8Array;
}.

(** [uploadItem instanceof File] *)
Definition instanceofFile (uploadItem : UploadItem) : bool :=
  match uploadItem with
  | ItemFile _ => true
  | _ => false
  end.

(** [withThumbnail] *)
Definition withThumbnail `{Thumbnails} (uploadItem : UploadItem)
    (fileTypeInfo : FileTypeInfo) (fileStream : FileStream) : ThumbnailedFile :=
  (* 1. Native thumbnail generation using items's (effective) path. *)
  let thumbnail : option Uint8Array :=
    if electron && negb (instanceofFile uploadItem)
    then orUndefined (generateThumbnailNative uploadItem fileTypeInfo)
    else None in
  let '(fileData, thumbnail) :=
    match thumbnail with
    | Some _ => (None, thumbnail)
    | None =>
        let '(fileData, blob) :=
          match uploadItem with
          | ItemFile file =>
              (* 2. Browser based thumbnail generation for File (blobs). *)
              (None, Some (BlobOfFile file))
          | _ =>
              (* 3. Browser based thumbnail generation for paths. *)
              if bool_decide (FileTypeInfo_fileType fileTypeInfo = image)
              then
                let data := readEntireStream (stream fileStream) in
                (* The Readable stream cannot be read twice, so use the data
                   directly for subsequent steps. *)
                (Some data, Some (BlobOfData data))
              else (None, None)
          end in
        (fileData,
         match blob with
         | Some blob => orUndefined (generateThumbnailWeb blob fileTypeInfo)
         | None => None
         end)
    end in
  let '(thumbnail, hasStaticThumbnail) :=
    match thumbnail with
    | Some thumbnail => (thumbnail, false)
    | None => (fallbackThumbnail, true)
    end in
  {| fileStreamOrData :=
       match fileData with
       | Some data => inr data
       | None => inl fileStream
       end;
     thumbnail := thumbnail;
     thumbnailed_hasStaticThumbnail := hasStaticThumbnail |}.

(** [readImageOrVideo] *)
Definition readImageOrVideo `{Electron} `{Thumbnails} (uploadItem : UploadItem)
    (fileTypeInfo : FileTypeInfo) : result ThumbnailedFile :=
  fileStream ← readUploadItem uploadItem;
  mret (withThumbnail uploadItem fileTypeInfo fileStream).

End AssetReader.

(** ** file-metadata.ts: what is shown of a file *)

Module FileDisplay.

(** [o?.k] for an object [o] that may be [undefined]: the value of the
    key, [undefined] when the key or the object is not there. *)
Definition prop (o : option (gmap string Value)) (k : string) : Value :=
  match o with
  | Some o => default VUndefined (o !! k)
  | None => VUndefined
  end.

(** [a ?? b] *)
Definition coalesce (a b : Value) : Value :=
  match a with
  | VNull | VUndefined => b
  | _ => a
  end.

(** [const ItemVisibility = { visible: 0, archived: 1, hidden: 2 }] *)
Module ItemVisibility.
Definition visible : Z := 0.
Definition archived : Z := 1.
Definition hidden : Z := 2.
End ItemVisibility.

(** [fileVisibility] *)
Definition fileVisibility (file : EnteFile) : result Value :=
  m ← filePrivateMagicMetadata file;
  mret (prop m "visibility").

(** [isArchivedFile] *)
Definition isArchivedFile (item : EnteFile) : result bool :=
  v ← fileVisibility item;
  mret (bool_decide (v = VNumber ItemVisibility.archived)).

(** [fileCaption] *)
Definition fileCaption (file : EnteFile) : result Value :=
  m ← filePublicMagicMetadata file;
  mret (prop m "caption").

(** [fileDurationString].  The duration is a whole number of seconds;
    [%] is the remainder that has the sign of the dividend. *)
Definition fileDurationString (file : EnteFile) : option string :=
  match duration (EnteFile_metadata file) with
  | None => None
  | Some d =>
      if negb (truthy d) then None
      else
        let s := Z.rem d 60 in
        let m := Z.rem (d / 60) 60 in
        let h := d / 3600 in
        let ss := if s >? 9 then pretty s else ("0" ++ pretty s)%string in
        if truthy h
        then
          let mm := if m >? 9 then pretty m else ("0" ++ pretty m)%string in
          Some (pretty h ++ ":" ++ mm ++ ":" ++ ss)%string
        else Some (pretty m ++ ":" ++ ss)%string
  end.

End FileDisplay.
Export FileDisplay.

(** ** The developer settings: [updateAPIOrigin] *)

Module DevSettings.

(** A JSON value, as the body of a response has it. *)
#[local] Unset Elimination Schemes.
Inductive JSON :=
| JNull
| JBool (b : bool)
| JNumber (n : Q)
| JString (s : string)
| JArray (items : list JSON)
| JObject (entries : list (string * JSON)).
#[local] Set Elimination Schemes.

(** [o[k]] on the object that [JSON.parse] makes of the members: of
    those with the same name, the last. *)
Fixpoint member (k : string) (entries : list (string * JSON)) : option JSON :=
  match entries with
  | [] => None
  | (k', v) :: entries =>
      match member k entries with
      | Some v' => Some v'
      | None => if String.eqb k k' then Some v else None
      end
  end.

(** The [Response] of the ping: [res.ok], [res.status] and what
    [res.json()] resolves to, when the body is JSON. *)
Record PingResult := {
  ping_ok : bool;
  ping_status : Z;
  ping_json : result JSON;
}.

(** [fetch(url)] *)
Class Network := {
  fetchURL : string -> result PingResult;
}.

(** [PingResponse.parse], for the schema
    [z.object({ message: z.enum(["pong"]) })]. *)
Definition PingResponse_parse (j : JSON) : result unit :=
  match j with
  | JObject entries =>
      match member "message" entries with
      | Some (JString message) =>
          if String.eqb message "pong" then Ok tt else Throw ZodError
      | _ => Throw ZodError
      end
  | _ => Throw ZodError
  end.

(** [updateAPIOrigin], on the local storage. *)
Definition updateAPIOrigin `{Network} (origin : string)
  : Eff (gmap string string) unit := fun localStorage =>
  if negb (truthy origin)
  then (Ok tt, delete "apiOrigin"%string localStorage)
  else
    let url := (origin ++ "/ping")%string in
    match fetchURL url with
    | Throw e => (Throw e, localStorage)
    | Ok res =>
        if negb (ping_ok res)
        then (Throw (OtherError ("Failed to fetch " ++ url ++ ": HTTP "
                                 ++ pretty (ping_status res))), localStorage)
        else
          match ping_json res ≫= PingResponse_parse with
          | Throw _ => (Throw (OtherError "Invalid response"), localStorage)
          | Ok _ => (Ok tt, <["apiOrigin"%string := origin]> localStorage)
          end
    end.

End DevSettings.
Export DevSettings.

(** ** More test doubles *)

Module MoreDoubles.

(** An outside as obliging as [obligingOutside], but for the response to
    the second part, which comes without an [ETag]. *)
Definition secondPartWithoutETag : Outside := {|
  userCancelled := neverCancelled;
  drawMaxPercent := fun _ => 97;
  fetchUploadURLs := fetchUploadURLs (Outside := obligingOutside neverCancelled);
  fetchMultipartUploadURLs :=
    fetchMultipartUploadURLs (Outside := obligingOutside neverCancelled);
  putFile := fun _ _ _ _ => Ok tt;
  putFilePart := fun _ _ partUploadURL _ =>
    if String.eqb partUploadURL "part2" then Ok None
    else Ok (Some ("etag-" +:+ partUploadURL));
  completeMultipartUpload := fun _ _ _ _ => Ok tt;
|}.

(** A remote that hands out the same upload URL twice. *)
Definition repeatingOutside : Outside := {|
  userCancelled := neverCancelled;
  drawMaxPercent := fun _ => 97;
  fetchUploadURLs := fun _ _ _ =>
    Ok [ {| objectKey := "object1"; url := "url1" |};
         {| objectKey := "object2"; url := "url1" |} ];
  fetchMultipartUploadURLs :=
    fetchMultipartUploadURLs (Outside := obligingOutside neverCancelled);
  putFile := fun _ _ _ _ => Ok tt;
  putFilePart := fun _ _ _ _ => Ok None;
  completeMultipartUpload := fun _ _ _ _ => Ok tt;
|}.


(** A runtime in which the lower case of [I] has two characters, as that
    of [U+0130] has two code units in JavaScript. *)
Fixpoint dottingLowerCase (s : string) : string :=
  match s with
  | EmptyString => EmptyString
  | String c s' =>
      if Ascii.eqb c "I" then String "i" (String "'" (dottingLowerCase s'))
      else String (lowerChar c) (dottingLowerCase s')
  end.

Definition dottingImports : Imports := {|
  toLowerCase := dottingLowerCase;
  basename := basename (Imports := plainImports);
  nameAndExtension := nameAndExtension (Imports := plainImports);
  extractExif := extractExif (Imports := plainImports);
  extractVideoMetadata := extractVideoMetadata (Imports := plainImports);
  determineVideoDuration := determineVideoDuration (Imports := plainImports);
  matchJSONMetadata := matchJSONMetadata (Imports := plainImports);
  tryParseEpochMicrosecondsFromFileName :=
    tryParseEpochMicrosecondsFromFileName (Imports := plainImports);
  now := now (Imports := plainImports);
|}.

(** An import where every image has Exif: a size, a date with its offset,
    a description. *)
Definition exifImports : Imports := {|
  toLowerCase := asciiLowerCase;
  basename := fun path => path;
  nameAndExtension := fun name => (name, None);
  extractExif := fun _ =>
    Ok {| width := Some 640; height := Some 480;
          creationDate :=
            Some (Some {| dateTime := "2023-08-23T18:03:00.000";
                          offset := Some "+05:30"%string;
                          timestamp := 1692793980000000 |});
          location := None;
          description := Some "at the sea"%string |};
  extractVideoMetadata := fun _ => Throw (OtherError "no metadata");
  determineVideoDuration := fun _ => Throw (OtherError "no duration");
  matchJSONMetadata := fun _ _ _ _ => None;
  tryParseEpochMicrosecondsFromFileName := fun _ => None;
  now := 1700000000000;
|}.

Definition jpg : FileTypeInfo := {|
  FileTypeInfo_fileType := image;
  extension := Some "jpg"%string;
  imageType := None;
  videoType := None;
|}.

(** What is extracted from [threeBytes] with this import. *)
Definition threeBytesExtracted : ExtractAssetMetadataResult := {|
  metadata := {|
    fileType := image; title := "a.jpg";
    creationTime := 1692793980000000; modificationTime := 1700000000000000;
    latitude := None; longitude := None;
    hash := Some (String "001" (String "002" (String "003" EmptyString)));
    imageHash := None; videoHash := None;
    duration := None; hasStaticThumbnail := None; localID := None;
    version := None; deviceFolder := None;
  |};
  publicMagicMetadata :=
    {[ "dateTime"%string := VString "2023-08-23T18:03:00.000";
       "offsetTime"%string := VString "+05:30";
       "w"%string := VNumber 640;
       "h"%string := VNumber 480;
       "caption"%string := VString "at the sea" ]};
|}.

(** The same bytes under the same name, read otherwise and at another
    time. *)
Definition threeBytesAgain : File := {|
  File_name := "a.jpg";
  File_size := 3;
  File_lastModified := 1800000000000;
  File_stream := [[Byte.x01]; [Byte.x02; Byte.x03]];
|}.

(** Stages that differ from [twelveChunkStages] in what the reading of
    the details gives, and in whether its error is one of an unsupported
    type. *)
Definition readingStages (details : result ReadAssetDetailsResult)
    (notSupported : bool) : Stages := {|
  readAssetDetails := fun _ => details;
  isFileTypeNotSupportedError := fun _ => notSupported;
  readAsset := readAsset (Stages := twelveChunkStages Ok);
  constructPublicMagicMetadata :=
    constructPublicMagicMetadata (Stages := twelveChunkStages Ok);
  encryptFile := encryptFile (Stages := twelveChunkStages Ok);
  addToCollection := addToCollection (Stages := twelveChunkStages Ok);
  postFile := postFile (Stages := twelveChunkStages Ok);
  handleUploadError := Ok;
|}.

Definition tenGiB : ReadAssetDetailsResult := {|
  fileTypeInfo := {| FileTypeInfo_fileType := video; extension := Some "mp4"%string;
                     imageType := None; videoType := None |};
  details_fileSize := 10737418240;
  details_lastModifiedMs := 1700000000000;
|}.

(** A file with the metadata that are extracted for [anItem], in the
    collection given. *)
Definition storedCopy (id collectionID : Z) : EnteFile := {|
  file_id := id; file_key := "k"; file_collectionID := collectionID;
  EnteFile_metadata := {|
    fileType := image; title := "a.jpg";
    creationTime := 1700000000000000; modificationTime := 1700000000000000;
    latitude := None; longitude := None;
    hash := Some (string_of_list_byte [Byte.x01; Byte.x02; Byte.x03]);
    imageHash := None; videoHash := None;
    duration := None; hasStaticThumbnail := None; localID := None;
    version := None; deviceFolder := None |};
  magicMetadata := None; pubMagicMetadata := None;
|}.

(** A detection that knows a JPEG by the first byte it is shown, of a
    chunk of at most four MiB. *)
Definition firstByteDetector : AssetReader.Detector := {|
  AssetReader.detectFileTypeInfoFromChunk := fun chunk fileName =>
    match chunk with
    | Some (b :: _ as chunk) =>
        if Byte.eqb b Byte.x01 && (len chunk <=? streamEncryptionChunkSize)
        then Ok {| FileTypeInfo_fileType := image; extension := Some "jpg"%string;
                   imageType := None; videoType := None |}
        else Throw UnexpectedFileType
    | _ => Throw UnexpectedFileType
    end;
|}.

(** The desktop app, when the native generator fails and the one of the
    browser gives the first byte of what it is shown. *)
Definition browserThumbnails : AssetReader.Thumbnails := {|
  AssetReader.electron := true;
  AssetReader.generateThumbnailNative := fun _ _ => Throw (OtherError "native");
  AssetReader.generateThumbnailWeb := fun blob _ =>
    match blob with
    | AssetReader.BlobOfFile file => Ok (take 1 (concat (File_stream file)))
    | AssetReader.BlobOfData data => Ok (take 1 data)
    end;
  AssetReader.fallbackThumbnail := [Byte.xff];
|}.

(** A desktop app that reads the three bytes, one and then two, at any
    path. *)
Definition threeBytesAt : Electron := {|
  readStream := fun _ =>
    Ok {| response_body := [[Byte.x01]; [Byte.x02; Byte.x03]];
          response_size := 3; response_lastModifiedMs := 1700000000000 |};
  pathOrZipItemSize := fun _ => Ok 3;
|}.

(** A file whose video lasts the seconds given. *)
Definition lasting (d : option Z) : EnteFile := {|
  file_id := 1; file_key := "k"; file_collectionID := 7;
  EnteFile_metadata := {|
    fileType := video; title := "a.mp4";
    creationTime := 1700000000000000; modificationTime := 1700000000000000;
    latitude := None; longitude := None;
    hash := None; imageHash := None; videoHash := None;
    duration := d; hasStaticThumbnail := None; localID := None;
    version := None; deviceFolder := None |};
  magicMetadata := None; pubMagicMetadata := None;
|}.

(** A network on which one origin answers the ping, another one answers
    it with something else, and the others do not exist. *)
Definition selfHosted : Network := {|
  fetchURL := fun url =>
    if String.eqb url "https://photos.example.org/ping"
    then Ok {| ping_ok := true; ping_status := 200;
               ping_json := Ok (JObject [("message", JString "pong");
                                         ("id", JNumber 1)]%string) |}
    else if String.eqb url "https://example.org/ping"
    then Ok {| ping_ok := true; ping_status := 200;
               ping_json := Throw (OtherError "Unexpected token <") |}
    else Ok {| ping_ok := false; ping_status := 404; ping_json := Ok JNull |};
|}.

End MoreDoubles.
Export MoreDoubles.

(** * Properties *)

(** ** Slices and lengths *)

Section SliceFacts.
Context {A : Type}.
Implicit Types l k : list A.

Lemma slice_to_take l : forall n, slice_to n l = take (Z.to_nat n) l.
Proof.
  induction l as [|x l IH]; intros n; simpl.
  - by rewrite take_nil.
  - destruct (Z.ltb_spec 0 n) as [Hn|Hn].
    + rewrite IH. replace (Z.to_nat n) with (S (Z.to_nat (n - 1))) by lia. done.
    + replace (Z.to_nat n) with O by lia. done.
Qed.

Lemma slice_from_drop l : forall n, slice_from n l = drop (Z.to_nat n) l.
Proof.
  induction l as [|x l IH]; intros n; simpl.
  - by rewrite drop_nil.
  - destruct (Z.ltb_spec 0 n) as [Hn|Hn].
    + rewrite IH. replace (Z.to_nat n) with (S (Z.to_nat (n - 1))) by lia. done.
    + replace (Z.to_nat n) with O by lia. done.
Qed.

Lemma len_app l k : len (l ++ k) = len l + len k.
Proof. unfold len. rewrite length_app. lia. Qed.

Lemma len_nil : len (@nil A) = 0.
Proof. reflexivity. Qed.

Lemma len_single (x : A) : len [x] = 1.
Proof. reflexivity. Qed.

Lemma len_nonneg l : 0 <= len l.
Proof. unfold len. lia. Qed.

End SliceFacts.

(** ** Calls that may throw *)

Lemma bind_Ok {A B} (m : result A) (k : A -> result B) (b : B) :
  m ≫= k = Ok b -> exists a, m = Ok a /\ k a = Ok b.
Proof. destruct m as [a|e]; simpl; [eauto | discriminate]. Qed.


(** ** C1: the chunks [readUploadItem] emits *)

Module ChunkedReaderFacts.

(** The length the chunk at index [i] must have, for a source of [S]
    bytes cut in grains of [N]: a full grain before the last chunk, and
    the remainder (or a full grain when there is none) for the last. *)
Definition expected_length (N S : Z) (i : nat) : Z :=
  if Z.of_nat i + 1 <? ceil_div S N then N
  else if S mod N =? 0 then N else S mod N.

Section Grain.
Variable N : Z.
Hypothesis N_pos : 0 < N.

(** The transformer's invariant once the bytes [bs] have gone in: full
    grains went out, and fewer than [N] bytes, none of them lost, wait. *)
Definition inv (st : TransformState) (bs : Uint8Array) : Prop :=
  Forall (fun c => len c = N) (enqueued st) /\
  match pending st with
  | None => concat (enqueued st) = bs
  | Some p => concat (enqueued st) ++ p = bs /\ 0 < len p < N
  end.

Lemma drain_spec fuel : forall next out,
  (length next <= fuel)%nat ->
  exists chunks rest,
    drain N fuel next out = (out ++ chunks, rest) /\
    Forall (fun c => len c = N) chunks /\
    len rest < N /\
    concat chunks ++ rest = next.
Proof using N_pos.
  induction fuel as [|fuel IH]; intros next out Hfuel; simpl.
  - exists [], next. rewrite app_nil_r. repeat split; auto.
    destruct next; simpl in *; [unfold len; simpl; lia | lia].
  - destruct (Z.leb_spec N (len next)) as [Hge|Hlt].
    + rewrite slice_to_take, slice_from_drop.
      assert (HN : (Z.to_nat N <= length next)%nat) by (unfold len in Hge; lia).
      destruct (IH (drop (Z.to_nat N) next) (out ++ [take (Z.to_nat N) next]))
        as (chunks & rest & Hd & Hall & Hrest & Hcat).
      { rewrite length_drop. lia. }
      exists (take (Z.to_nat N) next :: chunks), rest.
      rewrite Hd, <- app_assoc. simpl. repeat split; auto.
      * constructor; auto. unfold len. rewrite length_take. lia.
      * rewrite <- app_assoc, Hcat. apply take_drop.
    + exists [], next. rewrite app_nil_r. repeat split; auto.
Qed.

Lemma transform_inv st bs chunk :
  inv st bs -> inv (transform N st chunk) (bs ++ chunk).
Proof using N_pos.
  intros [Hall Hpend]. unfold transform.
  set (next := match pending st with Some p => p ++ chunk | None => chunk end).
  assert (Hnext : concat (enqueued st) ++ next = bs ++ chunk).
  { subst next. destruct (pending st) as [p|].
    - destruct Hpend as [<- _]. by rewrite app_assoc.
    - by rewrite Hpend. }
  destruct (drain_spec (length next) next (enqueued st)) as
    (chunks & rest & Hd & Hch & Hrest & Hcat); [lia|].
  rewrite Hd. split; simpl.
  - apply Forall_app; auto.
  - destruct (Z.eqb_spec (len rest) 0) as [H0|H0]; simpl.
    + assert (rest = []) by (destruct rest; [done | unfold len in H0; simpl in H0; lia]).
      subst rest. rewrite app_nil_r in Hcat.
      by rewrite concat_app, Hcat.
    + split; [by rewrite concat_app, <- app_assoc, Hcat |].
      pose proof (len_nonneg rest). lia.
Qed.

Lemma fold_transform_inv us : forall st bs,
  inv st bs -> inv (fold_left (transform N) us st) (bs ++ concat us).
Proof using N_pos.
  induction us as [|u us IH]; intros st bs Hinv; simpl.
  - by rewrite app_nil_r.
  - rewrite app_assoc. apply IH. by apply transform_inv.
Qed.

(** What comes out of the transformer: full grains, then at most one
    shorter, non-empty chunk; together, the bytes that went in. *)
Lemma pipeThrough_shape us :
  exists full last,
    pipeThrough N us = full ++ last /\
    Forall (fun c => len c = N) full /\
    (last = [] \/ exists p, last = [p] /\ 0 < len p < N) /\
    concat (full ++ last) = concat us.
Proof using N_pos.
  unfold pipeThrough, flush.
  pose proof (fold_transform_inv us {| pending := None; enqueued := [] |} []) as Hinv.
  destruct Hinv as [Hall Hpend]; [by split|].
  set (st := fold_left _ _ _) in *. simpl in Hpend.
  destruct (pending st) as [p|].
  - destruct Hpend as [Hcat Hp]. exists (enqueued st), [p]. repeat split; eauto.
    rewrite concat_app. simpl. by rewrite app_nil_r.
  - exists (enqueued st), []. rewrite !app_nil_r. repeat split; auto.
Qed.

Lemma len_concat_full (full : list Uint8Array) :
  Forall (fun c => len c = N) full -> len (concat full) = N * len full.
Proof.
  induction 1 as [|c full Hc _ IH]; simpl.
  - unfold len. simpl. lia.
  - rewrite len_app, IH, Hc. unfold len. simpl. lia.
Qed.

Lemma pipeThrough_count us :
  len (pipeThrough N us) = ceil_div (len (concat us)) N.
Proof using N_pos.
  destruct (pipeThrough_shape us) as (full & last & -> & Hall & Hlast & <-).
  rewrite concat_app, !len_app, (len_concat_full _ Hall). unfold ceil_div.
  destruct Hlast as [->|(p & -> & Hp)]; simpl.
  - unfold len. simpl length. apply Z.div_unique with (r := N - 1); lia.
  - rewrite app_nil_r. unfold len in *. simpl length.
    apply Z.div_unique with (r := Z.of_nat (length p) - 1); lia.
Qed.

Lemma pipeThrough_lengths us i c :
  pipeThrough N us !! i = Some c ->
  len c = expected_length N (len (concat us)) i.
Proof using N_pos.
  intros Hi. pose proof (pipeThrough_count us) as Hcount.
  destruct (pipeThrough_shape us) as (full & last & Heq & Hall & Hlast & Hcat).
  assert (HS : len (concat us) = N * len full + len (concat last)).
  { by rewrite <- Hcat, concat_app, len_app, (len_concat_full _ Hall). }
  rewrite Heq in Hi, Hcount. rewrite HS in *.
  unfold expected_length. rewrite <- Hcount, len_app.
  assert (Hi' := lookup_lt_Some _ _ _ Hi). rewrite length_app in Hi'.
  destruct Hlast as [->|(p & -> & Hp)]; simpl in *.
  - rewrite app_nil_r in Hi. rewrite !len_nil, !Z.add_0_r, Z.mul_comm, Z_mod_mult.
    assert (len c = N) as ->.
    { eapply (proj1 (Forall_lookup _ _) Hall); eauto. }
    by destruct (_ <? _).
  - rewrite app_nil_r, len_single.
    replace ((N * len full + len p) mod N) with (len p).
    2:{ symmetry. rewrite Z.add_comm, Z.mul_comm, Z_mod_plus_full. apply Z.mod_small. lia. }
    destruct (Z.ltb_spec (Z.of_nat i + 1) (len full + 1)) as [Hlt|Hge].
    + rewrite lookup_app_l in Hi by (unfold len in Hlt; lia).
      eapply (proj1 (Forall_lookup _ _) Hall); eauto.
    + rewrite lookup_app_r in Hi by (unfold len in Hge; lia).
      destruct (i - length full)%nat eqn:E; simpl in Hi; [|done].
      injection Hi as <-. destruct (Z.eqb_spec (len p) 0); [lia | done].
Qed.

End Grain.

Lemma streamEncryptionChunkSize_value : streamEncryptionChunkSize = 4194304.
Proof. reflexivity. Qed.

Lemma streamEncryptionChunkSize_pos : 0 < streamEncryptionChunkSize.
Proof. reflexivity. Qed.

(** C1.  For an upload item whose underlying stream carries the [S] bytes
    that the platform reports as its size, [readUploadItem] returns a
    [chunkCount] of [ceil(S / 4194304)], and a stream of exactly that many
    chunks: each has 4194304 bytes, except the last, which has
    [S mod 4194304] bytes when that is not zero and 4194304 otherwise; a
    source of no bytes gives no chunk.  The chunks are the bytes of the
    source, in order. *)
Theorem readUploadItem_chunks `{Electron} (uploadItem : UploadItem)
    (underlyingStream : ReadableStream) (f : option File) (S lastModified : Z) :
  underlying uploadItem = Ok (underlyingStream, f, S, lastModified) ->
  len (concat underlyingStream) = S ->
  exists fs,
    readUploadItem uploadItem = Ok fs /\
    streamEncryptionChunkSize = 4194304 /\
    chunkCount fs = ceil_div S 4194304 /\
    len (stream fs) = chunkCount fs /\
    (forall i c, stream fs !! i = Some c ->
       len c = if Z.of_nat i + 1 <? chunkCount fs then 4194304
               else if S mod 4194304 =? 0 then 4194304 else S mod 4194304) /\
    (S = 0 -> stream fs = []) /\
    concat (stream fs) = concat underlyingStream.
Proof.
  intros Hu HS. unfold readUploadItem. rewrite Hu. simpl.
  eexists. split; [reflexivity|]. simpl.
  pose proof streamEncryptionChunkSize_pos as Hpos.
  pose proof (pipeThrough_count _ Hpos underlyingStream) as Hcount.
  rewrite HS in Hcount.
  split; [reflexivity|]. split; [reflexivity|]. split; [exact Hcount|].
  split; [|split].
  - intros i c Hi. rewrite (pipeThrough_lengths _ Hpos _ _ _ Hi), HS. reflexivity.
  - intros ->. change (ceil_div 0 streamEncryptionChunkSize) with 0 in Hcount.
    destruct (pipeThrough _ _); [done | unfold len in Hcount; simpl in Hcount; lia].
  - destruct (pipeThrough_shape _ Hpos underlyingStream) as (full & last & -> & _ & _ & Hcat).
    exact Hcat.
Qed.

Lemma readUploadItem_chunks_witness :
  exists fs,
    readUploadItem (H := noElectron) (ItemFile threeBytes) = Ok fs /\
    streamEncryptionChunkSize = 4194304 /\
    chunkCount fs = ceil_div 3 4194304 /\
    len (stream fs) = chunkCount fs /\
    (forall i c, stream fs !! i = Some c ->
       len c = if Z.of_nat i + 1 <? chunkCount fs then 4194304
               else if 3 mod 4194304 =? 0 then 4194304 else 3 mod 4194304) /\
    (3 = 0 -> stream fs = []) /\
    concat (stream fs) = concat (File_stream threeBytes).
Proof.
  apply (readUploadItem_chunks (H := noElectron) (ItemFile threeBytes)
           (File_stream threeBytes) (Some threeBytes) 3 1700000000000);
    reflexivity.
Defined.

(** The transformer at work on a grain of 4, where it is easy to see: reads
    of 3, 0, 6 and 1 bytes come out as chunks of 4, 4 and 2. *)
Example pipeThrough_grain4 :
  let b := Byte.x00 in
  pipeThrough 4 [[b; b; b]; []; [b; b; b; b; b; b]; [b]]
  = [[b; b; b; b]; [b; b; b; b]; [b; b]].
Proof. reflexivity. Qed.

(** With the real grain, the three byte file comes out as one chunk. *)
Example readUploadItem_threeBytes :
  stream <$> readUploadItem (H := noElectron) (ItemFile threeBytes)
  = Ok [[Byte.x01; Byte.x02; Byte.x03]].
Proof. reflexivity. Qed.

End ChunkedReaderFacts.

(** ** C5, C6: content identity *)

Module ContentIdentityFacts.

Lemma truthy_string_iff (s : string) : truthy s = true <-> s <> ""%string.
Proof.
  unfold truthy, truthy_string. destruct (String.eqb_spec s ""); simpl; split; congruence.
Qed.

Lemma truthy_option_string (o : option string) :
  truthy o = true <-> exists s, o = Some s /\ s <> ""%string.
Proof.
  destruct o as [s|]; simpl.
  - change (truthy (Some s)) with (truthy s). rewrite truthy_string_iff.
    split; [eauto | intros (? & [= ->] & ?); done].
  - split; [done | intros (? & ? & _); done].
Qed.

Lemma append_colon_nonempty (a b : string) : (a ++ ":" ++ b)%string <> ""%string.
Proof. destruct a; discriminate. Qed.

(** Closes the cases of a conjunction of implications and equivalences
    once the tests of the code have been decided. *)
Ltac cases := repeat apply conj; try done; firstorder (eauto; congruence).

(** [metadataHash] returns a non-empty hash, or [undefined]. *)
Lemma metadataHash_nonempty (m : Metadata) (h : string) :
  metadataHash m = Some h -> h <> ""%string.
Proof.
  unfold metadataHash.
  destruct (truthy (hash m)) eqn:Hh.
  - intros Heq. apply truthy_option_string in Hh as (s & Hs & Hne). congruence.
  - destruct (_ && _); [|done]. intros [= <-]. apply append_colon_nonempty.
Qed.

Lemma metadataHash_truthy (m : Metadata) :
  truthy (of_string (metadataHash m)) = present (metadataHash m).
Proof.
  destruct (metadataHash m) as [h|] eqn:E; simpl; [|done].
  apply truthy_string_iff. eauto using metadataHash_nonempty.
Qed.

(** C5.  [areFilesSame(f, g)] returns [true] exactly when the file types
    are equal, the titles are equal, and [metadataHash] gives the same
    non-empty hash for both; this is also exactly when its result is truthy
    (what the dedup filter of [upload] tests).  So a difference in the file
    type, in the title or in the hash breaks the match, and when
    [metadataHash] is [undefined] on either side the two are not reported
    as the same. *)
Theorem areFilesSame_iff (f g : Metadata) :
  (areFilesSame f g = VBool true <->
     fileType f = fileType g /\ title f = title g /\
     exists h, h <> ""%string /\ metadataHash f = Some h /\ metadataHash g = Some h) /\
  (truthy (areFilesSame f g) = true <-> areFilesSame f g = VBool true) /\
  (fileType f <> fileType g -> areFilesSame f g = VBool false) /\
  (title f <> title g -> areFilesSame f g = VBool false) /\
  (metadataHash f <> metadataHash g -> truthy (areFilesSame f g) = false) /\
  (metadataHash f = None \/ metadataHash g = None -> truthy (areFilesSame f g) = false).
Proof.
  unfold areFilesSame.
  destruct (bool_decide_reflect (fileType f = fileType g)) as [Ht|Ht]; simpl.
  2:{ cases. }
  destruct (String.eqb_spec (title f) (title g)) as [Hn|Hn]; simpl.
  2:{ cases. }
  unfold js_and. rewrite !metadataHash_truthy.
  destruct (metadataHash f) as [fh|] eqn:Ef, (metadataHash g) as [gh|] eqn:Eg; simpl;
    [|cases..].
  pose proof (metadataHash_nonempty _ _ Ef).
  destruct (bool_decide_reflect (Some fh = Some gh)) as [[= ->]|Hne]; simpl;
    cases.
Qed.

(** The immutable metadata of an image or of a video holds the hash that
    [computeHash] gives for the item. *)
Lemma extractImageOrVideoMetadata_hash `{Electron} `{Imports}
    uploadItem pathPrefix ext fileTypeInfo lastModifiedMs collectionID map worker r :
  extractImageOrVideoMetadata uploadItem pathPrefix ext fileTypeInfo lastModifiedMs
    collectionID map worker = Ok r ->
  exists h, computeHash uploadItem worker = Ok h /\ hash (metadata r) = Some h.
Proof.
  unfold extractImageOrVideoMetadata. intros Hr.
  apply bind_Ok in Hr as (pm & _ & Hr).
  apply bind_Ok in Hr as (h & Hh & Hr).
  exists h. split; [done|].
  destruct (if truthy _ then _ else _) as [ct pmm] in Hr.
  by injection Hr as <-.
Qed.

(** An image whose bytes can be read and hashed has metadata. *)
Lemma extractImageOrVideoMetadata_image `{Electron} `{Imports}
    uploadItem pathPrefix ext fileTypeInfo lastModifiedMs collectionID map worker pm h :
  FileTypeInfo_fileType fileTypeInfo = image ->
  tryExtractImageMetadata uploadItem (Some lastModifiedMs) = Ok pm ->
  computeHash uploadItem worker = Ok h ->
  exists r, extractImageOrVideoMetadata uploadItem pathPrefix ext fileTypeInfo
              lastModifiedMs collectionID map worker = Ok r.
Proof.
  intros Hty Hpm Hh. unfold extractImageOrVideoMetadata.
  rewrite Hty, Hpm. simpl. rewrite Hh. simpl.
  destruct (if truthy _ then _ else _) as [ct pmm]. eauto.
Qed.

(** C6.  The hash that [extractLivePhotoMetadata] records in the
    metadata of a live photo is the hash of the image, a colon, and the
    hash of the video, each as [computeHash] gives it; [metadataHash]
    reads it back as such.  For a live photo of an older client, without
    [hash] but with a non-empty [imageHash] and [videoHash],
    [metadataHash] reconstructs the same colon-joined composite. *)
Theorem livePhoto_hash `{Electron} `{Imports}
    livePhotoAssets pathPrefix fileTypeInfo lastModifiedMs collectionID map worker :
  (forall r,
     extractLivePhotoMetadata livePhotoAssets pathPrefix fileTypeInfo lastModifiedMs
       collectionID map worker = Ok r ->
     exists imageHash videoHash,
       computeHash (LivePhoto_image livePhotoAssets) worker = Ok imageHash /\
       computeHash (LivePhoto_video livePhotoAssets) worker = Ok videoHash /\
       fileType (metadata r) = livePhoto /\
       hash (metadata r) = Some (imageHash ++ ":" ++ videoHash)%string /\
       metadataHash (metadata r) = Some (imageHash ++ ":" ++ videoHash)%string) /\
  (forall (m : Metadata) (ih vh : string),
     fileType m = livePhoto -> hash m = None ->
     imageHash m = Some ih -> ih <> ""%string ->
     videoHash m = Some vh -> vh <> ""%string ->
     metadataHash m = Some (ih ++ ":" ++ vh)%string).
Proof.
  split.
  - intros r Hr. unfold extractLivePhotoMetadata in Hr.
    apply bind_Ok in Hr as (ri & Hi & Hr).
    apply extractImageOrVideoMetadata_hash in Hi as (ih & Hih & Hhash).
    apply bind_Ok in Hr as (vh & Hvh & Hr).
    injection Hr as <-. exists ih, vh. rewrite Hhash. simpl.
    repeat apply conj; try done.
    unfold metadataHash; simpl.
    assert (Ht : truthy (Some (ih ++ ":" ++ vh)%string) = true).
    { apply truthy_option_string. eauto using append_colon_nonempty. }
    by rewrite Ht.
  - intros m ih vh Hty Hh Hih Hine Hvh Hvne. unfold metadataHash.
    rewrite Hh, Hty, Hih, Hvh. simpl.
    assert (truthy (Some ih) = true) as -> by (apply truthy_option_string; eauto).
    assert (truthy (Some vh) = true) as -> by (apply truthy_option_string; eauto).
    done.
Qed.

(** A live photo whose image can be read and whose two parts can be
    hashed has metadata: the first part of [livePhoto_hash] is about
    something. *)
Lemma extractLivePhotoMetadata_returns `{Electron} `{Imports}
    livePhotoAssets pathPrefix fileTypeInfo lastModifiedMs collectionID map worker
    pm imageHash videoHash :
  tryExtractImageMetadata (LivePhoto_image livePhotoAssets) (Some lastModifiedMs) = Ok pm ->
  computeHash (LivePhoto_image livePhotoAssets) worker = Ok imageHash ->
  computeHash (LivePhoto_video livePhotoAssets) worker = Ok videoHash ->
  exists r, extractLivePhotoMetadata livePhotoAssets pathPrefix fileTypeInfo
              lastModifiedMs collectionID map worker = Ok r.
Proof.
  intros Hpm Hih Hvh. unfold extractLivePhotoMetadata.
  edestruct extractImageOrVideoMetadata_image as [r ->]; [| exact Hpm | exact Hih |].
  { reflexivity. }
  simpl. rewrite Hvh. simpl. eauto.
Qed.

Lemma livePhoto_hash_witness :
  (hash <$> (metadata <$>
     extractLivePhotoMetadata (H := noElectron) (H0 := plainImports) stillAndClip None
       {| FileTypeInfo_fileType := livePhoto; extension := Some "heic+mov"%string;
          imageType := Some "heic"%string; videoType := Some "mov"%string |}
       5 1 ∅ echoWorker)) = Ok (Some "ab:c"%string) /\
  metadataHash legacyLivePhoto = Some "ab:c"%string.
Proof.
  split; [reflexivity|].
  apply (proj2 (livePhoto_hash (H := noElectron) (H0 := plainImports) stillAndClip None
                  {| FileTypeInfo_fileType := livePhoto; extension := None;
                     imageType := None; videoType := None |} 5 1 ∅ echoWorker)
           legacyLivePhoto "ab"%string "c"%string);
    (reflexivity || discriminate).
Defined.

End ContentIdentityFacts.

(** ** C8: live photo pairing when one creation date is missing *)

Module LivePhotoPairerFacts.

(** Without a date on one side there is no sameish date. *)
Lemma haveSameishDate_one (fDate gDate : option Z) :
  truthy fDate = negb (truthy gDate) -> haveSameishDate fDate gDate = false.
Proof.
  unfold haveSameishDate. intros ->. by destruct (truthy gDate).
Qed.

(** The claim as the spec states it fails: the still has a creation date
    (from its sidecar JSON), the clip has none, every earlier check passes,
    and the two are paired. *)
Lemma areLivePhotoAssets_pairs_with_one_date :
  collectionID takeoutStill = collectionID takeoutClip /\
  pathPrefix takeoutStill = pathPrefix takeoutClip /\
  prunedNames (H := takeoutImports) takeoutStill takeoutClip
    = Some ("IMG_1", "IMG_1")%string /\
  uploadItemSize (H := noElectron) (uploadItem takeoutStill) = Ok 2 /\
  uploadItemSize (H := noElectron) (uploadItem takeoutClip) = Ok 1 /\
  uploadItemCreationDate (H := noElectron) (H0 := takeoutImports)
    (uploadItem takeoutStill) image (takeoutJSON !! "IMG_1.jpg"%string)
    = Ok (Some 1600000000000000) /\
  uploadItemCreationDate (H := noElectron) (H0 := takeoutImports)
    (uploadItem takeoutClip) video (takeoutJSON !! "IMG_1.mp4"%string)
    = Ok None /\
  areLivePhotoAssets (H := noElectron) (H0 := takeoutImports)
    takeoutStill takeoutClip takeoutJSON = Ok true.
Proof. vm_compute. repeat split. Qed.

(** C8, amended.  For two candidates that pass the checks on collection,
    path prefix, one image and one video, pruned names and sizes: if a
    creation date is available for exactly one of them, the function
    returns [false] when a sidecar metadata JSON was matched for both or
    for neither, and [true] when one was matched for exactly one of them. *)
Theorem areLivePhotoAssets_one_date `{Electron} `{Imports}
    (f g : PotentialLivePhotoAsset) (map : gmap string ParsedMetadataJSON)
    (name : string) (fSize gSize : Z) (fDate gDate : option Z) :
  collectionID f = collectionID g ->
  pathPrefix f = pathPrefix g ->
  prunedNames f g = Some (name, name) ->
  uploadItemSize (uploadItem f) = Ok fSize ->
  uploadItemSize (uploadItem g) = Ok gSize ->
  fSize <= 20 * 1024 * 1024 ->
  gSize <= 20 * 1024 * 1024 ->
  uploadItemCreationDate (uploadItem f) (PLPA_fileType f)
    (matchJSONMetadata (pathPrefix f) (collectionID f) (fileName f) map) = Ok fDate ->
  uploadItemCreationDate (uploadItem g) (PLPA_fileType g)
    (matchJSONMetadata (pathPrefix g) (collectionID g) (fileName g) map) = Ok gDate ->
  truthy fDate = negb (truthy gDate) ->
  areLivePhotoAssets f g map
  = Ok (xorb (present (matchJSONMetadata (pathPrefix f) (collectionID f) (fileName f) map))
             (present (matchJSONMetadata (pathPrefix g) (collectionID g) (fileName g) map))).
Proof.
  intros Hc Hp Hn Hfs Hgs Hfle Hgle Hfd Hgd Hone. unfold areLivePhotoAssets.
  rewrite Hc, Hp in Hfd. rewrite Hc, Hp, Z.eqb_refl, bool_decide_eq_true_2 by done.
  simpl. rewrite Hn, String.eqb_refl. simpl.
  rewrite Hfs. simpl. rewrite Hgs. simpl.
  destruct (Z.gtb_spec fSize (20 * 1024 * 1024)); [lia|].
  destruct (Z.gtb_spec gSize (20 * 1024 * 1024)); [lia|]. simpl.
  rewrite Hfd. simpl. rewrite Hgd. simpl.
  rewrite (haveSameishDate_one _ _ Hone). simpl.
  by destruct (present _), (present _).
Qed.

Lemma areLivePhotoAssets_one_date_witness :
  areLivePhotoAssets (H := noElectron) (H0 := takeoutImports)
    takeoutStill takeoutClip takeoutJSON
  = Ok (xorb (present (takeoutJSON !! "IMG_1.jpg"%string))
             (present (takeoutJSON !! "IMG_1.mp4"%string))).
Proof.
  apply (areLivePhotoAssets_one_date (H := noElectron) (H0 := takeoutImports)
           takeoutStill takeoutClip takeoutJSON "IMG_1"%string 2 1
           (Some 1600000000000000) None);
    first [ vm_compute; reflexivity | vm_compute; discriminate ].
Defined.

End LivePhotoPairerFacts.

(** ** C7: a stream whose chunks differ in number from [chunkCount] *)

Module ChunkCountFacts.

Section Hashing.
Variable worker : CryptoWorker.

Lemma computeHash_loop_less n : forall s st,
  (length s < n)%nat ->
  computeHash_loop worker n s st = Throw LessChunksThanExpected.
Proof.
  induction n as [|n IH]; intros s st Hlt; [lia|].
  destruct s as [|c s]; simpl; [done|]. apply IH. simpl in Hlt. lia.
Qed.

Lemma computeHash_loop_enough n : forall s st,
  (n <= length s)%nat ->
  computeHash_loop worker n s st
  = Ok (drop n s, fold_left (chunkHashUpdate worker) (take n s) st).
Proof.
  induction n as [|n IH]; intros s st Hle; simpl.
  - by rewrite drop_0.
  - destruct s as [|c s]; simpl in *; [lia|]. apply IH. lia.
Qed.

(** [computeHash] on the stream it was given: it throws when the stream
    has fewer chunks than [chunkCount], throws when it has more, and
    otherwise returns the hash of all the chunks. *)
Lemma computeHash_of_verdict (fs : FileStream) :
  computeHash_of fs worker =
    if (length (stream fs) <? Z.to_nat (chunkCount fs))%nat
    then Throw LessChunksThanExpected
    else if (Z.to_nat (chunkCount fs) <? length (stream fs))%nat
    then Throw MoreChunksThanExpected
    else Ok (chunkHashFinal worker
               (fold_left (chunkHashUpdate worker) (stream fs) (chunkHashInit worker))).
Proof.
  unfold computeHash_of.
  destruct (Nat.ltb_spec (length (stream fs)) (Z.to_nat (chunkCount fs))) as [Hlt|Hge].
  - by rewrite computeHash_loop_less.
  - rewrite computeHash_loop_enough by done. simpl.
    destruct (Nat.ltb_spec (Z.to_nat (chunkCount fs)) (length (stream fs))) as [Hlt|Hle].
    + destruct (drop _ _) as [|c rest] eqn:E; simpl; [|done].
      apply (f_equal length) in E. rewrite length_drop in E. simpl in E. lia.
    + rewrite drop_ge, take_ge by lia. done.
Qed.

End Hashing.

Section Encrypting.
Variable worker : CryptoWorker.
Variable n : Z.

(** The pulls up to the one that closes the stream read one chunk each;
    what lies behind these chunks in the source is never read. *)
Lemma pullAll_ignores_surplus (pre : ReadableStream) : forall extra ps p,
  p + len pre = n + 1 ->
  pullAll worker n (length pre)
    {| fileStreamReader := pre ++ extra; pushState := ps; pullCount := p |}
  = pullAll worker n (length pre)
      {| fileStreamReader := pre; pushState := ps; pullCount := p |}.
Proof.
  induction pre as [|c pre IH]; intros extra ps p Hp; [done|].
  simpl. unfold pull. simpl.
  destruct (encryptStreamChunk worker (Some c) ps (p =? n)) as [[e ps']|err]; simpl; [|done].
  destruct (p =? n); [done|].
  rewrite IH; [done|]. unfold len in *. simpl in Hp. lia.
Qed.

(** With a worker that encrypts every chunk it is given, as many pulls as
    there are chunks deliver that many encrypted chunks and close. *)
Lemma pullAll_closes (pre : ReadableStream) : forall ps p,
  (forall c ps b, exists e ps', encryptStreamChunk worker (Some c) ps b = Ok (e, ps')) ->
  pre <> [] ->
  p + len pre = n + 1 ->
  exists chunks,
    pullAll worker n (length pre)
      {| fileStreamReader := pre; pushState := ps; pullCount := p |} = Closed chunks /\
    length chunks = length pre.
Proof.
  induction pre as [|c pre IH]; intros ps p Hworker Hne Hp; [done|].
  simpl. unfold pull. simpl.
  destruct (Hworker c ps (p =? n)) as (e & ps' & ->). simpl.
  destruct (Z.eqb_spec p n) as [->|Hpn].
  - assert (pre = []) as ->.
    { destruct pre; [done|]. unfold len in Hp. simpl in Hp. lia. }
    eauto.
  - destruct pre as [|c' pre].
    { unfold len in Hp. simpl in Hp. lia. }
    destruct (IH ps' (p + 1) Hworker) as (chunks & -> & Hlen); [done | |].
    { unfold len in *. simpl in *. lia. }
    simpl. exists (e :: chunks). simpl. by rewrite Hlen.
Qed.

End Encrypting.

(** A source of two chunks that is said to have one. *)
Definition twoChunksSaidOne : FileStream := {|
  stream := [[Byte.x61]; [Byte.x62]];
  chunkCount := 1;
  fileSize := 1;
  FileStream_lastModifiedMs := 5;
  file := None;
|}.

Definition oneChunk : FileStream := {|
  stream := [[Byte.x61]];
  chunkCount := 1;
  fileSize := 1;
  FileStream_lastModifiedMs := 5;
  file := None;
|}.

(** C7, what the code does.  When the source stream has more chunks than
    [chunkCount] says, the stream that [encryptFileStream] makes delivers
    exactly what it delivers for the source cut to [chunkCount] chunks: the
    surplus is dropped and nothing is thrown. *)
Theorem encryptFileStream_drops_surplus (worker : CryptoWorker) (fileKey : string)
    (fs fs' : FileStream) (extra : ReadableStream) :
  stream fs = stream fs' ++ extra ->
  chunkCount fs = chunkCount fs' ->
  len (stream fs') = chunkCount fs' ->
  delivered (snd (encryptFileStream fs fileKey worker))
  = delivered (snd (encryptFileStream fs' fileKey worker)).
Proof.
  intros Hs Hc Hlen. unfold delivered, encryptFileStream.
  destruct (initChunkEncryption worker fileKey) as [header ps]. simpl.
  rewrite Hs, Hc, <- Hlen. unfold len. rewrite Nat2Z.id.
  apply pullAll_ignores_surplus. unfold len. lia.
Qed.

Lemma encryptFileStream_drops_surplus_witness :
  delivered (snd (encryptFileStream twoChunksSaidOne "key" echoWorker))
  = delivered (snd (encryptFileStream oneChunk "key" echoWorker)).
Proof.
  apply (encryptFileStream_drops_surplus echoWorker "key" twoChunksSaidOne oneChunk
           [[Byte.x62]]); reflexivity.
Defined.

(** At that input [computeHash] throws, and the encrypted stream closes
    after the one chunk it was told of. *)
Example surplus_chunk_hashed_and_encrypted :
  computeHash_of twoChunksSaidOne echoWorker = Throw MoreChunksThanExpected /\
  delivered (snd (encryptFileStream twoChunksSaidOne "key" echoWorker))
  = Closed [[Byte.x61]].
Proof. split; reflexivity. Qed.

(** With too few chunks in the source, [pull] hands [undefined] to the
    worker; this worker refuses it, and the stream errors. *)
Example missing_chunk_hashed_and_encrypted :
  let fs := {| stream := [[Byte.x61]]; chunkCount := 2; fileSize := 5000000;
               FileStream_lastModifiedMs := 5; file := None |} in
  computeHash_of fs echoWorker = Throw LessChunksThanExpected /\
  delivered (snd (encryptFileStream fs "key" echoWorker))
  = Errored [[Byte.x61]] (OtherError "no data").
Proof. split; reflexivity. Qed.

End ChunkCountFacts.

(** ** C2, C3, C10: the mutable metadata tiers *)

Module MetadataStoreFacts.

Lemma unbits_bits (p : positive) : unbits (bits p) = p.
Proof. induction p; simpl; congruence. Qed.

(** The version an update starts from: that of the envelope, or 1. *)
Definition preVersion (tier : option MagicMetadata) : Z :=
  default 1 (MM_version <$> tier).

(** Decrypting what was encrypted gives the object back, for an object
    that JSON can carry: one without a value of [undefined]. *)
Definition roundTrips `{Crypto} : Prop :=
  forall o key c,
    (forall k v, o !! k = Some v -> v <> VUndefined) ->
    encryptMetadataJSON o key = Ok c -> decryptMetadataJSON c key = Ok o.

Lemma clearCrypto_roundTrips : roundTrips (H := clearCrypto).
Proof.
  intros o key c _ [= <-]. simpl.
  by rewrite unbits_bits, decode_encode, String.eqb_refl.
Qed.

Lemma withoutNull_lookup (o : gmap string Value) k v :
  withoutNullAndUndefinedValues o !! k = Some v <-> o !! k = Some v /\ nonNullish v.
Proof. unfold withoutNullAndUndefinedValues. by rewrite map_lookup_filter_Some. Qed.

Lemma withoutNull_id (o : gmap string Value) :
  (forall k v, o !! k = Some v -> nonNullish v) -> withoutNullAndUndefinedValues o = o.
Proof. intros Ho. apply map_filter_id. intros k v Hk. by apply (Ho k). Qed.

Lemma withoutNull_idem (o : gmap string Value) :
  withoutNullAndUndefinedValues (withoutNullAndUndefinedValues o)
  = withoutNullAndUndefinedValues o.
Proof. apply withoutNull_id. intros k v Hk. by apply withoutNull_lookup in Hk as [_ ?]. Qed.

Lemma parse_Ok (o o' : gmap string Value) :
  PublicMagicMetadata_parse o = Ok o' -> o' = o.
Proof.
  unfold PublicMagicMetadata_parse.
  destruct (o !! _) as [[]|]; intros [=]; done.
Qed.

(** The read path, when the file has an envelope and nothing throws. *)
Lemma decryptPublicMagicMetadata_Ok `{Crypto} (file file' : EnteFile) r :
  decryptPublicMagicMetadata file = Ok (r, file') ->
  match pubMagicMetadata file with
  | None => r = None /\ file' = file
  | Some envelope =>
      exists json,
        match MM_data envelope with
        | Encrypted c => decryptMetadataJSON (c, MM_header envelope) (file_key file) = Ok json
        | Decrypted o => json = o
        end /\
        PublicMagicMetadata_parse (withoutNullAndUndefinedValues json)
          = Ok (withoutNullAndUndefinedValues json) /\
        r = Some (withoutNullAndUndefinedValues json) /\
        file' = withPublicEnvelope file
                  (withData envelope (Decrypted (withoutNullAndUndefinedValues json)))
  end.
Proof.
  unfold decryptPublicMagicMetadata.
  destruct (pubMagicMetadata file) as [envelope|]; [|by intros [= <- <-]].
  intros Hr. apply bind_Ok in Hr as (json & Hjson & Hr).
  apply bind_Ok in Hr as (o & Hparse & Hr).
  pose proof (parse_Ok _ _ Hparse) as ->.
  injection Hr as <- <-. exists json. repeat apply conj; try done.
  by destruct (MM_data envelope); [|injection Hjson].
Qed.

(** C10.  For a file with a public magic metadata envelope, the object
    that [decryptPublicMagicMetadata] returns has no key whose value is
    [null] or [undefined], whatever the decrypted JSON held, and it is this
    object that is cached on the envelope. *)
Theorem decryptPublicMagicMetadata_no_nullish `{Crypto}
    (file file' : EnteFile) (envelope : MagicMetadata) r :
  pubMagicMetadata file = Some envelope ->
  decryptPublicMagicMetadata file = Ok (r, file') ->
  exists o,
    r = Some o /\
    (forall k v, o !! k = Some v -> v <> VNull /\ v <> VUndefined) /\
    (forall k, o !! k <> Some VNull /\ o !! k <> Some VUndefined) /\
    exists envelope', pubMagicMetadata file' = Some envelope' /\
                      MM_data envelope' = Decrypted o.
Proof.
  intros Henv Hr. apply decryptPublicMagicMetadata_Ok in Hr. rewrite Henv in Hr.
  destruct Hr as (json & _ & _ & -> & ->).
  exists (withoutNullAndUndefinedValues json).
  assert (Hnn : forall k v, withoutNullAndUndefinedValues json !! k = Some v ->
                            v <> VNull /\ v <> VUndefined).
  { intros k v Hk. by apply withoutNull_lookup in Hk as [_ ?]. }
  split; [done|]. split; [done|]. split.
  - intros k. split; intros Hk; by destruct (Hnn _ _ Hk).
  - eexists. split; reflexivity.
Qed.

Lemma decryptPublicMagicMetadata_no_nullish_witness :
  exists o,
    Some ({[ "w"%string := VNumber 640 ]} : gmap string Value) = Some o /\
    (forall k v, o !! k = Some v -> v <> VNull /\ v <> VUndefined) /\
    (forall k, o !! k <> Some VNull /\ o !! k <> Some VUndefined) /\
    exists envelope',
      pubMagicMetadata
        (withPublicEnvelope syncedFile
           {| MM_version := 3; MM_count := 2;
              MM_data := Decrypted {[ "w"%string := VNumber 640 ]};
              MM_header := "k" |}) = Some envelope' /\
      MM_data envelope' = Decrypted o.
Proof.
  eapply (decryptPublicMagicMetadata_no_nullish (H := clearCrypto) syncedFile);
    [reflexivity | vm_compute; reflexivity].
Defined.

(** The caption of [null] that remote sent is not in what is read. *)
Example decryptPublicMagicMetadata_syncedFile :
  fst <$> decryptPublicMagicMetadata (H := clearCrypto) syncedFile
  = Ok (Some {[ "w"%string := VNumber 640 ]}).
Proof. vm_compute. reflexivity. Qed.

(** The envelope that an update of [merged], from version [v], sends. *)
Definition sentEnvelope (merged : gmap string Value) (v : Z) (c : string * string)
  : MagicMetadata := {|
  MM_version := v;
  MM_count := Z.of_nat (size (filter (fun kv => kv.2 <> VNull /\ kv.2 <> VUndefined) merged));
  MM_data := Encrypted c.1;
  MM_header := c.2;
|}.

(** The request that carries it, for a file. *)
Definition sentRequest (file : EnteFile) (envelope : MagicMetadata)
  : UpdateMagicMetadataRequest :=
  {| metadataList := [ {| entry_id := file_id file; entry_magicMetadata := envelope |} ] |}.

Lemma updateMagicMetadataRequest_run `{Crypto} file metadata v :
  updateMagicMetadataRequest file metadata v =
    match encryptMetadataJSON (withoutNullAndUndefinedValues metadata) (file_key file) with
    | Ok c => Ok (sentRequest file (sentEnvelope metadata v c))
    | Throw e => Throw e
    end.
Proof.
  unfold updateMagicMetadataRequest, withoutNullAndUndefinedValues.
  destruct (encryptMetadataJSON _ _) as [[c hd]|e]; reflexivity.
Qed.

(** [updateRemotePrivateMagicMetadata], statement by statement. *)
Lemma updateRemotePrivateMagicMetadata_run `{Crypto} `{Remote} file updates sent :
  updateRemotePrivateMagicMetadata file updates sent =
    match filePrivateMagicMetadata file with
    | Throw e => (Throw e, sent)
    | Ok existing =>
        let merged := shallowMerge existing updates in
        let v := preVersion (magicMetadata file) in
        match encryptMetadataJSON (withoutNullAndUndefinedValues merged) (file_key file) with
        | Throw e => (Throw e, sent)
        | Ok c =>
            let envelope := sentEnvelope merged v c in
            let p := {| put_path := "/files/magic-metadata";
                        put_body := sentRequest file envelope |} in
            (match fetch sent p with
             | Throw e => Throw e
             | Ok false => Throw HTTPError
             | Ok true => Ok (withData (withVersion envelope (v + 1)) (Decrypted merged))
             end, sent ++ [p])
        end
    end.
Proof.
  unfold updateRemotePrivateMagicMetadata, mbind, Eff_bind, pure.
  destruct (filePrivateMagicMetadata file) as [existing|e]; [|done].
  rewrite updateMagicMetadataRequest_run.
  destruct (encryptMetadataJSON _ _) as [c|e]; [|done]. simpl.
  unfold putFilesPrivateMagicMetadata, put. simpl.
  by destruct (fetch _ _) as [[]|e].
Qed.

(** [updateRemotePublicMagicMetadata], statement by statement. *)
Lemma updateRemotePublicMagicMetadata_run `{Crypto} `{Remote} `{FileImports}
    file updates sent :
  updateRemotePublicMagicMetadata file updates sent =
    match decryptPublicMagicMetadata file with
    | Throw e => (Throw e, sent)
    | Ok (existing, file0) =>
        let merged := shallowMerge existing updates in
        let v := preVersion (pubMagicMetadata file0) in
        match encryptMetadataJSON (withoutNullAndUndefinedValues merged) (file_key file0) with
        | Throw e => (Throw e, sent)
        | Ok c =>
            let envelope := sentEnvelope merged v c in
            let p := {| put_path := "/files/public-magic-metadata";
                        put_body := sentRequest file0 envelope |} in
            (match fetch sent p with
             | Throw e => Throw e
             | Ok false => Throw HTTPError
             | Ok true =>
                 match decryptPublicMagicMetadata
                         (withPublicEnvelope (withPublicEnvelope file0 envelope)
                            (withVersion envelope (v + 1))) with
                 | Throw e => Throw e
                 | Ok (_, file2) => Ok (mergeMetadata1 file2)
                 end
             end, sent ++ [p])
        end
    end.
Proof.
  unfold updateRemotePublicMagicMetadata, mbind, Eff_bind, pure.
  destruct (decryptPublicMagicMetadata file) as [[existing file0]|e]; [|done].
  rewrite updateMagicMetadataRequest_run.
  destruct (encryptMetadataJSON _ _) as [c|e]; [|done]. simpl.
  unfold putFilesPublicMagicMetadata, put. simpl.
  destruct (fetch _ _) as [[]|e]; simpl; try done.
  by destruct (decryptPublicMagicMetadata _) as [[? ?]|e].
Qed.

(** Reading the public tier touches neither the version, nor the key, nor
    the id. *)
Lemma decryptPublicMagicMetadata_keeps `{Crypto} (file file' : EnteFile) r :
  decryptPublicMagicMetadata file = Ok (r, file') ->
  preVersion (pubMagicMetadata file') = preVersion (pubMagicMetadata file) /\
  file_key file' = file_key file /\ file_id file' = file_id file.
Proof.
  intros Hr. apply decryptPublicMagicMetadata_Ok in Hr.
  destruct (pubMagicMetadata file) as [envelope|] eqn:E.
  - by destruct Hr as (json & _ & _ & _ & ->).
  - destruct Hr as [_ ->]. by rewrite E.
Qed.

(** C2.  The envelope that [updateMagicMetadataRequest] builds carries
    the version it is given, as count the number of keys of the object whose
    value is neither [null] nor [undefined], and the ciphertext of the
    object that has exactly these keys, so that no key with a [null] or
    [undefined] value is sent.  An interactive update of either tier, once
    the tier has been read and the merged object encrypted, transmits this
    envelope, whatever remote then answers: it makes one request, a [PUT] to
    the endpoint of the tier of one envelope for the file, built from the
    merged object and the version that was on the envelope of the file
    before the update, or 1 when the file had none.  When the tier cannot
    be read or the encryption fails, the update throws and no request is
    made. *)
Theorem update_transmits `{Crypto} `{Remote} `{FileImports}
    (file : EnteFile) (updates : gmap string Value) (sent : list Put) :
  (forall metadata v c,
     let valid := withoutNullAndUndefinedValues metadata in
     encryptMetadataJSON valid (file_key file) = Ok c ->
     (forall k x, valid !! k = Some x <->
                  metadata !! k = Some x /\ x <> VNull /\ x <> VUndefined) /\
     updateMagicMetadataRequest file metadata v =
       Ok {| metadataList := [
               {| entry_id := file_id file;
                  entry_magicMetadata := {|
                    MM_version := v;
                    MM_count := Z.of_nat (size valid);
                    MM_data := Encrypted c.1;
                    MM_header := c.2 |} |} ] |}) /\
  (forall existing c,
     filePrivateMagicMetadata file = Ok existing ->
     let merged := shallowMerge existing updates in
     let valid := withoutNullAndUndefinedValues merged in
     encryptMetadataJSON valid (file_key file) = Ok c ->
     (forall k v, valid !! k = Some v <->
                  merged !! k = Some v /\ v <> VNull /\ v <> VUndefined) /\
     (updateRemotePrivateMagicMetadata file updates sent).2 = sent ++ [
       {| put_path := "/files/magic-metadata";
          put_body := {| metadataList := [
            {| entry_id := file_id file;
               entry_magicMetadata := {|
                 MM_version := default 1 (MM_version <$> magicMetadata file);
                 MM_count := Z.of_nat (size valid);
                 MM_data := Encrypted c.1;
                 MM_header := c.2 |} |} ] |} |} ]) /\
  (forall existing c,
     fst <$> decryptPublicMagicMetadata file = Ok existing ->
     let merged := shallowMerge existing updates in
     let valid := withoutNullAndUndefinedValues merged in
     encryptMetadataJSON valid (file_key file) = Ok c ->
     (forall k v, valid !! k = Some v <->
                  merged !! k = Some v /\ v <> VNull /\ v <> VUndefined) /\
     (updateRemotePublicMagicMetadata file updates sent).2 = sent ++ [
       {| put_path := "/files/public-magic-metadata";
          put_body := {| metadataList := [
            {| entry_id := file_id file;
               entry_magicMetadata := {|
                 MM_version := default 1 (MM_version <$> pubMagicMetadata file);
                 MM_count := Z.of_nat (size valid);
                 MM_data := Encrypted c.1;
                 MM_header := c.2 |} |} ] |} |} ]) /\
  (forall e,
     (filePrivateMagicMetadata file = Throw e \/
      exists existing,
        filePrivateMagicMetadata file = Ok existing /\
        encryptMetadataJSON
          (withoutNullAndUndefinedValues (shallowMerge existing updates))
          (file_key file) = Throw e) ->
     updateRemotePrivateMagicMetadata file updates sent = (Throw e, sent)) /\
  (forall e,
     (fst <$> decryptPublicMagicMetadata file = Throw e \/
      exists existing,
        fst <$> decryptPublicMagicMetadata file = Ok existing /\
        encryptMetadataJSON
          (withoutNullAndUndefinedValues (shallowMerge existing updates))
          (file_key file) = Throw e) ->
     updateRemotePublicMagicMetadata file updates sent = (Throw e, sent)).
Proof.
  repeat apply conj.
  - intros metadata v c valid Hc. split; [apply withoutNull_lookup|].
    rewrite updateMagicMetadataRequest_run. fold valid. by rewrite Hc.
  - intros existing c Hex merged valid Hc. split; [apply withoutNull_lookup|].
    rewrite updateRemotePrivateMagicMetadata_run, Hex. cbv zeta.
    fold merged valid. by rewrite Hc.
  - intros existing c Hex merged valid Hc. split; [apply withoutNull_lookup|].
    rewrite updateRemotePublicMagicMetadata_run.
    destruct (decryptPublicMagicMetadata file) as [[existing' file0]|e] eqn:Hd; [|done].
    injection Hex as ->.
    destruct (decryptPublicMagicMetadata_keeps _ _ _ Hd) as (Hv & Hk & Hi).
    cbv zeta. fold merged valid. rewrite Hk, Hc. simpl.
    unfold sentRequest, sentEnvelope. fold merged valid. by rewrite Hi, Hv.
  - intros e Hfail. rewrite updateRemotePrivateMagicMetadata_run.
    destruct Hfail as [->|(existing & -> & Hc)]; [done|]. cbv zeta. by rewrite Hc.
  - intros e Hfail. rewrite updateRemotePublicMagicMetadata_run.
    destruct (decryptPublicMagicMetadata file) as [[existing' file0]|e'] eqn:Hd.
    + destruct Hfail as [[=]|(existing & [= ->] & Hc)].
      destruct (decryptPublicMagicMetadata_keeps _ _ _ Hd) as (_ & Hk & _).
      cbv zeta. by rewrite Hk, Hc.
    + destruct Hfail as [[= ->]|(existing & [=] & _)]. done.
Qed.

(** An update of the caption of the synced file to [null], on either
    tier: what is counted and sent is the visibility alone, at version 2,
    and the width alone, at version 3. *)
Lemma update_transmits_witness :
  (updateRemotePrivateMagicMetadata (H := clearCrypto) (H0 := acceptingRemote)
     syncedFile {[ "caption"%string := VNull ]} []).2
  = [] ++ [ {| put_path := "/files/magic-metadata";
               put_body := {| metadataList := [
                 {| entry_id := 10;
                    entry_magicMetadata := {|
                      MM_version := 2;
                      MM_count := 1;
                      MM_data := Encrypted
                        (bits (encode ({[ "visibility"%string := VNumber 0 ]}
                                         : gmap string Value)));
                      MM_header := "k" |} |} ] |} |} ] /\
  (updateRemotePublicMagicMetadata (H := clearCrypto) (H0 := acceptingRemote)
     (H1 := noFileImports) syncedFile {[ "caption"%string := VNull ]} []).2
  = [] ++ [ {| put_path := "/files/public-magic-metadata";
               put_body := {| metadataList := [
                 {| entry_id := 10;
                    entry_magicMetadata := {|
                      MM_version := 3;
                      MM_count := 1;
                      MM_data := Encrypted
                        (bits (encode ({[ "w"%string := VNumber 640 ]}
                                         : gmap string Value)));
                      MM_header := "k" |} |} ] |} |} ].
Proof.
  destruct (update_transmits (H := clearCrypto) (H0 := acceptingRemote)
              (H1 := noFileImports) syncedFile {[ "caption"%string := VNull ]} [])
    as (_ & Hprivate & Hpublic & _).
  split.
  - refine (proj2 (Hprivate (Some {[ "visibility"%string := VNumber 0 ]})
                     (bits (encode ({[ "visibility"%string := VNumber 0 ]}
                                      : gmap string Value)), "k"%string) _ _));
      vm_compute; reflexivity.
  - refine (proj2 (Hpublic (Some {[ "w"%string := VNumber 640 ]})
                     (bits (encode ({[ "w"%string := VNumber 640 ]}
                                      : gmap string Value)), "k"%string) _ _));
      vm_compute; reflexivity.
Defined.

(** An update of a caption to [null]: the request counts and carries the
    width alone, at the version the file had. *)
Example update_transmits_syncedFile :
  (updateRemotePublicMagicMetadata (H := clearCrypto) (H0 := acceptingRemote)
     (H1 := noFileImports) syncedFile {[ "caption"%string := VNull ]} []).2
  = [ {| put_path := "/files/public-magic-metadata";
         put_body := {| metadataList := [
           {| entry_id := 10;
              entry_magicMetadata := {|
                MM_version := 3;
                MM_count := 1;
                MM_data := Encrypted
                  (bits (encode ({[ "w"%string := VNumber 640 ]} : gmap string Value)));
                MM_header := "k" |} |} ] |} |} ].
Proof. vm_compute. reflexivity. Qed.

(** A successful update of the public tier: what was sent, and the
    envelope the file has afterwards. *)
Lemma updateRemotePublicMagicMetadata_Ok `{Crypto} `{Remote} `{FileImports}
    (file file' : EnteFile) (updates : gmap string Value) (sent sent' : list Put) :
  roundTrips ->
  (forall f, pubMagicMetadata (mergeMetadata1 f) = pubMagicMetadata f) ->
  updateRemotePublicMagicMetadata file updates sent = (Ok file', sent') ->
  exists existing c,
    fst <$> decryptPublicMagicMetadata file = Ok existing /\
    let merged := shallowMerge existing updates in
    let v := preVersion (pubMagicMetadata file) in
    encryptMetadataJSON (withoutNullAndUndefinedValues merged) (file_key file) = Ok c /\
    sent' = sent ++ [ {| put_path := "/files/public-magic-metadata";
                         put_body := sentRequest file (sentEnvelope merged v c) |} ] /\
    PublicMagicMetadata_parse (withoutNullAndUndefinedValues merged)
      = Ok (withoutNullAndUndefinedValues merged) /\
    pubMagicMetadata file' =
      Some (withData (withVersion (sentEnvelope merged v c) (v + 1))
              (Decrypted (withoutNullAndUndefinedValues merged))).
Proof.
  intros Hrt Hmerge Hrun. rewrite updateRemotePublicMagicMetadata_run in Hrun.
  destruct (decryptPublicMagicMetadata file) as [[existing file0]|e] eqn:Hd; [|done].
  destruct (decryptPublicMagicMetadata_keeps _ _ _ Hd) as (Hv & Hk & Hi).
  cbv zeta in Hrun.
  destruct (encryptMetadataJSON _ _) as [c|e] eqn:Hc; [|done].
  destruct (fetch _ _) as [[]|e]; try done.
  destruct (decryptPublicMagicMetadata (withPublicEnvelope _ _)) as [[r file2]|e] eqn:Hd2;
    [|done].
  injection Hrun as <- <-.
  exists existing, c. split; [done|]. cbv zeta.
  rewrite <- Hk, <- Hv. split; [done|].
  split; [unfold sentRequest; by rewrite Hi|].
  apply decryptPublicMagicMetadata_Ok in Hd2. simpl in Hd2.
  destruct Hd2 as (json & Hjson & Hparse & _ & ->).
  apply Hrt in Hc;
    [|intros k' v' Hk'; by apply withoutNull_lookup in Hk' as (_ & _ & ?)].
  destruct c as [ct hd]. simpl in Hjson.
  rewrite Hc in Hjson. injection Hjson as <-.
  rewrite withoutNull_idem in Hparse |- *. split; [done|].
  by rewrite Hmerge.
Qed.

(** The claim as the spec states it fails on the public tier: after an
    update that sets the caption to [null], the content of the tier is not
    the shallow merge, which has the key, but the merge without it. *)
Lemma public_update_is_not_the_merge :
  exists file' tier,
    (updateRemotePublicMagicMetadata (H := clearCrypto) (H0 := acceptingRemote)
       (H1 := noFileImports) syncedFile {[ "caption"%string := VNull ]} []).1
      = Ok file' /\
    fst <$> decryptPublicMagicMetadata (H := clearCrypto) syncedFile
      = Ok (Some {[ "w"%string := VNumber 640 ]}) /\
    pubMagicMetadata file' = Some tier /\
    MM_data tier = Decrypted {[ "w"%string := VNumber 640 ]} /\
    MM_data tier <>
      Decrypted (shallowMerge (Some {[ "w"%string := VNumber 640 ]})
                   {[ "caption"%string := VNull ]}).
Proof.
  eexists _, _. split; [vm_compute; reflexivity|].
  split; [vm_compute; reflexivity|].
  split; [reflexivity|]. split; [vm_compute; reflexivity|].
  intros Heq.
  apply (f_equal (fun d => match d with
                           | Decrypted o => o !! "caption"%string
                           | Encrypted _ => None
                           end)) in Heq.
  vm_compute in Heq. discriminate.
Qed.

(** A successful update of the private tier: what was sent, and the tier
    object that is returned. *)
Lemma updateRemotePrivateMagicMetadata_Ok `{Crypto} `{Remote}
    (file : EnteFile) (updates : gmap string Value) (sent sent' : list Put)
    (tier : MagicMetadata) :
  updateRemotePrivateMagicMetadata file updates sent = (Ok tier, sent') ->
  exists existing c,
    filePrivateMagicMetadata file = Ok existing /\
    let merged := shallowMerge existing updates in
    let v := preVersion (magicMetadata file) in
    sent' = sent ++ [ {| put_path := "/files/magic-metadata";
                         put_body := sentRequest file (sentEnvelope merged v c) |} ] /\
    tier = withData (withVersion (sentEnvelope merged v c) (v + 1)) (Decrypted merged).
Proof.
  intros Hrun. rewrite updateRemotePrivateMagicMetadata_run in Hrun.
  destruct (filePrivateMagicMetadata file) as [existing|e]; [|done].
  cbv zeta in Hrun. destruct (encryptMetadataJSON _ _) as [c|e]; [|done].
  destruct (fetch _ _) as [[]|e]; try done.
  injection Hrun as <- <-. by exists existing, c.
Qed.

(** C3, amended.  After a successful interactive update, the tier object
    has the version the envelope of the file had before (1 when it had
    none) plus one.  Its content is, for the private tier, the shallow
    merge of the known decrypted value with the updates, the updates
    winning; for the public tier, that merge without the keys whose value
    is [null] or [undefined].  So a caption and then an edited name, applied
    to the public tier, are both there afterwards, the version has grown by
    one with each update, and the request of the second update carries the
    version that the first one left on the file.  In general, a second
    update of the public tier, of the file that the first one left, sends
    the version that the first one bumped, and merges into what the first
    one left.  The private tier is not changed on the file: a second update
    sends the bumped version when it is given a file that carries the tier
    object that the first one returned, and the version from before the
    first one, without the keys of the first one, when it is given the file
    as it was. *)
Theorem update_synthesizes `{Crypto} `{Remote} `{FileImports}
    (file : EnteFile) (updates : gmap string Value) (sent : list Put) :
  roundTrips ->
  (forall f, pubMagicMetadata (mergeMetadata1 f) = pubMagicMetadata f) ->
  (forall tier sent',
     updateRemotePrivateMagicMetadata file updates sent = (Ok tier, sent') ->
     exists existing,
       filePrivateMagicMetadata file = Ok existing /\
       MM_version tier = default 1 (MM_version <$> magicMetadata file) + 1 /\
       MM_data tier = Decrypted (updates ∪ default ∅ existing)) /\
  (forall file' sent',
     updateRemotePublicMagicMetadata file updates sent = (Ok file', sent') ->
     exists existing tier,
       fst <$> decryptPublicMagicMetadata file = Ok existing /\
       pubMagicMetadata file' = Some tier /\
       MM_version tier = default 1 (MM_version <$> pubMagicMetadata file) + 1 /\
       MM_data tier =
         Decrypted (withoutNullAndUndefinedValues (updates ∪ default ∅ existing))) /\
  (forall x y file1 sent1 file2 sent2,
     updateRemotePublicMagicMetadata file {[ "caption"%string := VString x ]} sent
       = (Ok file1, sent1) ->
     updateRemotePublicMagicMetadata file1 {[ "editedName"%string := VString y ]} sent1
       = (Ok file2, sent2) ->
     exists tier1 tier2 o p,
       pubMagicMetadata file1 = Some tier1 /\
       MM_version tier1 = default 1 (MM_version <$> pubMagicMetadata file) + 1 /\
       pubMagicMetadata file2 = Some tier2 /\
       MM_version tier2 = MM_version tier1 + 1 /\
       MM_data tier2 = Decrypted o /\
       o !! "caption"%string = Some (VString x) /\
       o !! "editedName"%string = Some (VString y) /\
       sent2 = sent1 ++ [p] /\
       (MM_version <$> (entry_magicMetadata <$> metadataList (put_body p)))
         = [MM_version tier1]) /\
  (forall second file1 sent1 file2 sent2,
     updateRemotePublicMagicMetadata file updates sent = (Ok file1, sent1) ->
     updateRemotePublicMagicMetadata file1 second sent1 = (Ok file2, sent2) ->
     exists existing tier1 tier2 p,
       fst <$> decryptPublicMagicMetadata file = Ok existing /\
       pubMagicMetadata file1 = Some tier1 /\
       MM_version tier1 = default 1 (MM_version <$> pubMagicMetadata file) + 1 /\
       pubMagicMetadata file2 = Some tier2 /\
       MM_version tier2 = MM_version tier1 + 1 /\
       MM_data tier2 =
         Decrypted (withoutNullAndUndefinedValues
                      (second ∪ withoutNullAndUndefinedValues
                                  (updates ∪ default ∅ existing))) /\
       sent2 = sent1 ++ [p] /\
       put_path p = "/files/public-magic-metadata"%string /\
       (MM_version <$> (entry_magicMetadata <$> metadataList (put_body p)))
         = [MM_version tier1]) /\
  (forall second tier1 sent1 file1 tier2 sent2,
     updateRemotePrivateMagicMetadata file updates sent = (Ok tier1, sent1) ->
     magicMetadata file1 = Some tier1 ->
     updateRemotePrivateMagicMetadata file1 second sent1 = (Ok tier2, sent2) ->
     exists existing p,
       filePrivateMagicMetadata file = Ok existing /\
       MM_version tier2 = MM_version tier1 + 1 /\
       MM_data tier2 = Decrypted (second ∪ (updates ∪ default ∅ existing)) /\
       sent2 = sent1 ++ [p] /\
       put_path p = "/files/magic-metadata"%string /\
       (MM_version <$> (entry_magicMetadata <$> metadataList (put_body p)))
         = [MM_version tier1]) /\
  (forall second tier1 sent1 tier2 sent2,
     updateRemotePrivateMagicMetadata file updates sent = (Ok tier1, sent1) ->
     updateRemotePrivateMagicMetadata file second sent1 = (Ok tier2, sent2) ->
     exists existing p,
       filePrivateMagicMetadata file = Ok existing /\
       MM_version tier2 = MM_version tier1 /\
       MM_data tier2 = Decrypted (second ∪ default ∅ existing) /\
       sent2 = sent1 ++ [p] /\
       put_path p = "/files/magic-metadata"%string /\
       (MM_version <$> (entry_magicMetadata <$> metadataList (put_body p)))
         = [default 1 (MM_version <$> magicMetadata file)]).
Proof.
  intros Hrt Hmerge. repeat apply conj.
  - intros tier sent' Hrun. rewrite updateRemotePrivateMagicMetadata_run in Hrun.
    destruct (filePrivateMagicMetadata file) as [existing|e]; [|done].
    cbv zeta in Hrun. destruct (encryptMetadataJSON _ _) as [c|e]; [|done].
    destruct (fetch _ _) as [[]|e]; try done.
    injection Hrun as <- <-. by exists existing.
  - intros file' sent' Hrun.
    destruct (updateRemotePublicMagicMetadata_Ok _ _ _ _ _ Hrt Hmerge Hrun)
      as (existing & c & Hex & _ & _ & _ & Hpub).
    eexists existing, _. split; [done|]. split; [exact Hpub|]. by split.
  - intros x y file1 sent1 file2 sent2 Hrun1 Hrun2.
    destruct (updateRemotePublicMagicMetadata_Ok _ _ _ _ _ Hrt Hmerge Hrun1)
      as (ex1 & c1 & Hex1 & _ & _ & Hparse1 & Hpub1).
    destruct (updateRemotePublicMagicMetadata_Ok _ _ _ _ _ Hrt Hmerge Hrun2)
      as (ex2 & c2 & Hex2 & _ & Hsent2 & _ & Hpub2).
    cbv zeta in *.
    (* what the second update reads is what the first one left *)
    assert (Hex : ex2 = Some (withoutNullAndUndefinedValues
                                (shallowMerge ex1 {[ "caption"%string := VString x ]}))).
    { unfold decryptPublicMagicMetadata in Hex2. rewrite Hpub1 in Hex2. simpl in Hex2.
      rewrite withoutNull_idem, Hparse1 in Hex2. simpl in Hex2. by injection Hex2. }
    subst ex2. rewrite Hpub1 in Hpub2, Hsent2. simpl in Hpub2, Hsent2.
    eexists _, _, _, _. split; [exact Hpub1|]. split; [reflexivity|].
    split; [exact Hpub2|]. split; [reflexivity|]. split; [reflexivity|].
    split; [|split; [|split; [exact Hsent2 | reflexivity]]].
    + apply withoutNull_lookup. split; [|by split].
      unfold shallowMerge. rewrite lookup_union_r by by rewrite lookup_singleton_ne.
      simpl. apply withoutNull_lookup. split; [|by split].
      unfold shallowMerge. apply lookup_union_Some_raw. left.
      apply lookup_singleton_eq.
    + apply withoutNull_lookup. split; [|by split].
      unfold shallowMerge. apply lookup_union_Some_raw. left.
      apply lookup_singleton_eq.
  - intros second file1 sent1 file2 sent2 Hrun1 Hrun2.
    destruct (updateRemotePublicMagicMetadata_Ok _ _ _ _ _ Hrt Hmerge Hrun1)
      as (ex1 & c1 & Hex1 & _ & _ & Hparse1 & Hpub1).
    destruct (updateRemotePublicMagicMetadata_Ok _ _ _ _ _ Hrt Hmerge Hrun2)
      as (ex2 & c2 & Hex2 & _ & Hsent2 & _ & Hpub2).
    cbv zeta in *.
    assert (Hex : ex2 = Some (withoutNullAndUndefinedValues (shallowMerge ex1 updates))).
    { unfold decryptPublicMagicMetadata in Hex2. rewrite Hpub1 in Hex2. simpl in Hex2.
      rewrite withoutNull_idem, Hparse1 in Hex2. simpl in Hex2. by injection Hex2. }
    subst ex2. rewrite Hpub1 in Hpub2, Hsent2. simpl in Hpub2, Hsent2.
    eexists ex1, _, _, _. split; [exact Hex1|]. split; [exact Hpub1|].
    split; [reflexivity|]. split; [exact Hpub2|]. split; [reflexivity|].
    split; [reflexivity|]. split; [exact Hsent2|]. split; reflexivity.
  - intros second tier1 sent1 file1 tier2 sent2 Hrun1 Htier Hrun2.
    destruct (updateRemotePrivateMagicMetadata_Ok _ _ _ _ _ Hrun1)
      as (ex1 & c1 & Hex1 & _ & Htier1).
    destruct (updateRemotePrivateMagicMetadata_Ok _ _ _ _ _ Hrun2)
      as (ex2 & c2 & Hex2 & Hsent2 & Htier2).
    cbv zeta in *.
    assert (Hex : ex2 = Some (shallowMerge ex1 updates)).
    { unfold filePrivateMagicMetadata in Hex2. rewrite Htier, Htier1 in Hex2.
      simpl in Hex2. by injection Hex2. }
    subst ex2. rewrite Htier in Hsent2, Htier2.
    exists ex1. eexists. split; [exact Hex1|].
    rewrite Htier2, Htier1. split; [reflexivity|]. split; [reflexivity|].
    rewrite Htier1 in Hsent2. split; [exact Hsent2|]. split; reflexivity.
  - intros second tier1 sent1 tier2 sent2 Hrun1 Hrun2.
    destruct (updateRemotePrivateMagicMetadata_Ok _ _ _ _ _ Hrun1)
      as (ex1 & c1 & Hex1 & _ & Htier1).
    destruct (updateRemotePrivateMagicMetadata_Ok _ _ _ _ _ Hrun2)
      as (ex2 & c2 & Hex2 & Hsent2 & Htier2).
    cbv zeta in *. rewrite Hex1 in Hex2. injection Hex2 as <-.
    exists ex1. eexists. split; [exact Hex1|].
    rewrite Htier2, Htier1. split; [reflexivity|]. split; [reflexivity|].
    split; [exact Hsent2|]. split; reflexivity.
Qed.

(** The synced file after a caption, and then after an edited name. *)
Definition withCaption : result EnteFile * list Put :=
  updateRemotePublicMagicMetadata (H := clearCrypto) (H0 := acceptingRemote)
    (H1 := noFileImports) syncedFile {[ "caption"%string := VString "x" ]} [].

Definition withCaptionAndName : result EnteFile * list Put :=
  updateRemotePublicMagicMetadata (H := clearCrypto) (H0 := acceptingRemote)
    (H1 := noFileImports)
    (match withCaption.1 with Ok f => f | Throw _ => syncedFile end)
    {[ "editedName"%string := VString "y" ]} withCaption.2.

Lemma update_synthesizes_witness :
  exists tier1 tier2 o p,
    pubMagicMetadata (match withCaption.1 with Ok f => f | Throw _ => syncedFile end)
      = Some tier1 /\
    MM_version tier1 = default 1 (MM_version <$> pubMagicMetadata syncedFile) + 1 /\
    pubMagicMetadata
      (match withCaptionAndName.1 with Ok f => f | Throw _ => syncedFile end)
      = Some tier2 /\
    MM_version tier2 = MM_version tier1 + 1 /\
    MM_data tier2 = Decrypted o /\
    o !! "caption"%string = Some (VString "x") /\
    o !! "editedName"%string = Some (VString "y") /\
    withCaptionAndName.2 = withCaption.2 ++ [p] /\
    (MM_version <$> (entry_magicMetadata <$> metadataList (put_body p)))
      = [MM_version tier1].
Proof.
  apply (proj1 (proj2 (proj2 (update_synthesizes (H := clearCrypto)
                                (H0 := acceptingRemote) (H1 := noFileImports)
                                syncedFile ∅ []
                                clearCrypto_roundTrips (fun _ => eq_refl))))
           "x"%string "y"%string);
    vm_compute; reflexivity.
Defined.

(** The same run, evaluated: versions 4 and then 5, three keys. *)
Example two_updates_evaluated :
  (pubMagicMetadata <$> withCaptionAndName.1)
  = Ok (Some {| MM_version := 5;
                MM_count := 3;
                MM_data := Decrypted {[ "caption"%string := VString "x";
                                        "editedName"%string := VString "y";
                                        "w"%string := VNumber 640 ]};
                MM_header := "k" |}) /\
  (MM_version <$> (entry_magicMetadata <$>
     (withCaptionAndName.2 ≫= fun p => metadataList (put_body p)))) = [3; 4].
Proof. split; vm_compute; reflexivity. Qed.

(** The private tier keeps a key of [undefined] in what it returns, and
    sends the version the file had. *)
Example private_update_evaluated :
  updateRemotePrivateMagicMetadata (H := clearCrypto) (H0 := acceptingRemote)
    syncedFile {[ "visibility"%string := VUndefined ]} []
  = (Ok {| MM_version := 3; MM_count := 0;
           MM_data := Decrypted {[ "visibility"%string := VUndefined ]};
           MM_header := "k" |},
     [ {| put_path := "/files/magic-metadata";
          put_body := {| metadataList := [
            {| entry_id := 10;
               entry_magicMetadata := {|
                 MM_version := 2; MM_count := 0;
                 MM_data := Encrypted (bits (encode (∅ : gmap string Value)));
                 MM_header := "k" |} |} ] |} |} ]).
Proof. vm_compute. reflexivity. Qed.

(** Two updates of the private tier of the synced file, which is at
    version 2.  Given the file as it was, the second one sends version 2
    again; given a file that carries the tier object that the first one
    returned, it sends version 3. *)
Example private_second_update_evaluated :
  let first :=
    updateRemotePrivateMagicMetadata (H := clearCrypto) (H0 := acceptingRemote)
      syncedFile {[ "visibility"%string := VNumber 1 ]} [] in
  let carrying (tier : MagicMetadata) : EnteFile :=
    {| file_id := 10; file_key := "k"; file_collectionID := 7;
       EnteFile_metadata := plainMetadata;
       magicMetadata := Some tier; pubMagicMetadata := None |} in
  let versions (sent : list Put) : list Z :=
    MM_version <$> (entry_magicMetadata <$> (sent ≫= fun p => metadataList (put_body p))) in
  (MM_version <$> first.1) = Ok 3 /\
  versions
    (updateRemotePrivateMagicMetadata (H := clearCrypto) (H0 := acceptingRemote)
       syncedFile {[ "visibility"%string := VNumber 2 ]} first.2).2 = [2; 2] /\
  (forall tier, first.1 = Ok tier ->
     versions
       (updateRemotePrivateMagicMetadata (H := clearCrypto) (H0 := acceptingRemote)
          (carrying tier) {[ "visibility"%string := VNumber 2 ]} first.2).2 = [2; 3]).
Proof.
  split; [vm_compute; reflexivity|]. split; [vm_compute; reflexivity|].
  intros tier [= <-]. vm_compute. reflexivity.
Qed.

End MetadataStoreFacts.

(** ** C4, C9: the transport *)

Module UploadTransportFacts.

(** The calls that put bytes on remote, or complete a multipart upload. *)
Definition isUpload (c : Call) : bool :=
  match c with
  | PutFile _ _ _ | PutFilePart _ _ _ | CompleteMultipartUpload _ _ _ => true
  | _ => false
  end.

Fixpoint uploadsOf (cs : list Call) : list Call :=
  match cs with
  | [] => []
  | c :: cs => if isUpload c then c :: uploadsOf cs else uploadsOf cs
  end.

(** A stream cut in groups of [n] chunks; [fuel] bounds the number of
    groups. *)
Fixpoint groupsOf {A} (fuel n : nat) (s : list A) : list (list A) :=
  match fuel with
  | O => []
  | S fuel' =>
      match s with
      | [] => []
      | _ => take n s :: groupsOf fuel' n (drop n s)
      end
  end.

(** The parts of a stream: its chunks, five by five. *)
Definition partsOf (s : ReadableStream) : list (list Uint8Array) :=
  groupsOf (length s) (Z.to_nat multipartChunksPerPart) s.

(** [[{partNumber: from, eTag: e0}, {partNumber: from + 1, eTag: e1}, ...]] *)
Fixpoint numbered (from : Z) (eTags : list string) : list MultipartCompletedPart :=
  match eTags with
  | [] => []
  | e :: eTags => {| partNumber := from; eTag := e |} :: numbered (from + 1) eTags
  end.

(** What [k] calls of [nextMultipartUploadPart] in a row return. *)
Fixpoint partDatas (k : nat) (s : ReadableStream) : list Uint8Array * ReadableStream :=
  match k with
  | O => ([], s)
  | S k =>
      let '(d, s) := nextMultipartUploadPart s in
      let '(ds, s) := partDatas k s in
      (d :: ds, s)
  end.

Lemma uploadsOf_app (cs ds : list Call) :
  uploadsOf (cs ++ ds) = uploadsOf cs ++ uploadsOf ds.
Proof.
  induction cs as [|c cs IH]; simpl; [done|].
  destruct (isUpload c); simpl; by rewrite IH.
Qed.

Lemma groupsOf_concat {A} (n : nat) : forall fuel (s : list A),
  (0 < n)%nat -> (length s <= fuel)%nat -> concat (groupsOf fuel n s) = s.
Proof.
  induction fuel as [|fuel IH]; intros s Hn Hfuel.
  - destruct s; [done | simpl in Hfuel; lia].
  - destruct s as [|x s]; [done|].
    change (groupsOf (S fuel) n (x :: s))
      with (take n (x :: s) :: groupsOf fuel n (drop n (x :: s))).
    simpl concat. rewrite IH; [apply take_drop | done |].
    rewrite length_drop. simpl in *. lia.
Qed.

Lemma groupsOf_lengths {A} (n : nat) : forall fuel (s : list A) i g,
  (0 < n)%nat -> (length s <= fuel)%nat ->
  groupsOf fuel n s !! i = Some g ->
  length g = if decide (S i * n <= length s)%nat then n else (length s - i * n)%nat.
Proof.
  induction fuel as [|fuel IH]; intros s i g Hn Hfuel Hg; [done|].
  destruct s as [|x s]; [done|].
  change (groupsOf (S fuel) n (x :: s))
    with (take n (x :: s) :: groupsOf fuel n (drop n (x :: s))) in Hg.
  destruct i as [|i]; simpl in Hg.
  - injection Hg as <-. rewrite length_take. case_decide; lia.
  - apply IH in Hg; [|done|rewrite length_drop; simpl in *; lia].
    rewrite Hg, length_drop. repeat case_decide; nia.
Qed.

Lemma groupsOf_count {A} (n : nat) : forall fuel (s : list A),
  (0 < n)%nat -> (length s <= fuel)%nat ->
  len (groupsOf fuel n s) = ceil_div (len s) (Z.of_nat n).
Proof.
  induction fuel as [|fuel IH]; intros s Hn Hfuel.
  - destruct s; [|simpl in Hfuel; lia]. unfold ceil_div, len. simpl.
    symmetry. apply Z.div_small. lia.
  - destruct s as [|x s].
    { unfold ceil_div, len. simpl. symmetry. apply Z.div_small. lia. }
    change (groupsOf (S fuel) n (x :: s))
      with (take n (x :: s) :: groupsOf fuel n (drop n (x :: s))).
    unfold len at 1. simpl length. rewrite Nat2Z.inj_succ. fold (len (groupsOf fuel n (drop n (x :: s)))).
    rewrite IH; [|done|rewrite length_drop; simpl in *; lia].
    unfold ceil_div, len. rewrite length_drop.
    destruct (decide (n <= length (x :: s))%nat) as [Hle|Hgt].
    + rewrite Nat2Z.inj_sub by done.
      replace (Z.of_nat (length (x :: s)) + Z.of_nat n - 1)
        with ((Z.of_nat (length (x :: s)) - Z.of_nat n + Z.of_nat n - 1) + 1 * Z.of_nat n) by lia.
      rewrite Z.div_add by lia. lia.
    + replace (length (x :: s) - n)%nat with O by lia.
      rewrite (Z.div_small (Z.of_nat 0 + _ - 1)) by lia.
      simpl length in *.
      apply Z.div_unique with (r := Z.of_nat (S (length s)) - 1); lia.
Qed.

Lemma nextChunks_take_drop (n : nat) : forall s,
  nextChunks n s = (take n s, drop n s).
Proof.
  induction n as [|n IH]; intros [|c s]; simpl; try done.
  by rewrite IH.
Qed.

Lemma nextMultipartUploadPart_eq (s : ReadableStream) :
  nextMultipartUploadPart s = (concat (take 5 s), drop 5 s).
Proof. unfold nextMultipartUploadPart. by rewrite nextChunks_take_drop. Qed.

(** As many parts as the stream has groups of five are these groups,
    merged, and leave nothing to read. *)
Lemma partDatas_groups : forall fuel (s : ReadableStream),
  (length s <= fuel)%nat ->
  partDatas (length (groupsOf fuel 5 s)) s = (mergeUint8Arrays <$> groupsOf fuel 5 s, []).
Proof.
  induction fuel as [|fuel IH]; intros s Hfuel.
  - destruct s; [done | simpl in Hfuel; lia].
  - destruct s as [|x s]; [done|].
    change (groupsOf (S fuel) 5 (x :: s))
      with (take 5 (x :: s) :: groupsOf fuel 5 (drop 5 (x :: s))).
    cbn [length partDatas]. rewrite nextMultipartUploadPart_eq.
    rewrite IH; [done|]. rewrite length_drop. simpl in *. lia.
Qed.

Section Loop.
Context `{Outside}.
Variables (isCFUploadProxyDisabled : bool) (fileLocalID : Z).

Lemma abortIfCancelled_run (w : World) :
  abortIfCancelled w
  = (if userCancelled (calls w) then Throw UPLOAD_CANCELLED else Ok tt,
     logged AbortIfCancelled w).
Proof. reflexivity. Qed.

(** One turn of the loop. *)
Lemma uploadParts_cons percentPerPart u urls index st w :
  uploadParts isCFUploadProxyDisabled fileLocalID percentPerPart (u :: urls) index st w =
    if userCancelled (calls w) then (Throw UPLOAD_CANCELLED, logged AbortIfCancelled w)
    else
      let w1 := logged AbortIfCancelled w in
      let d := nextMultipartUploadPart (streamReader st) in
      let w2 := logged (PutFilePart (negb isCFUploadProxyDisabled) u d.1) w1 in
      match putFilePart (calls w1) (negb isCFUploadProxyDisabled) u d.1 with
      | Throw e => (Throw e, w2)
      | Ok None => (Throw eTagMissing, w2)
      | Ok (Some eTag) =>
          if truthy eTag
          then uploadParts isCFUploadProxyDisabled fileLocalID percentPerPart urls
                 (index + 1)
                 {| streamReader := d.2;
                    parts_fileSize := parts_fileSize st + len d.1;
                    completedParts :=
                      completedParts st ++ [ {| partNumber := index + 1; eTag := eTag |} ] |}
                 (logged (UpdateUploadProgress fileLocalID
                            (percentPerPart * inject_Z (index + 1))) w2)
          else (Throw eTagMissing, w2)
      end.
Proof.
  cbn [uploadParts]. unfold mbind at 1, Eff_bind. rewrite abortIfCancelled_run.
  destruct (userCancelled (calls w)); [done|].
  destruct (nextMultipartUploadPart (streamReader st)) as [d rd]. cbv zeta. simpl.
  unfold mbind, Eff_bind, call. simpl.
  destruct (putFilePart _ _ _ _) as [[eTag|]|e]; try done.
  by destruct (truthy eTag).
Qed.

(** The loop over two lists of URLs, one after the other. *)
Lemma uploadParts_app percentPerPart urls1 urls2 : forall index st w,
  uploadParts isCFUploadProxyDisabled fileLocalID percentPerPart (urls1 ++ urls2) index st w =
    match uploadParts isCFUploadProxyDisabled fileLocalID percentPerPart urls1 index st w with
    | (Ok st1, w1) =>
        uploadParts isCFUploadProxyDisabled fileLocalID percentPerPart urls2
          (index + len urls1) st1 w1
    | (Throw e, w1) => (Throw e, w1)
    end.
Proof.
  induction urls1 as [|u urls1 IH]; intros index st w.
  - simpl. unfold len. simpl. by rewrite Z.add_0_r.
  - rewrite <- app_comm_cons, !uploadParts_cons.
    destruct (userCancelled (calls w)); [done|]. cbv zeta.
    destruct (putFilePart _ _ _ _) as [[eTag|]|e]; try done.
    destruct (truthy eTag); [|done].
    rewrite IH. unfold len. simpl length.
    by replace (index + 1 + Z.of_nat (length urls1))
      with (index + Z.of_nat (S (length urls1))) by lia.
Qed.

(** A loop that ends without throwing has put one part per URL, in the
    order of the URLs, each part being the next five chunks of the stream
    (fewer at its end), and has noted one ETag per part, numbered from
    [index + 1]. *)
Lemma uploadParts_Ok percentPerPart urls : forall index st w st' w',
  uploadParts isCFUploadProxyDisabled fileLocalID percentPerPart urls index st w
    = (Ok st', w') ->
  exists eTags,
    length eTags = length urls /\
    uploadsOf (calls w') =
      uploadsOf (calls w) ++
      zip_with (PutFilePart (negb isCFUploadProxyDisabled)) urls
        (partDatas (length urls) (streamReader st)).1 /\
    streamReader st' = (partDatas (length urls) (streamReader st)).2 /\
    completedParts st' = completedParts st ++ numbered (index + 1) eTags /\
    uploadURLs w' = uploadURLs w /\
    pendingUploadCount w' = pendingUploadCount w /\
    publicAlbumsCredentials w' = publicAlbumsCredentials w.
Proof.
  induction urls as [|u urls IH]; intros index st w st' w' Hrun.
  - injection Hrun as <- <-. exists []. simpl. by rewrite !app_nil_r.
  - rewrite uploadParts_cons in Hrun.
    destruct (userCancelled (calls w)); [done|]. cbv zeta in Hrun.
    destruct (putFilePart _ _ _ _) as [[eTag|]|e]; try done.
    destruct (truthy eTag); [|done].
    apply IH in Hrun as (eTags & Hlen & Hup & Hrd & Hparts & Hu & Hp & Hc).
    exists (eTag :: eTags). simpl in *.
    destruct (nextMultipartUploadPart (streamReader st)) as [d rd]. simpl in *.
    destruct (partDatas (length urls) rd) as [ds rd']. simpl in *.
    rewrite Hup, !uploadsOf_app. simpl. rewrite !app_nil_r, <- !app_assoc. simpl.
    rewrite Hparts, <- app_assoc. simpl. by rewrite Hlen.
Qed.

(** The part boundary: when the flag is up as a turn of the loop begins,
    the turn throws the cancellation, and makes no other call. *)
Lemma uploadParts_cancelled percentPerPart u urls index st w :
  userCancelled (calls w) = true ->
  uploadParts isCFUploadProxyDisabled fileLocalID percentPerPart (u :: urls) index st w
  = (Throw UPLOAD_CANCELLED, logged AbortIfCancelled w).
Proof. intros Hc. by rewrite uploadParts_cons, Hc. Qed.

Lemma refillUploadURLs_uploads (w w' : World) r :
  refillUploadURLs w = (r, w') -> uploadsOf (calls w') = uploadsOf (calls w).
Proof.
  unfold refillUploadURLs.
  destruct (fetchUploadURLs _ _ _); intros [= <- <-]; simpl;
    by rewrite uploadsOf_app, app_nil_r.
Qed.

(** Taking an upload URL from the pool puts nothing on remote. *)
Lemma getUploadURL_uploads (w w' : World) r :
  getUploadURL w = (r, w') -> uploadsOf (calls w') = uploadsOf (calls w).
Proof.
  unfold getUploadURL, mbind, Eff_bind, get, popUploadURL, throw, mret, Eff_ret.
  destruct (_ && _).
  - destruct (refillUploadURLs w) as [[[]|e] w1] eqn:Hrefill.
    + apply refillUploadURLs_uploads in Hrefill. unfold ensureUniqueUploadURLs.
      destruct (negb _); [by intros [= <- <-]|].
      destruct (last _); intros [= <- <-]; done.
    + apply refillUploadURLs_uploads in Hrefill. by intros [= <- <-].
  - destruct (last _); intros [= <- <-]; done.
Qed.

(** A multipart upload that ends without throwing: its calls. *)
Lemma uploadStreamUsingMultipart_Ok (dataStream : EncryptedFileStream)
    (maxPercent : Z) (w w' : World) r :
  uploadStreamUsingMultipart fileLocalID dataStream isCFUploadProxyDisabled maxPercent w
    = (Ok r, w') ->
  exists urls eTags,
    fetchMultipartUploadURLs (calls w)
      (ceil_div (encrypted_chunkCount dataStream) multipartChunksPerPart)
      (publicAlbumsCredentials w) = Ok urls /\
    length eTags = length (partURLs urls) /\
    (partDatas (length (partURLs urls)) (encrypted_stream dataStream)).2 = [] /\
    uploadsOf (calls w') =
      uploadsOf (calls w) ++
      zip_with (PutFilePart (negb isCFUploadProxyDisabled)) (partURLs urls)
        (partDatas (length (partURLs urls)) (encrypted_stream dataStream)).1 ++
      [CompleteMultipartUpload (negb isCFUploadProxyDisabled) (completeURL urls)
         (numbered 1 eTags)].
Proof.
  unfold uploadStreamUsingMultipart, serviceFetchMultipartUploadURLs.
  unfold mbind at 1 2, Eff_bind, get, call. simpl.
  destruct (fetchMultipartUploadURLs _ _ _) as [urls|e]; [|done].
  unfold mbind at 1, Eff_bind.
  destruct (uploadParts _ _ _ _ _ _ _) as [[st|e] w1] eqn:Hparts; [|done].
  apply uploadParts_Ok in Hparts as (eTags & Hlen & Hup & Hrd & Hcp & _). simpl in *.
  destruct (read (streamReader st)) as [[c|] rest] eqn:Hread; [done|].
  unfold mbind, Eff_bind, call. simpl.
  destruct (completeMultipartUpload _ _ _ _); [|done].
  intros [= <- <-]. exists urls, eTags. split; [done|]. split; [done|]. split.
  - rewrite <- Hrd. by destruct (streamReader st).
  - simpl. rewrite uploadsOf_app, Hup, uploadsOf_app. simpl.
    by rewrite Hcp, app_nil_r, <- !app_assoc.
Qed.

End Loop.

Lemma numbered_partNumbers (eTags : list string) : forall from,
  partNumber <$> numbered from eTags = seqZ from (len eTags).
Proof.
  induction eTags as [|e eTags IH]; intros from; [done|].
  unfold len. simpl length. rewrite Nat2Z.inj_succ, seqZ_cons by lia.
  simpl. rewrite IH. unfold len. do 2 f_equal; lia.
Qed.

(** The parts of a stream of [c] chunks, [c] at least one: there are
    [ceil(c / 5)] of them; together they are the stream; each has five
    chunks, but the last, which has the rest. *)
Lemma partsOf_shape (s : ReadableStream) :
  len (partsOf s) = ceil_div (len s) 5 /\
  concat (partsOf s) = s /\
  (forall i p, partsOf s !! i = Some p ->
     len p = if Z.of_nat i + 1 <? ceil_div (len s) 5 then 5
             else len s - 5 * (ceil_div (len s) 5 - 1)).
Proof.
  unfold partsOf. change (Z.to_nat multipartChunksPerPart) with 5%nat.
  split; [|split].
  - by rewrite groupsOf_count by lia.
  - apply groupsOf_concat; lia.
  - intros i p Hp.
    pose proof (groupsOf_count 5 (length s) s ltac:(lia) ltac:(lia)) as Hcount.
    pose proof (lookup_lt_Some _ _ _ Hp) as Hi.
    apply groupsOf_lengths in Hp; [|lia..].
    change (Z.of_nat 5) with 5 in Hcount. rewrite <- Hcount.
    unfold ceil_div, len in *.
    assert (Hdiv := Z.div_mod (Z.of_nat (length s) + 5 - 1) 5 ltac:(lia)).
    assert (Hmod := Z.mod_pos_bound (Z.of_nat (length s) + 5 - 1) 5 ltac:(lia)).
    destruct (Z.ltb_spec (Z.of_nat i + 1) (Z.of_nat (length (groupsOf (length s) 5 s))));
      case_decide; lia.
Qed.

(** C4.  [uploadToBucket], when it returns.  For a stream whose
    [chunkCount] is at least 5 and which has that many chunks, it puts
    [ceil(chunkCount / 5)] parts, one per part URL and in the order of the
    part URLs (so in the order of the part numbers 1, 2, ...); each part is
    the next five chunks of the stream, the last one what is left; then it
    completes the upload with as many (part number, ETag) pairs, numbered
    from 1 upwards.  A stream of fewer than five chunks, and bytes in
    memory, are put with a single [PUT].  (In either case the thumbnail
    follows, with a [PUT] of its own.)  Remote is taken to give as many part
    URLs as it is asked for. *)
Theorem uploadToBucket_puts `{Outside} (encryptedFilePieces : EncryptedFilePieces)
    (isCFUploadProxyDisabled : bool) (w w' : World) (r : BackedUpFile) :
  (forall before n credentials urls,
     fetchMultipartUploadURLs before n credentials = Ok urls -> len (partURLs urls) = n) ->
  uploadToBucket encryptedFilePieces isCFUploadProxyDisabled w = (Ok r, w') ->
  exists thumbnailURL,
    let viaWorker := negb isCFUploadProxyDisabled in
    let thumbnail := thumbnail_encryptedData encryptedFilePieces in
    match file_encryptedData encryptedFilePieces with
    | Streamed s =>
        if 5 <=? encrypted_chunkCount s
        then
          len (encrypted_stream s) = encrypted_chunkCount s ->
          exists urls eTags,
            let n := ceil_div (encrypted_chunkCount s) 5 in
            let parts := partsOf (encrypted_stream s) in
            len parts = n /\
            concat parts = encrypted_stream s /\
            (forall i p, parts !! i = Some p ->
               len p = if Z.of_nat i + 1 <? n then 5
                       else encrypted_chunkCount s - 5 * (n - 1)) /\
            len (partURLs urls) = n /\
            len eTags = n /\
            partNumber <$> numbered 1 eTags = seqZ 1 n /\
            uploadsOf (calls w') =
              uploadsOf (calls w) ++
              zip_with (PutFilePart viaWorker) (partURLs urls) (mergeUint8Arrays <$> parts) ++
              [CompleteMultipartUpload viaWorker (completeURL urls) (numbered 1 eTags);
               PutFile viaWorker thumbnailURL thumbnail]
        else
          exists fileURL,
            uploadsOf (calls w') =
              uploadsOf (calls w) ++
              [PutFile viaWorker fileURL (concat (encrypted_stream s));
               PutFile viaWorker thumbnailURL thumbnail]
    | Bytes data =>
        exists fileURL,
          uploadsOf (calls w') =
            uploadsOf (calls w) ++
            [PutFile viaWorker fileURL data; PutFile viaWorker thumbnailURL thumbnail]
    end.
Proof.
  intros Hremote. unfold uploadToBucket.
  unfold mbind at 1, Eff_bind, get. unfold mbind at 1, Eff_bind.
  intros Hrun.
  assert (exists fileObjectKey fileSize w1 thumbnailURL,
    match file_encryptedData encryptedFilePieces with
    | Streamed s =>
        if encrypted_chunkCount s >=? multipartChunksPerPart
        then uploadStreamUsingMultipart (pieces_localID encryptedFilePieces) s
               isCFUploadProxyDisabled (drawMaxPercent (calls w))
        else putWhole (pieces_localID encryptedFilePieces) isCFUploadProxyDisabled
               (drawMaxPercent (calls w)) (readEntireStream (encrypted_stream s))
    | Bytes data =>
        putWhole (pieces_localID encryptedFilePieces) isCFUploadProxyDisabled
          (drawMaxPercent (calls w)) data
    end w = (Ok (fileObjectKey, fileSize), w1) /\
    uploadsOf (calls w') =
      uploadsOf (calls w1) ++
      [PutFile (negb isCFUploadProxyDisabled) thumbnailURL
         (thumbnail_encryptedData encryptedFilePieces)])
    as (fileObjectKey & fileSize & w1 & thumbnailURL & Hfile & Hthumb).
  { destruct (match file_encryptedData encryptedFilePieces with
              | Bytes data => putWhole _ _ _ data
              | Streamed s => if _ >=? _ then uploadStreamUsingMultipart _ s _ _
                              else putWhole _ _ _ _
              end w) as [[[fileObjectKey fileSize]|e] w1]; [|done].
    unfold mbind at 1, Eff_bind in Hrun.
    destruct (getUploadURL w1) as [[thumbnailUploadURL|e] w2] eqn:Hurl; [|done].
    apply getUploadURL_uploads in Hurl.
    unfold mbind, Eff_bind, call, mret, Eff_ret in Hrun. simpl in Hrun.
    destruct (putFile _ _ _ _); [|done]. injection Hrun as <- <-.
    exists fileObjectKey, fileSize, w1, (url thumbnailUploadURL). split; [done|].
    simpl. by rewrite uploadsOf_app, Hurl. }
  clear Hrun. exists thumbnailURL. cbv zeta. rewrite Hthumb. clear Hthumb.
  assert (Hsingle : forall data,
    putWhole (pieces_localID encryptedFilePieces) isCFUploadProxyDisabled
      (drawMaxPercent (calls w)) data w = (Ok (fileObjectKey, fileSize), w1) ->
    exists fileURL,
      uploadsOf (calls w1) = uploadsOf (calls w) ++
        [PutFile (negb isCFUploadProxyDisabled) fileURL data]).
  { intros data. unfold putWhole. cbv zeta. unfold mbind at 1, Eff_bind.
    destruct (getUploadURL w) as [[fileUploadURL|e] w0] eqn:Hurl0; [|done].
    apply getUploadURL_uploads in Hurl0.
    unfold mbind, Eff_bind, call, updateUploadProgress, call, mret, Eff_ret. simpl.
    destruct (putFile _ _ _ _); [|done]. intros [= _ _ <-].
    exists (url fileUploadURL). simpl.
    rewrite !uploadsOf_app, Hurl0. simpl. by rewrite app_nil_r. }
  destruct (file_encryptedData encryptedFilePieces) as [data|s].
  - apply Hsingle in Hfile as [fileURL ->]. exists fileURL. by rewrite <- app_assoc.
  - change multipartChunksPerPart with 5 in Hfile.
    rewrite Z.geb_leb in Hfile.
    destruct (5 <=? encrypted_chunkCount s) eqn:Hfive.
    + intros Hlen.
      apply uploadStreamUsingMultipart_Ok in Hfile
        as (urls & eTags & Hfetch & HeTags & _ & Hup).
      apply Hremote in Hfetch. change multipartChunksPerPart with 5 in Hfetch.
      destruct (partsOf_shape (encrypted_stream s)) as (Hcount & Hcat & Hlens).
      rewrite Hlen in Hcount, Hlens.
      assert (Hn : length (partURLs urls) = length (partsOf (encrypted_stream s))).
      { unfold len in Hfetch, Hcount. lia. }
      exists urls, eTags.
      split; [done|]. split; [done|]. split; [done|]. split; [done|].
      assert (HlenE : len eTags = ceil_div (encrypted_chunkCount s) 5).
      { unfold len in *. lia. }
      split; [done|]. split; [by rewrite numbered_partNumbers, HlenE|].
      rewrite Hup, Hn. unfold partsOf at 1.
      change (Z.to_nat multipartChunksPerPart) with 5%nat.
      rewrite partDatas_groups by lia. simpl.
      by rewrite <- !app_assoc.
    + apply Hsingle in Hfile as [fileURL ->]. exists fileURL. by rewrite <- app_assoc.
Qed.

Lemma obligingOutside_urls flag before n credentials urls :
  fetchMultipartUploadURLs (Outside := obligingOutside flag) before n credentials = Ok urls ->
  len (partURLs urls) = n.
Proof.
  simpl. destruct (Z.ltb_spec n 0); [done|]. intros [= <-]. simpl.
  unfold len. rewrite length_fmap, length_seq. lia.
Qed.

(** The upload of the twelve chunks, to an outside where all goes well. *)
Definition twelveChunksRun : result BackedUpFile * World :=
  uploadToBucket (H := obligingOutside neverCancelled) twelveChunks false freshWorld.

Lemma uploadToBucket_puts_witness :
  exists thumbnailURL,
    len ((fun i : nat => [Byte.x61]) <$> seq 1 12) = 12 ->
    exists urls eTags,
      len (partsOf ((fun i : nat => [Byte.x61]) <$> seq 1 12)) = ceil_div 12 5 /\
      concat (partsOf ((fun i : nat => [Byte.x61]) <$> seq 1 12))
        = (fun i : nat => [Byte.x61]) <$> seq 1 12 /\
      (forall i p,
         partsOf ((fun i : nat => [Byte.x61]) <$> seq 1 12) !! i = Some p ->
         len p = if Z.of_nat i + 1 <? ceil_div 12 5 then 5
                 else 12 - 5 * (ceil_div 12 5 - 1)) /\
      len (partURLs urls) = ceil_div 12 5 /\
      len eTags = ceil_div 12 5 /\
      partNumber <$> numbered 1 eTags = seqZ 1 (ceil_div 12 5) /\
      uploadsOf (calls twelveChunksRun.2) =
        uploadsOf (calls freshWorld) ++
        zip_with (PutFilePart true) (partURLs urls)
          (mergeUint8Arrays <$> partsOf ((fun i : nat => [Byte.x61]) <$> seq 1 12)) ++
        [CompleteMultipartUpload true (completeURL urls) (numbered 1 eTags);
         PutFile true thumbnailURL [Byte.x74]].
Proof.
  eapply (uploadToBucket_puts (H := obligingOutside neverCancelled) twelveChunks false
            freshWorld twelveChunksRun.2);
    [apply obligingOutside_urls | vm_compute; reflexivity].
Defined.

(** Twelve chunks: parts of 5, 5 and 2 chunks, put in the order 1, 2, 3,
    then the completion with the three pairs in that order, then the
    thumbnail. *)
Example twelve_chunks_evaluated :
  let a := Byte.x61 in
  uploadsOf (calls twelveChunksRun.2) =
    [ PutFilePart true "part1" [a; a; a; a; a];
      PutFilePart true "part2" [a; a; a; a; a];
      PutFilePart true "part3" [a; a];
      CompleteMultipartUpload true "complete"
        [ {| partNumber := 1; eTag := "etag-part1" |};
          {| partNumber := 2; eTag := "etag-part2" |};
          {| partNumber := 3; eTag := "etag-part3" |} ];
      PutFile true "url2" [Byte.x74] ] /\
  (length <$> partsOf ((fun i : nat => [a]) <$> seq 1 12)) = [5; 5; 2]%nat.
Proof. vm_compute. split; reflexivity. Qed.

(** Four chunks go in a single [PUT], before that of the thumbnail. *)
Example four_chunks_evaluated :
  let a := Byte.x61 in
  uploadsOf (calls
    (uploadToBucket (H := obligingOutside neverCancelled)
       {| file_encryptedData := Streamed {|
            encrypted_stream := [[a]; [a]; [a]; [a]]; encrypted_chunkCount := 4 |};
          file_decryptionHeader := "fh";
          thumbnail_encryptedData := [Byte.x74];
          thumbnail_decryptionHeader := "th";
          pieces_metadata := ("m", "mh")%string;
          pieces_pubMagicMetadata := None;
          pieces_localID := 1 |} false freshWorld).2)
  = [ PutFile true "url2" [a; a; a; a]; PutFile true "url1" [Byte.x74] ].
Proof. vm_compute. reflexivity. Qed.

(** *** Cancellation *)

Section Cancellation.
Context `{Outside}.

(** The retrier stops at a cancellation: whatever waits are left, the
    error is thrown as it is, and no wait is spent. *)
Lemma retryAsyncOperation_cancelled {A} (op : Eff World A) (waits : list Z)
    (w w' : World) :
  op w = (Throw UPLOAD_CANCELLED, w') ->
  retryAsyncOperation op
    (fun e => if bool_decide (e = UPLOAD_CANCELLED) then Throw e else Ok tt) waits w
  = (Throw UPLOAD_CANCELLED, w').
Proof. intros Hop. destruct waits; simpl; by rewrite Hop. Qed.

(** Another failure spends a wait, and the operation is tried again. *)
Lemma retryAsyncOperation_retries {A} (op : Eff World A) (t : Z) (waits : list Z)
    (w w' : World) (e : Error) :
  op w = (Throw e, w') -> e <> UPLOAD_CANCELLED ->
  retryAsyncOperation op
    (fun e => if bool_decide (e = UPLOAD_CANCELLED) then Throw e else Ok tt)
    (t :: waits) w
  = retryAsyncOperation op
      (fun e => if bool_decide (e = UPLOAD_CANCELLED) then Throw e else Ok tt)
      waits (logged (Wait t) w').
Proof. intros Hop He. simpl. rewrite Hop. by rewrite bool_decide_eq_false_2. Qed.

(** What the [catch] block of [upload] returns. *)
Lemma upload_catch_results `{Stages} (e : Error) (response : UploadResponse) :
  upload_catch e = Ok response ->
  uploadResult response = blocked \/
  uploadResult response = largerThanAvailableStorage \/
  uploadResult response = failed.
Proof.
  unfold upload_catch. intros Hr. apply bind_Ok in Hr as (error & _ & [= <-]).
  destruct error; simpl; auto.
Qed.

(** What is thrown in the [try] block of [upload] reaches the [catch]
    block, but for the error of a file type that is not supported. *)
Lemma upload_details_throws `{Electron} `{Imports} `{Stages}
    (item : UploadableUploadItem) (uploaderName : string)
    (existingFiles : list EnteFile) (map : gmap string ParsedMetadataJSON)
    (worker : CryptoWorker) (isCFUploadProxyDisabled : bool) (w w' : World)
    (details : ReadAssetDetailsResult) (e : Error) :
  readAssetDetails (uploadAsset item) = Ok details ->
  upload_details item uploaderName existingFiles map worker isCFUploadProxyDisabled
    details (logged (Other "readAssetDetails") w) = (Throw e, w') ->
  upload item uploaderName existingFiles map worker isCFUploadProxyDisabled w
    = (upload_catch e, w').
Proof.
  intros Hd Hrun. unfold upload, upload_try, stage, call. by rewrite Hd, Hrun.
Qed.

(** [upload] never returns [cancelled]. *)
Lemma upload_never_cancelled `{Electron} `{Imports} `{Stages}
    (item : UploadableUploadItem) (uploaderName : string)
    (existingFiles : list EnteFile) (map : gmap string ParsedMetadataJSON)
    (worker : CryptoWorker) (isCFUploadProxyDisabled : bool) (w w' : World)
    (response : UploadResponse) :
  upload item uploaderName existingFiles map worker isCFUploadProxyDisabled w
    = (Ok response, w') ->
  uploadResult response <> cancelled.
Proof.
  unfold upload.
  destruct (upload_try _ _ _ _ _ _ w) as [[resp|e] w0] eqn:Htry.
  2:{ intros [= Hc <-]. apply upload_catch_results in Hc.
      intros Hr. rewrite Hr in Hc. by destruct Hc as [|[|]]. }
  intros [= -> ->]. revert Htry. unfold upload_try, stage, call.
  destruct (readAssetDetails (uploadAsset item)) as [details|e].
  2:{ destruct (isFileTypeNotSupportedError e); [|done]. by intros [= <- _]. }
  unfold upload_details.
  destruct (details_fileSize details >=? _); [by intros [= <- _]|].
  unfold mbind at 1, Eff_bind. rewrite abortIfCancelled_run.
  destruct (userCancelled _); [done|].
  unfold mbind at 1, Eff_bind, stage, call.
  destruct (extractAssetMetadata _ _ _ _ _ _) as [extracted|e]; [|done].
  cbn [calls].
  destruct (filter _ existingFiles) as [|anyMatch others].
  2:{ destruct (find _ _); [by intros [= <- _]|].
      unfold mbind, Eff_bind, mret, Eff_ret.
      destruct (addToCollection _ _); [|done]. by intros [= <- _]. }
  unfold mbind at 1, Eff_bind. rewrite abortIfCancelled_run.
  destruct (userCancelled _); [done|].
  unfold mbind at 1, Eff_bind.
  destruct (readAsset _ _) as [thumbnailed|e]; [|done].
  unfold mbind at 1, Eff_bind.
  destruct (constructPublicMagicMetadata _) as [pubMM|e]; [|done].
  unfold mbind at 1, Eff_bind. rewrite abortIfCancelled_run.
  destruct (userCancelled _); [done|].
  unfold mbind at 1, Eff_bind.
  destruct (encryptFile _ _ _) as [[pieces key]|e]; [|done].
  unfold mbind at 1, Eff_bind. rewrite abortIfCancelled_run.
  destruct (userCancelled _); [done|].
  unfold mbind at 1, Eff_bind.
  destruct (uploadToBucket pieces isCFUploadProxyDisabled _) as [[backedUp|e] w2]; [|done].
  unfold mbind at 1, Eff_bind. rewrite abortIfCancelled_run.
  destruct (userCancelled _); [done|].
  unfold mbind at 1, Eff_bind, get.
  unfold mbind, Eff_bind, mret, Eff_ret.
  destruct (postFile _ _) as [posted|e]; [|done].
  intros [= <- _]. cbn [uploadResult]. by destruct (truthy _).
Qed.

(** What a multipart upload throws, [uploadToBucket] throws. *)
Lemma uploadToBucket_throws (pieces : EncryptedFilePieces)
    (dataStream : EncryptedFileStream) (isCFUploadProxyDisabled : bool)
    (w w' : World) (e : Error) :
  file_encryptedData pieces = Streamed dataStream ->
  multipartChunksPerPart <= encrypted_chunkCount dataStream ->
  uploadStreamUsingMultipart (pieces_localID pieces) dataStream isCFUploadProxyDisabled
    (drawMaxPercent (calls w)) w = (Throw e, w') ->
  uploadToBucket pieces isCFUploadProxyDisabled w = (Throw e, w').
Proof.
  intros Hdata Hcount Hrun. unfold uploadToBucket.
  unfold mbind at 1, Eff_bind, get. rewrite Hdata.
  destruct (Z.geb_spec (encrypted_chunkCount dataStream) multipartChunksPerPart); [|lia].
  unfold mbind at 1, Eff_bind. by rewrite Hrun.
Qed.

(** The worlds of [upload] at its four checks of the cancellation flag
    before [uploadToBucket], when all the stages until then succeed. *)
Definition checkpoints (w : World) : list World :=
  let w1 := logged (Other "readAssetDetails") w in
  let w2 := logged (Other "extractAssetMetadata") (logged AbortIfCancelled w1) in
  let w3 := logged (Other "constructPublicMagicMetadata")
              (logged (Other "readAsset") (logged AbortIfCancelled w2)) in
  let w4 := logged (Other "encryptFile") (logged AbortIfCancelled w3) in
  [w1; w2; w3; w4].

(** The world in which [upload] calls [uploadToBucket]. *)
Definition atBucket (w : World) : World :=
  logged AbortIfCancelled
    (logged (Other "encryptFile")
       (logged AbortIfCancelled
          (logged (Other "constructPublicMagicMetadata")
             (logged (Other "readAsset")
                (logged AbortIfCancelled
                   (logged (Other "extractAssetMetadata")
                      (logged AbortIfCancelled
                         (logged (Other "readAssetDetails") w)))))))).

(** What [uploadToBucket] throws, for an asset that is new and whose
    stages succeed while the user has not cancelled, reaches the [catch]
    block of [upload]. *)
Lemma upload_bucket_throws `{Electron} `{Imports} `{Stages}
    (item : UploadableUploadItem) (uploaderName : string)
    (existingFiles : list EnteFile) (map : gmap string ParsedMetadataJSON)
    (worker : CryptoWorker) (isCFUploadProxyDisabled : bool) (w w' : World)
    (details : ReadAssetDetailsResult) (extracted : ExtractAssetMetadataResult)
    (thumbnailed : ThumbnailedFile) (pubMM : option MagicMetadata)
    (pieces : EncryptedFilePieces) (encryptedFileKey : string * string) (e : Error) :
  readAssetDetails (uploadAsset item) = Ok details ->
  details_fileSize details < 10 * 1024 * 1024 * 1024 ->
  extractAssetMetadata (uploadAsset item) (fileTypeInfo details)
    (details_lastModifiedMs details) (collection_id (collection item)) map worker
    = Ok extracted ->
  filter (fun file =>
            truthy (areFilesSame (EnteFile_metadata file) (metadata extracted)) = true)
    existingFiles = [] ->
  readAsset (fileTypeInfo details) (uploadAsset item) = Ok thumbnailed ->
  constructPublicMagicMetadata
    (<["uploaderName"%string := VString uploaderName]> (publicMagicMetadata extracted))
    = Ok pubMM ->
  encryptFile
    {| fwm_localID := item_localID item;
       fwm_fileStreamOrData := fileStreamOrData thumbnailed;
       fwm_thumbnail := thumbnail thumbnailed;
       fwm_metadata :=
         if thumbnailed_hasStaticThumbnail thumbnailed
         then withStaticThumbnail (metadata extracted) else metadata extracted;
       fwm_pubMagicMetadata := pubMM |}
    (collection_key (collection item)) worker = Ok (pieces, encryptedFileKey) ->
  Forall (fun w => userCancelled (calls w) = false) (checkpoints w) ->
  uploadToBucket pieces isCFUploadProxyDisabled (atBucket w) = (Throw e, w') ->
  upload item uploaderName existingFiles map worker isCFUploadProxyDisabled w
    = (upload_catch e, w').
Proof.
  intros Hd Hsize Hex Hnew Hread Hpub Henc Hflags Hbucket.
  apply Forall_cons in Hflags as [Hf1 Hflags].
  apply Forall_cons in Hflags as [Hf2 Hflags].
  apply Forall_cons in Hflags as [Hf3 Hflags].
  apply Forall_cons in Hflags as [Hf4 _].
  apply (upload_details_throws _ _ _ _ _ _ _ _ details); [done|].
  unfold upload_details.
  destruct (Z.geb_spec (details_fileSize details) (10 * 1024 * 1024 * 1024)); [lia|].
  unfold mbind at 1, Eff_bind. rewrite abortIfCancelled_run, Hf1.
  unfold mbind at 1, Eff_bind, stage, call. rewrite Hex. cbn [calls]. rewrite Hnew.
  unfold mbind at 1, Eff_bind. rewrite abortIfCancelled_run, Hf2.
  unfold mbind at 1, Eff_bind. rewrite Hread.
  unfold mbind at 1, Eff_bind. rewrite Hpub.
  unfold mbind at 1, Eff_bind. rewrite abortIfCancelled_run, Hf3.
  unfold mbind at 1, Eff_bind. rewrite Henc.
  unfold mbind at 1, Eff_bind. rewrite abortIfCancelled_run, Hf4.
  unfold mbind at 1, Eff_bind. fold (atBucket w). by rewrite Hbucket.
Qed.

(** C9, amended.  If the cancellation flag is up when the loop of a
    multipart upload comes to the boundary after the parts it has put, the
    check there throws the cancellation signal: the upload of the stream
    ends with it, having put these parts and no other, and without a call
    to complete the upload; [uploadToBucket] throws the signal too.  The
    retrier, when the flag is up as an attempt begins, throws the signal as
    it is, makes no request and spends none of the waits it has left.  When
    the multipart upload is that of the file of an asset in [upload] (an
    asset that is new, whose stages until then succeeded and at whose
    earlier checks the flag was down), the signal reaches the [catch] block,
    and the outcome of [upload] is that of [handleUploadError] for the
    signal: the error this throws, or a result that is [blocked],
    [largerThanAvailableStorage] or [failed].  No call of [upload] returns
    [cancelled]. *)
Theorem cancellation_between_parts `{Electron} `{Imports} `{Stages} (fileLocalID : Z)
    (dataStream : EncryptedFileStream) (isCFUploadProxyDisabled : bool)
    (maxPercent : Z) (w w1 : World) (urls : MultipartUploadURLs)
    (done rest : list string) (u : string) (st1 : PartsState) :
  let n := ceil_div (encrypted_chunkCount dataStream) multipartChunksPerPart in
  fetchMultipartUploadURLs (calls w) n (publicAlbumsCredentials w) = Ok urls ->
  partURLs urls = done ++ u :: rest ->
  uploadParts isCFUploadProxyDisabled fileLocalID (inject_Z maxPercent / inject_Z n)
    done 0
    {| streamReader := encrypted_stream dataStream; parts_fileSize := 0;
       completedParts := [] |}
    (logged (FetchMultipartUploadURLs n (publicAlbumsCredentials w)) w) = (Ok st1, w1) ->
  userCancelled (calls w1) = true ->
  uploadStreamUsingMultipart fileLocalID dataStream isCFUploadProxyDisabled maxPercent w
    = (Throw UPLOAD_CANCELLED, logged AbortIfCancelled w1) /\
  uploadsOf (calls (logged AbortIfCancelled w1)) =
    uploadsOf (calls w) ++
    zip_with (PutFilePart (negb isCFUploadProxyDisabled)) done
      (partDatas (length done) (encrypted_stream dataStream)).1 /\
  (forall request waits w,
     userCancelled (calls w) = true ->
     createAbortableRetryEnsuringHTTPOk abortIfCancelled request waits w
     = (Throw UPLOAD_CANCELLED, logged AbortIfCancelled w)) /\
  (forall response,
     upload_catch UPLOAD_CANCELLED = Ok response ->
     uploadResult response = blocked \/
     uploadResult response = largerThanAvailableStorage \/
     uploadResult response = failed) /\
  (forall pieces,
     file_encryptedData pieces = Streamed dataStream ->
     pieces_localID pieces = fileLocalID ->
     multipartChunksPerPart <= encrypted_chunkCount dataStream ->
     drawMaxPercent (calls w) = maxPercent ->
     uploadToBucket pieces isCFUploadProxyDisabled w
       = (Throw UPLOAD_CANCELLED, logged AbortIfCancelled w1) /\
     forall item uploaderName existingFiles map worker w0 details extracted thumbnailed
            pubMM encryptedFileKey,
       readAssetDetails (uploadAsset item) = Ok details ->
       details_fileSize details < 10 * 1024 * 1024 * 1024 ->
       extractAssetMetadata (uploadAsset item) (fileTypeInfo details)
         (details_lastModifiedMs details) (collection_id (collection item)) map worker
         = Ok extracted ->
       filter (fun file =>
                 truthy (areFilesSame (EnteFile_metadata file) (metadata extracted)) = true)
         existingFiles = [] ->
       readAsset (fileTypeInfo details) (uploadAsset item) = Ok thumbnailed ->
       constructPublicMagicMetadata
         (<["uploaderName"%string := VString uploaderName]>
            (publicMagicMetadata extracted)) = Ok pubMM ->
       encryptFile
         {| fwm_localID := item_localID item;
            fwm_fileStreamOrData := fileStreamOrData thumbnailed;
            fwm_thumbnail := thumbnail thumbnailed;
            fwm_metadata :=
              if thumbnailed_hasStaticThumbnail thumbnailed
              then withStaticThumbnail (metadata extracted) else metadata extracted;
            fwm_pubMagicMetadata := pubMM |}
         (collection_key (collection item)) worker = Ok (pieces, encryptedFileKey) ->
       Forall (fun w => userCancelled (calls w) = false) (checkpoints w0) ->
       atBucket w0 = w ->
       upload item uploaderName existingFiles map worker isCFUploadProxyDisabled w0
         = (upload_catch UPLOAD_CANCELLED, logged AbortIfCancelled w1)) /\
  (forall item uploaderName existingFiles map worker flag w0 w' response,
     upload item uploaderName existingFiles map worker flag w0 = (Ok response, w') ->
     uploadResult response <> cancelled).
Proof.
  intros n Hfetch Hurls Hdone Hflag.
  assert (Hthrown :
    uploadStreamUsingMultipart fileLocalID dataStream isCFUploadProxyDisabled maxPercent w
    = (Throw UPLOAD_CANCELLED, logged AbortIfCancelled w1)).
  { unfold uploadStreamUsingMultipart, serviceFetchMultipartUploadURLs.
    unfold mbind at 1 2, Eff_bind, get, call. simpl. fold n. rewrite Hfetch.
    unfold mbind at 1, Eff_bind. rewrite Hurls, uploadParts_app, Hdone.
    by rewrite uploadParts_cancelled. }
  repeat apply conj.
  - exact Hthrown.
  - apply uploadParts_Ok in Hdone as (_ & _ & Hup & _). simpl in *.
    rewrite !uploadsOf_app in *. simpl in *. by rewrite !app_nil_r in *.
  - intros request waits w0 Hw0. unfold createAbortableRetryEnsuringHTTPOk.
    apply retryAsyncOperation_cancelled.
    unfold mbind at 1, Eff_bind. by rewrite abortIfCancelled_run, Hw0.
  - apply upload_catch_results.
  - intros pieces Hdata Hid Hcount Hdraw.
    assert (Hbucket : uploadToBucket pieces isCFUploadProxyDisabled w
                      = (Throw UPLOAD_CANCELLED, logged AbortIfCancelled w1)).
    { apply (uploadToBucket_throws _ dataStream); [done..|]. by rewrite Hid, Hdraw. }
    split; [exact Hbucket|].
    intros item uploaderName existingFiles map worker w0 details extracted thumbnailed
      pubMM encryptedFileKey Hd Hsize Hex Hnew Hread Hpub Henc Hflags Hw.
    apply (upload_bucket_throws _ _ _ _ _ _ _ _ details extracted thumbnailed pubMM
             pieces encryptedFileKey); try done.
    by rewrite Hw.
  - intros item uploaderName existingFiles map worker flag w0 w' response.
    apply upload_never_cancelled.
Qed.

End Cancellation.

(** The first turn of the loop for the twelve chunks of [anItem], when
    the user cancels while the first part is being put. *)
Definition firstPartRun : result PartsState * World :=
  uploadParts (H := obligingOutside cancelledDuringFirstPart) false 1
    (inject_Z 97 / inject_Z 3) ["part1"%string] 0
    {| streamReader := (fun i : nat => [Byte.x61]) <$> seq 1 12;
       parts_fileSize := 0; completedParts := [] |}
    (logged (FetchMultipartUploadURLs 3 None) (atBucket freshWorld)).

Lemma cancellation_between_parts_witness :
  uploadStreamUsingMultipart (H := obligingOutside cancelledDuringFirstPart) 1
    {| encrypted_stream := (fun i : nat => [Byte.x61]) <$> seq 1 12;
       encrypted_chunkCount := 12 |} false 97 (atBucket freshWorld)
    = (Throw UPLOAD_CANCELLED, logged AbortIfCancelled firstPartRun.2) /\
  uploadsOf (calls (logged AbortIfCancelled firstPartRun.2)) =
    uploadsOf (calls (atBucket freshWorld)) ++
    zip_with (PutFilePart true) ["part1"%string]
      (partDatas 1 ((fun i : nat => [Byte.x61]) <$> seq 1 12)).1 /\
  uploadToBucket (H := obligingOutside cancelledDuringFirstPart) twelveChunks false
    (atBucket freshWorld)
    = (Throw UPLOAD_CANCELLED, logged AbortIfCancelled firstPartRun.2) /\
  upload (H := noElectron) (H0 := plainImports)
    (H1 := obligingOutside cancelledDuringFirstPart) (H2 := twelveChunkStages Ok)
    anItem "" [] ∅ echoWorker false freshWorld
    = (upload_catch (H := twelveChunkStages Ok) UPLOAD_CANCELLED,
       logged AbortIfCancelled firstPartRun.2).
Proof.
  destruct (cancellation_between_parts
              (H := obligingOutside cancelledDuringFirstPart)
              (H0 := noElectron) (H1 := plainImports)
              (H2 := twelveChunkStages Ok) 1
              {| encrypted_stream := (fun i : nat => [Byte.x61]) <$> seq 1 12;
                 encrypted_chunkCount := 12 |} false 97 (atBucket freshWorld)
              firstPartRun.2
              {| multipart_objectKey := "big";
                 partURLs := ["part1"; "part2"; "part3"]%string;
                 completeURL := "complete" |}
              ["part1"%string] ["part3"%string] "part2"%string
              {| streamReader := (fun i : nat => [Byte.x61]) <$> seq 6 7;
                 parts_fileSize := 5;
                 completedParts := [ {| partNumber := 1; eTag := "etag-part1" |} ] |})
    as (Hthrown & Hputs & _ & _ & Hupload & _); [vm_compute; reflexivity..|].
  destruct (Hupload twelveChunks) as [Hbucket Hcatch];
    [reflexivity | reflexivity | vm_compute; discriminate | reflexivity |].
  split; [exact Hthrown|]. split; [exact Hputs|]. split; [exact Hbucket|].
  refine (Hcatch anItem ""%string [] ∅ echoWorker freshWorld
            {| fileTypeInfo := {| FileTypeInfo_fileType := image;
                                  extension := Some "jpg"%string;
                                  imageType := None; videoType := None |};
               details_fileSize := 3; details_lastModifiedMs := 1700000000000 |}
            _ {| fileStreamOrData := inr []; thumbnail := [Byte.x74];
                 thumbnailed_hasStaticThumbnail := false |}
            None ("ek", "nonce")%string _ _ _ _ _ _ _ _ _).
  - reflexivity.
  - vm_compute. reflexivity.
  - vm_compute. reflexivity.
  - reflexivity.
  - reflexivity.
  - reflexivity.
  - reflexivity.
  - repeat constructor.
  - reflexivity.
Defined.

(** The claim as the spec states it fails: the user cancels while the
    first of three parts is put.  The part boundary throws the signal, one
    part has been put and the upload was not completed; but the asset does
    not get a [cancelled] result: with a [handleUploadError] that gives the
    error back it is [failed], with one that throws it [upload] throws, and
    with none is it [cancelled]. *)
Lemma cancelled_is_not_a_result :
  (uploadToBucket (H := obligingOutside cancelledDuringFirstPart)
     twelveChunks false freshWorld).1 = Throw UPLOAD_CANCELLED /\
  uploadsOf (calls (uploadToBucket (H := obligingOutside cancelledDuringFirstPart)
                      twelveChunks false freshWorld).2)
    = [ PutFilePart true "part1"
          [Byte.x61; Byte.x61; Byte.x61; Byte.x61; Byte.x61] ] /\
  (upload (H := noElectron) (H0 := plainImports)
     (H1 := obligingOutside cancelledDuringFirstPart) (H2 := twelveChunkStages Ok)
     anItem "" [] ∅ echoWorker false freshWorld).1
    = Ok {| uploadResult := failed; uploadedFile := None |} /\
  (upload (H := noElectron) (H0 := plainImports)
     (H1 := obligingOutside cancelledDuringFirstPart) (H2 := twelveChunkStages Throw)
     anItem "" [] ∅ echoWorker false freshWorld).1
    = Throw UPLOAD_CANCELLED /\
  ~ (exists h response,
       (upload (H := noElectron) (H0 := plainImports)
          (H1 := obligingOutside cancelledDuringFirstPart) (H2 := twelveChunkStages h)
          anItem "" [] ∅ echoWorker false freshWorld).1 = Ok response /\
       uploadResult response = cancelled).
Proof.
  split; [vm_compute; reflexivity|]. split; [vm_compute; reflexivity|].
  split; [vm_compute; reflexivity|]. split; [vm_compute; reflexivity|].
  intros (h & response & Hrun & Hres). vm_compute in Hrun.
  destruct (h UPLOAD_CANCELLED) as [[]|]; try discriminate;
    injection Hrun as <-; discriminate.
Qed.

(** When the user does not cancel, the same upload ends as [uploaded]. *)
Example upload_evaluated :
  (uploadResult <$>
     (upload (H := noElectron) (H0 := plainImports)
        (H1 := obligingOutside neverCancelled) (H2 := twelveChunkStages Ok)
        anItem "" [] ∅ echoWorker false freshWorld).1) = Ok uploaded.
Proof. vm_compute. reflexivity. Qed.

End UploadTransportFacts.

(** ** The stream of an item, its hash and its encryption *)

Module ChunkedStreamFacts.

Import ChunkedReaderFacts UploadTransportFacts ChunkCountFacts.

(** The bytes [bs], cut every [n] bytes. *)
Definition cut (N : Z) (bs : Uint8Array) : list Uint8Array :=
  groupsOf (length bs) (Z.to_nat N) bs.

Lemma groupsOf_nil {A} (fuel n : nat) : groupsOf fuel n (@nil A) = [].
Proof. by destruct fuel. Qed.

(** More fuel than there are elements changes nothing. *)
Lemma groupsOf_fuel {A} (n : nat) : forall fuel fuel' (s : list A),
  (0 < n)%nat -> (length s <= fuel)%nat -> (length s <= fuel')%nat ->
  groupsOf fuel n s = groupsOf fuel' n s.
Proof.
  induction fuel as [|fuel IH]; intros fuel' s Hn Hf Hf'.
  - destruct s; [|simpl in Hf; lia]. by rewrite !groupsOf_nil.
  - destruct s as [|x s]; [by rewrite !groupsOf_nil|].
    destruct fuel' as [|fuel']; [simpl in Hf'; lia|].
    change (groupsOf (S fuel) n (x :: s))
      with (take n (x :: s) :: groupsOf fuel n (drop n (x :: s))).
    change (groupsOf (S fuel') n (x :: s))
      with (take n (x :: s) :: groupsOf fuel' n (drop n (x :: s))).
    f_equal. apply IH; [done|rewrite length_drop; simpl in *; lia..].
Qed.

(** Chunks of [N] bytes followed by at most one shorter one, which is
    not empty, are their bytes cut every [N] bytes. *)
Lemma cut_concat (N : Z) (full last : list Uint8Array) :
  0 < N ->
  Forall (fun c => len c = N) full ->
  (last = [] \/ exists p, last = [p] /\ 0 < len p < N) ->
  cut N (concat (full ++ last)) = full ++ last.
Proof.
  intros HN Hfull Hlast. unfold cut.
  induction Hfull as [|c full Hc _ IH].
  - destruct Hlast as [->|(p & -> & Hp)]; [done|].
    simpl. rewrite app_nil_r. unfold len in Hp.
    destruct p as [|b p]; [simpl in Hp; lia|].
    change (groupsOf (length (b :: p)) (Z.to_nat N) (b :: p))
      with (take (Z.to_nat N) (b :: p)
              :: groupsOf (length p) (Z.to_nat N) (drop (Z.to_nat N) (b :: p))).
    rewrite take_ge, drop_ge by lia. by rewrite groupsOf_nil.
  - simpl. unfold len in Hc.
    destruct c as [|b c]; [simpl in Hc; lia|].
    set (rest := concat (full ++ last)) in *.
    change (groupsOf (length ((b :: c) ++ rest)) (Z.to_nat N) ((b :: c) ++ rest))
      with (take (Z.to_nat N) ((b :: c) ++ rest)
              :: groupsOf (length (c ++ rest)) (Z.to_nat N)
                   (drop (Z.to_nat N) ((b :: c) ++ rest))).
    rewrite take_app_length', drop_app_length' by lia.
    f_equal. rewrite <- IH. apply groupsOf_fuel; [lia | rewrite length_app; lia | lia].
Qed.

(** The transformer gives the bytes that went in, cut every [N] bytes. *)
Lemma pipeThrough_cut (N : Z) (us : ReadableStream) :
  0 < N -> pipeThrough N us = cut N (concat us).
Proof.
  intros HN.
  destruct (pipeThrough_shape N HN us) as (full & last & -> & Hfull & Hlast & <-).
  symmetry. by apply cut_concat.
Qed.

(** Ten bytes cut every four bytes. *)
Example cut_ten_by_four :
  let b := Byte.x00 in
  cut 4 [b; b; b; b; b; b; b; b; b; b] = [[b; b; b; b]; [b; b; b; b]; [b; b]].
Proof. reflexivity. Qed.

(** A second file with the bytes of [threeBytes], read in another way. *)
Definition threeBytesOtherwise : File := {|
  File_name := "b.jpg";
  File_size := 3;
  File_lastModified := 1700000000001;
  File_stream := [[Byte.x01]; []; [Byte.x02; Byte.x03]];
|}.

(** X1.  The stream that [readUploadItem] returns is the bytes of the
    source cut every 4194304 bytes: it depends on the bytes alone, and not
    on the reads in which the browser or the desktop app delivers them.  So
    two items with the same bytes and the same size get the same stream
    and the same [chunkCount]. *)
Theorem readUploadItem_bytes_only `{Electron} (uploadItem uploadItem' : UploadItem)
    (us us' : ReadableStream) (f f' : option File) (S lm lm' : Z) :
  underlying uploadItem = Ok (us, f, S, lm) ->
  underlying uploadItem' = Ok (us', f', S, lm') ->
  concat us = concat us' ->
  exists fs fs',
    readUploadItem uploadItem = Ok fs /\
    readUploadItem uploadItem' = Ok fs' /\
    stream fs = cut streamEncryptionChunkSize (concat us) /\
    stream fs' = stream fs /\
    chunkCount fs' = chunkCount fs.
Proof.
  intros Hu Hu' Hcat. unfold readUploadItem. rewrite Hu, Hu'.
  eexists _, _. split; [reflexivity|]. split; [reflexivity|].
  cbn [stream chunkCount].
  rewrite !pipeThrough_cut by apply streamEncryptionChunkSize_pos.
  by rewrite Hcat.
Qed.

Lemma readUploadItem_bytes_only_witness :
  exists fs fs',
    readUploadItem (H := noElectron) (ItemFile threeBytes) = Ok fs /\
    readUploadItem (H := noElectron) (ItemFile threeBytesOtherwise) = Ok fs' /\
    stream fs = cut streamEncryptionChunkSize (concat (File_stream threeBytes)) /\
    stream fs' = stream fs /\
    chunkCount fs' = chunkCount fs.
Proof.
  apply (readUploadItem_bytes_only (H := noElectron) (ItemFile threeBytes)
           (ItemFile threeBytesOtherwise) (File_stream threeBytes)
           (File_stream threeBytesOtherwise) (Some threeBytes)
           (Some threeBytesOtherwise) 3 1700000000000 1700000000001);
    reflexivity.
Defined.

(** X2.  A stream that is already in chunks of [N] bytes, with at most one
    shorter chunk, not empty, at its end, goes through the transformer of
    [readUploadItem] unchanged; so what has gone through once goes through
    a second time unchanged. *)
Theorem pipeThrough_fixed (N : Z) (full last us : list Uint8Array) :
  0 < N ->
  Forall (fun c => len c = N) full ->
  (last = [] \/ exists p, last = [p] /\ 0 < len p < N) ->
  pipeThrough N (full ++ last) = full ++ last /\
  pipeThrough N (pipeThrough N us) = pipeThrough N us.
Proof.
  intros HN Hfull Hlast. split.
  - rewrite pipeThrough_cut by done. by apply cut_concat.
  - destruct (pipeThrough_shape N HN us) as (full' & last' & Heq & Hfull' & Hlast' & _).
    rewrite Heq, pipeThrough_cut by done. by apply cut_concat.
Qed.

Lemma pipeThrough_fixed_witness :
  let b := Byte.x00 in
  pipeThrough 2 ([[b; b]; [b; b]] ++ [[b]]) = [[b; b]; [b; b]] ++ [[b]] /\
  pipeThrough 2 (pipeThrough 2 [[b]; [b; b; b]; [b]])
  = pipeThrough 2 [[b]; [b; b; b]; [b]].
Proof.
  apply (pipeThrough_fixed 2 [[Byte.x00; Byte.x00]; [Byte.x00; Byte.x00]]
           [[Byte.x00]] [[Byte.x00]; [Byte.x00; Byte.x00; Byte.x00]; [Byte.x00]]).
  - lia.
  - repeat constructor.
  - right. exists [Byte.x00]. split; [reflexivity|]. unfold len. simpl. lia.
Defined.

(** X3.  [computeHash] on an item of reported size [S]: it throws "Less
    chunks than expected" when [S] calls for more chunks than the bytes of
    the source make, "More chunks than expected" when it calls for fewer,
    and otherwise returns the hash of the bytes cut every 4194304 bytes,
    also when [S] is not the number of bytes but calls for as many chunks. *)
Theorem computeHash_size `{Electron} (uploadItem : UploadItem) (worker : CryptoWorker)
    (us : ReadableStream) (f : option File) (S lm : Z) :
  underlying uploadItem = Ok (us, f, S, lm) ->
  0 <= S ->
  let N := streamEncryptionChunkSize in
  computeHash uploadItem worker =
    if ceil_div (len (concat us)) N <? ceil_div S N
    then Throw LessChunksThanExpected
    else if ceil_div S N <? ceil_div (len (concat us)) N
    then Throw MoreChunksThanExpected
    else Ok (chunkHashFinal worker
               (fold_left (chunkHashUpdate worker) (cut N (concat us))
                  (chunkHashInit worker))).
Proof.
  intros Hu HS N. unfold computeHash, readUploadItem. rewrite Hu.
  cbn [mbind result_bind mret result_ret].
  rewrite computeHash_of_verdict. cbn [stream chunkCount]. fold N.
  pose proof streamEncryptionChunkSize_pos as HN. fold N in HN.
  pose proof (pipeThrough_count N HN us) as Hcount.
  rewrite <- (pipeThrough_cut N us HN).
  assert (0 <= ceil_div S N) by (unfold ceil_div; apply Z.div_pos; lia).
  unfold len in Hcount at 1.
  destruct (Nat.ltb_spec (length (pipeThrough N us)) (Z.to_nat (ceil_div S N)));
    destruct (Z.ltb_spec (ceil_div (len (concat us)) N) (ceil_div S N)); try lia; [done|].
  destruct (Nat.ltb_spec (Z.to_nat (ceil_div S N)) (length (pipeThrough N us)));
    destruct (Z.ltb_spec (ceil_div S N) (ceil_div (len (concat us)) N)); try lia; done.
Qed.

(** A file of three bytes that is said to have five: one chunk either
    way, and the hash is that of the three bytes. *)
Definition threeBytesSaidFive : File := {|
  File_name := "a.jpg";
  File_size := 5;
  File_lastModified := 1700000000000;
  File_stream := [[Byte.x61; Byte.x62]; [Byte.x63]];
|}.

Lemma computeHash_size_witness :
  let N := streamEncryptionChunkSize in
  computeHash (H := noElectron) (ItemFile threeBytesSaidFive) echoWorker =
    if ceil_div (len (concat (File_stream threeBytesSaidFive))) N <? ceil_div 5 N
    then Throw LessChunksThanExpected
    else if ceil_div 5 N <? ceil_div (len (concat (File_stream threeBytesSaidFive))) N
    then Throw MoreChunksThanExpected
    else Ok (chunkHashFinal echoWorker
               (fold_left (chunkHashUpdate echoWorker)
                  (cut N (concat (File_stream threeBytesSaidFive)))
                  (chunkHashInit echoWorker))).
Proof.
  apply (computeHash_size (H := noElectron) (ItemFile threeBytesSaidFive) echoWorker
           (File_stream threeBytesSaidFive) (Some threeBytesSaidFive) 5 1700000000000);
    [reflexivity | lia].
Defined.

Example computeHash_threeBytesSaidFive :
  computeHash (H := noElectron) (ItemFile threeBytesSaidFive) echoWorker = Ok "abc"%string.
Proof. reflexivity. Qed.

(** Once the pull count is past [chunkCount], no pull closes the stream. *)
Lemma pullAll_past (worker : CryptoWorker) (n : Z) : forall fuel st chunks,
  n < pullCount st -> pullAll worker n fuel st <> Closed chunks.
Proof.
  induction fuel as [|fuel IH]; intros st chunks Hp; [done|].
  simpl. unfold pull. destruct (read (fileStreamReader st)) as [value rest].
  destruct (encryptStreamChunk worker value (pushState st) (pullCount st =? n))
    as [[out ps']|e]; simpl; [|done].
  destruct (Z.eqb_spec (pullCount st) n) as [|_]; [lia|].
  intros Heq.
  destruct (pullAll worker n fuel _) as [cs|cs e|cs] eqn:E; try done.
  by apply IH in E; [|simpl; lia].
Qed.

(** An empty file. *)
Definition noBytes : File := {|
  File_name := "empty.txt";
  File_size := 0;
  File_lastModified := 1700000000000;
  File_stream := [];
|}.

(** X4.  For a source of no bytes [readUploadItem] gives a [chunkCount] of
    0 and a stream of no chunks, and the encrypted stream that
    [encryptFileStream] makes of it never closes: the pull count starts at
    1 and is never 0.  Each pull hands [undefined] to the worker; if the
    worker refuses it, the stream errors at the first pull, having delivered
    nothing. *)
Theorem encryptFileStream_of_no_bytes `{Electron} (uploadItem : UploadItem)
    (worker : CryptoWorker) (fileKey : string)
    (us : ReadableStream) (f : option File) (lm : Z) :
  underlying uploadItem = Ok (us, f, 0, lm) ->
  concat us = [] ->
  exists fs,
    readUploadItem uploadItem = Ok fs /\
    chunkCount fs = 0 /\
    stream fs = [] /\
    let s := (encryptFileStream fs fileKey worker).2 in
    (forall fuel chunks,
       pullAll worker (pulled_chunkCount s) fuel (pulled_state s) <> Closed chunks) /\
    (forall e fuel,
       encryptStreamChunk worker None (initChunkEncryption worker fileKey).2 false
         = Throw e ->
       pullAll worker (pulled_chunkCount s) (S fuel) (pulled_state s) = Errored [] e).
Proof.
  intros Hu Hcat. unfold readUploadItem. rewrite Hu.
  eexists. split; [reflexivity|]. cbn [chunkCount stream].
  split; [reflexivity|].
  rewrite pipeThrough_cut by apply streamEncryptionChunkSize_pos. rewrite Hcat.
  split; [reflexivity|].
  unfold encryptFileStream. destruct (initChunkEncryption worker fileKey) as [hd ps].
  cbn [snd pulled_chunkCount pulled_state chunkCount stream].
  change (ceil_div 0 streamEncryptionChunkSize) with 0. split.
  - intros fuel chunks. apply pullAll_past. simpl. lia.
  - intros e fuel He. simpl. unfold pull. simpl. by rewrite He.
Qed.

Lemma encryptFileStream_of_no_bytes_witness :
  exists fs,
    readUploadItem (H := noElectron) (ItemFile noBytes) = Ok fs /\
    chunkCount fs = 0 /\
    stream fs = [] /\
    let s := (encryptFileStream fs "key" echoWorker).2 in
    (forall fuel chunks,
       pullAll echoWorker (pulled_chunkCount s) fuel (pulled_state s) <> Closed chunks) /\
    (forall e fuel,
       encryptStreamChunk echoWorker None (initChunkEncryption echoWorker "key").2 false
         = Throw e ->
       pullAll echoWorker (pulled_chunkCount s) (S fuel) (pulled_state s) = Errored [] e).
Proof.
  apply (encryptFileStream_of_no_bytes (H := noElectron) (ItemFile noBytes) echoWorker
           "key" [] (Some noBytes) 1700000000000); reflexivity.
Defined.

(** What reading the encrypted stream to its end is to give: each chunk
    encrypted once, in order, the push state passed on from chunk to chunk,
    and the last chunk, and no other, encrypted as the final one. *)
Fixpoint encryptChunks (worker : CryptoWorker) (chunks : list Uint8Array)
    (pushState : PushState worker) : Delivered :=
  match chunks with
  | [] => StillOpen []
  | chunk :: chunks =>
      let isFinalChunk := bool_decide (chunks = []) in
      match encryptStreamChunk worker (Some chunk) pushState isFinalChunk with
      | Throw e => Errored [] e
      | Ok (encrypted, pushState) =>
          if isFinalChunk then Closed [encrypted]
          else deliver_more encrypted (encryptChunks worker chunks pushState)
      end
  end.

Lemma pullAll_encryptChunks (worker : CryptoWorker) (n : Z) : forall chunks ps p,
  chunks <> [] ->
  p + len chunks = n + 1 ->
  pullAll worker n (length chunks)
    {| fileStreamReader := chunks; pushState := ps; pullCount := p |}
  = encryptChunks worker chunks ps.
Proof.
  induction chunks as [|c chunks IH]; intros ps p Hne Hp; [done|].
  cbn [length pullAll encryptChunks]. unfold pull. cbn [fileStreamReader read pushState pullCount].
  assert (Hfinal : (p =? n) = bool_decide (chunks = [])).
  { unfold len in Hp. destruct chunks as [|c' chunks']; cbn [length] in Hp.
    - transitivity true; [apply Z.eqb_eq; lia | symmetry; by apply bool_decide_eq_true_2].
    - transitivity false; [apply Z.eqb_neq; lia | symmetry; by apply bool_decide_eq_false_2]. }
  rewrite Hfinal.
  destruct (encryptStreamChunk worker (Some c) ps _) as [[out ps']|e]; [|done].
  cbn. case_bool_decide as Hc; [done|].
  rewrite IH; [done | done |]. unfold len in *. simpl in Hp. lia.
Qed.

(** X5.  When the stream of the file has as many chunks as [chunkCount]
    says, and at least one, reading the stream of [encryptFileStream] to its
    end encrypts each chunk once, in order, with the push state of the
    chunk before; the last chunk, and no other, is encrypted as the final
    one, and the stream closes after it. *)
Theorem encryptFileStream_final_chunk (fs : FileStream) (fileKey : string)
    (worker : CryptoWorker) :
  len (stream fs) = chunkCount fs ->
  stream fs <> [] ->
  delivered (encryptFileStream fs fileKey worker).2
  = encryptChunks worker (stream fs) (initChunkEncryption worker fileKey).2.
Proof.
  intros Hlen Hne. unfold delivered, encryptFileStream.
  destruct (initChunkEncryption worker fileKey) as [hd ps]. cbn.
  rewrite <- Hlen. unfold len at 2. rewrite Nat2Z.id.
  apply pullAll_encryptChunks; [done | lia].
Qed.

(** Two chunks, said to be two. *)
Definition twoChunks : FileStream := {|
  stream := [[Byte.x61]; [Byte.x62]];
  chunkCount := 2;
  fileSize := 2;
  FileStream_lastModifiedMs := 5;
  file := None;
|}.

Lemma encryptFileStream_final_chunk_witness :
  delivered (encryptFileStream twoChunks "key" echoWorker).2
  = encryptChunks echoWorker (stream twoChunks) (initChunkEncryption echoWorker "key").2.
Proof.
  apply (encryptFileStream_final_chunk twoChunks "key" echoWorker);
    [reflexivity | discriminate].
Defined.

End ChunkedStreamFacts.

(** ** The details and the thumbnail of an item *)

Module AssetReaderFacts.

Import AssetReader ChunkedReaderFacts UploadTransportFacts ChunkedStreamFacts.

(** The bytes of a file that is a stream, or is in memory. *)
Definition bytesOf (d : FileStream + Uint8Array) : Uint8Array :=
  match d with
  | inl fileStream => concat (stream fileStream)
  | inr data => data
  end.

Lemma concat_cut (N : Z) (bs : Uint8Array) : 0 < N -> concat (cut N bs) = bs.
Proof. intros HN. unfold cut. apply groupsOf_concat; lia. Qed.

(** The first read of bytes cut every [N] bytes. *)
Lemma read_cut (N : Z) (bs : Uint8Array) :
  (read (cut N bs)).1 =
    if bool_decide (bs = []) then None else Some (take (Z.to_nat N) bs).
Proof.
  unfold cut. destruct bs as [|b bs]; [done|].
  change (groupsOf (length (b :: bs)) (Z.to_nat N) (b :: bs))
    with (take (Z.to_nat N) (b :: bs)
            :: groupsOf (length bs) (Z.to_nat N) (drop (Z.to_nat N) (b :: bs))).
  reflexivity.
Qed.

Lemma readUploadItem_cut `{Electron} (uploadItem : UploadItem) us f S lm :
  underlying uploadItem = Ok (us, f, S, lm) ->
  readUploadItem uploadItem =
    Ok {| stream := cut streamEncryptionChunkSize (concat us);
          chunkCount := ceil_div S streamEncryptionChunkSize;
          fileSize := S; FileStream_lastModifiedMs := lm; file := f |}.
Proof.
  intros Hu. unfold readUploadItem. rewrite Hu. cbn [mbind result_bind mret result_ret].
  by rewrite (pipeThrough_cut _ _ streamEncryptionChunkSize_pos).
Qed.

(** X6.  The chunk that [readImageOrVideoDetails] lets the type
    detection read is the first four MiB of the item (all of it, when it is
    shorter, and [undefined], when it has no bytes), in whatever reads the
    source delivers its bytes.  The size in the details is the one the
    source states, and the details are there exactly when the detection
    succeeds. *)
Theorem readImageOrVideoDetails_first_chunk `{Electron} `{Imports} `{Detector}
    (uploadItem : UploadItem) (us : ReadableStream) (f : option File) (S lm : Z) :
  underlying uploadItem = Ok (us, f, S, lm) ->
  readImageOrVideoDetails uploadItem =
    fileTypeInfo ←
      detectFileTypeInfoFromChunk
        (if bool_decide (concat us = []) then None
         else Some (take (Z.to_nat streamEncryptionChunkSize) (concat us)))
        (uploadItemFileName uploadItem);
    Ok {| fileTypeInfo := fileTypeInfo; details_fileSize := S;
          details_lastModifiedMs := lm |}.
Proof.
  intros Hu. unfold readImageOrVideoDetails.
  rewrite (readUploadItem_cut _ _ _ _ _ Hu).
  cbn [mbind result_bind stream fileSize FileStream_lastModifiedMs].
  by rewrite read_cut.
Qed.

Lemma readImageOrVideoDetails_first_chunk_witness :
  readImageOrVideoDetails (H := noElectron) (H0 := plainImports)
    (H1 := firstByteDetector) (ItemFile threeBytes) =
    fileTypeInfo ←
      detectFileTypeInfoFromChunk (Detector := firstByteDetector)
        (if bool_decide (concat [[Byte.x01; Byte.x02]; [Byte.x03]] = []) then None
         else Some (take (Z.to_nat streamEncryptionChunkSize)
                      (concat [[Byte.x01; Byte.x02]; [Byte.x03]])))
        (uploadItemFileName (H := plainImports) (ItemFile threeBytes));
    Ok {| fileTypeInfo := fileTypeInfo; details_fileSize := 3;
          details_lastModifiedMs := 1700000000000 |}.
Proof.
  exact (readImageOrVideoDetails_first_chunk (H := noElectron) (H0 := plainImports)
           (H1 := firstByteDetector) (ItemFile threeBytes)
           [[Byte.x01; Byte.x02]; [Byte.x03]] (Some threeBytes) 3 1700000000000
           eq_refl).
Defined.

(** X7.  What [readImageOrVideo] returns has the bytes of the item,
    as a stream or in memory; they are in memory only for an image that is
    not a [File].  The thumbnail is the fallback one exactly when the file is
    marked as having a static thumbnail, and is otherwise what one of the
    two generators returned. *)
Theorem readImageOrVideo_bytes `{Electron} `{Thumbnails}
    (uploadItem : UploadItem) (fileTypeInfo : FileTypeInfo)
    (us : ReadableStream) (f : option File) (S lm : Z) :
  underlying uploadItem = Ok (us, f, S, lm) ->
  exists t,
    readImageOrVideo uploadItem fileTypeInfo = Ok t /\
    bytesOf (fileStreamOrData t) = concat us /\
    (forall data, fileStreamOrData t = inr data ->
       instanceofFile uploadItem = false /\
       FileTypeInfo_fileType fileTypeInfo = image) /\
    (thumbnailed_hasStaticThumbnail t = true -> thumbnail t = fallbackThumbnail) /\
    (thumbnailed_hasStaticThumbnail t = false ->
       (electron = true /\ instanceofFile uploadItem = false /\
        generateThumbnailNative uploadItem fileTypeInfo = Ok (thumbnail t)) \/
       (exists blob, generateThumbnailWeb blob fileTypeInfo = Ok (thumbnail t))).
Proof.
  intros Hu. unfold readImageOrVideo.
  rewrite (readUploadItem_cut _ _ _ _ _ Hu).
  cbn [mbind result_bind mret result_ret].
  set (fs := {| stream := _ |}).
  assert (Hbytes : concat (stream fs) = concat us)
    by apply concat_cut, streamEncryptionChunkSize_pos.
  eexists. split; [reflexivity|]. clearbody fs. unfold withThumbnail.
  destruct (electron && negb (instanceofFile uploadItem)) eqn:Hnative.
  - apply andb_true_iff in Hnative as [He Hf]. apply negb_true_iff in Hf.
    destruct (generateThumbnailNative uploadItem fileTypeInfo) as [th|e] eqn:Hth;
      cbn [orUndefined].
    + cbn. repeat apply conj; try done. intros _. by left.
    + destruct uploadItem as [file|path|zipPath entryName|file path]; [done|..].
      all: case_bool_decide as Himage; cbn [fst snd]; [|by cbn].
      all: destruct (generateThumbnailWeb _ fileTypeInfo) as [th|e'] eqn:Hweb; cbn.
      all: repeat apply conj; try done; intros _; right; eexists; exact Hweb.
  - destruct uploadItem as [file|path|zipPath entryName|file path].
    2-4: case_bool_decide as Himage; cbn [fst snd]; [|by cbn].
    all: destruct (generateThumbnailWeb _ fileTypeInfo) as [th|e'] eqn:Hweb; cbn.
    all: repeat apply conj; try done; intros _; right; eexists; exact Hweb.
Qed.

(** The three bytes at a path of the desktop app, whose native generator
    fails. *)
Lemma readImageOrVideo_bytes_witness :
  exists t,
    readImageOrVideo (H := threeBytesAt) (H0 := browserThumbnails) (ItemPath "a.jpg")
      jpg = Ok t /\
    bytesOf (fileStreamOrData t) = concat [[Byte.x01]; [Byte.x02; Byte.x03]] /\
    (forall data, fileStreamOrData t = inr data ->
       instanceofFile (ItemPath "a.jpg") = false /\
       FileTypeInfo_fileType jpg = image) /\
    (thumbnailed_hasStaticThumbnail t = true -> thumbnail t = [Byte.xff]) /\
    (thumbnailed_hasStaticThumbnail t = false ->
       (true = true /\ instanceofFile (ItemPath "a.jpg") = false /\
        generateThumbnailNative (Thumbnails := browserThumbnails) (ItemPath "a.jpg")
          jpg = Ok (thumbnail t)) \/
       (exists blob,
          generateThumbnailWeb (Thumbnails := browserThumbnails) blob jpg
          = Ok (thumbnail t))).
Proof.
  exact (readImageOrVideo_bytes (H := threeBytesAt) (H0 := browserThumbnails)
           (ItemPath "a.jpg") jpg [[Byte.x01]; [Byte.x02; Byte.x03]]
           None 3 1700000000000 eq_refl).
Defined.

(** The image is read into memory, and the thumbnail is made from that. *)
Example readImageOrVideo_by_path :
  readImageOrVideo (H := threeBytesAt) (H0 := browserThumbnails) (ItemPath "a.jpg") jpg
  = Ok {| fileStreamOrData := inr [Byte.x01; Byte.x02; Byte.x03];
          thumbnail := [Byte.x01];
          thumbnailed_hasStaticThumbnail := false |}.
Proof. vm_compute. reflexivity. Qed.

End AssetReaderFacts.

(** ** What is extracted from an item *)

Module ExtractionFacts.

Import ContentIdentityFacts MetadataStoreFacts.

(** What the extraction may put in the public magic metadata: the local
    date and time, a UTC offset that is not empty, a width and a height that
    are not zero, a caption that is not empty. *)
Definition extractedEntry (k : string) (v : Value) : Prop :=
  (k = "dateTime"%string /\ exists s, v = VString s) \/
  (k = "offsetTime"%string /\ exists s, v = VString s /\ s <> ""%string) \/
  ((k = "w"%string \/ k = "h"%string) /\ exists n, v = VNumber n /\ n <> 0) \/
  (k = "caption"%string /\ exists s, v = VString s /\ s <> ""%string).

Definition extractedEntries (o : gmap string Value) : Prop :=
  forall k v, o !! k = Some v -> extractedEntry k v.

Lemma extractedEntries_set k v o :
  extractedEntry k v -> extractedEntries o -> extractedEntries (set k v o).
Proof.
  intros Hv Ho k' v'. unfold set. rewrite lookup_insert.
  case_decide as Hk; [|apply Ho]. intros [= <-]. by subst.
Qed.

Lemma extractedEntries_setIf {A} `{Truthy A} k (x : option A) (v : A -> Value) o :
  (forall a, x = Some a -> truthy a = true -> extractedEntry k (v a)) ->
  extractedEntries o -> extractedEntries (setIf k x v o).
Proof.
  intros Hv Ho. unfold setIf. destruct x as [a|]; [|done].
  destruct (truthy a) eqn:Ha; [|done]. apply extractedEntries_set; auto.
Qed.

Lemma setIf_lookup_ne {A} `{Truthy A} k k' (x : option A) (v : A -> Value) o :
  k <> k' -> setIf k x v o !! k' = o !! k'.
Proof.
  intros Hk. unfold setIf, set. destruct x as [a|]; [|done].
  destruct (truthy a); [|done]. by rewrite lookup_insert_ne.
Qed.

Lemma truthy_Z_iff (n : Z) : truthy n = true <-> n <> 0.
Proof.
  unfold truthy, truthy_Z. rewrite negb_true_iff. apply Z.eqb_neq.
Qed.

Section Extraction.
Context `{Electron} `{Imports}.

(** X8.  The public magic metadata that [extractImageOrVideoMetadata]
    makes has no other keys than [dateTime], [offsetTime], [w], [h] and
    [caption]; their values are strings and numbers, never [null] or
    [undefined], and but for [dateTime] never empty or zero.  There is an
    [offsetTime] only with a [dateTime], and a [dateTime] only when the
    sidecar JSON gives no creation time. *)
Theorem publicMagicMetadata_extracted
    (uploadItem : UploadItem) (pathPrefix : option string)
    (externalParsedMetadata : option ExternalParsedMetadata)
    (fileTypeInfo : FileTypeInfo) (lastModifiedMs collectionID : Z)
    (map : gmap string ParsedMetadataJSON) (worker : CryptoWorker)
    (r : ExtractAssetMetadataResult) :
  extractImageOrVideoMetadata uploadItem pathPrefix externalParsedMetadata fileTypeInfo
    lastModifiedMs collectionID map worker = Ok r ->
  let o := publicMagicMetadata r in
  let json :=
    matchJSONMetadata pathPrefix collectionID (uploadItemFileName uploadItem) map in
  (forall k v, o !! k = Some v ->
     (k = "dateTime"%string /\ exists s, v = VString s) \/
     (k = "offsetTime"%string /\ exists s, v = VString s /\ s <> ""%string) \/
     ((k = "w"%string \/ k = "h"%string) /\ exists n, v = VNumber n /\ n <> 0) \/
     (k = "caption"%string /\ exists s, v = VString s /\ s <> ""%string)) /\
  withoutNullAndUndefinedValues o = o /\
  (is_Some (o !! "offsetTime"%string) -> is_Some (o !! "dateTime"%string)) /\
  (is_Some (o !! "dateTime"%string) -> truthy (json ?. JSON_creationTime) = false).
Proof.
  unfold extractImageOrVideoMetadata. intros Hr.
  apply bind_Ok in Hr as (pm & _ & Hr).
  apply bind_Ok in Hr as (h & _ & Hr).
  set (json := matchJSONMetadata _ _ _ _) in *.
  set (parsed := match externalParsedMetadata with
                 | Some e => Some (spread e pm)
                 | None => widen <$> pm
                 end) in *.
  cbv zeta in Hr.
  set (first :=
    if truthy (json ?. JSON_creationTime)
    then (default 0 (json ?. JSON_creationTime), (∅ : gmap string Value))
    else match parsed ?. ext_creationDate ?. id with
         | Some d =>
             (timestamp d,
              setIf "offsetTime" (offset d) VString
                (set "dateTime" (VString (dateTime d)) ∅))
         | None =>
             if truthy (parsed ?. ext_creationTime)
             then (default 0 (parsed ?. ext_creationTime), ∅)
             else (default (default (lastModifiedMs * 1000) (json ?. JSON_modificationTime))
                     (tryParseEpochMicrosecondsFromFileName (uploadItemFileName uploadItem)),
                   ∅)
         end) in *.
  assert (Hfirst : extractedEntries first.2 /\
            (is_Some (first.2 !! "offsetTime"%string) ->
             is_Some (first.2 !! "dateTime"%string)) /\
            (is_Some (first.2 !! "dateTime"%string) ->
             truthy (json ?. JSON_creationTime) = false)).
  { subst first. destruct (truthy (json ?. JSON_creationTime)) eqn:Hjson.
    - simpl. split; [done|]. split; intros [? Hk]; by rewrite lookup_empty in Hk.
    - destruct (parsed ?. ext_creationDate ?. id) as [d|].
      + simpl. split; [|split; [|done]].
        * apply extractedEntries_setIf.
          { intros a _ Ha. right. left. split; [done|]. exists a. split; [done|].
            by apply truthy_string_iff. }
          apply extractedEntries_set; [|done]. left. eauto.
        * intros _. rewrite setIf_lookup_ne by done. unfold set.
          rewrite lookup_insert_eq. eauto.
      + assert (Hempty : forall (c : bool) (a b : Z),
                  (if c then (a, (∅ : gmap string Value)) else (b, ∅)).2 = ∅)
          by (by intros []).
        rewrite Hempty.
        split; [done|]. split; intros [? Hk]; by rewrite lookup_empty in Hk. }
  destruct first as [ct pmm1]. simpl in Hfirst. destruct Hfirst as (He & Ho & Hd).
  injection Hr as <-. cbn [publicMagicMetadata].
  set (pmm2 := match parsed with
               | Some p => setIf "h" (ext_height p) (fun h => VNumber (ensureInteger h))
                             (setIf "w" (ext_width p) (fun w => VNumber (ensureInteger w)) pmm1)
               | None => pmm1
               end).
  assert (He2 : extractedEntries pmm2).
  { subst pmm2. destruct parsed as [p|]; [|done].
    apply extractedEntries_setIf.
    { intros a _ Ha. do 2 right. left. split; [by right|]. exists a.
      split; [done|]. by apply truthy_Z_iff. }
    apply extractedEntries_setIf; [|done].
    intros a _ Ha. do 2 right. left. split; [by left|]. exists a.
    split; [done|]. by apply truthy_Z_iff. }
  assert (Hsame : forall k, k = "dateTime"%string \/ k = "offsetTime"%string ->
            setIf "caption"
              (later (json ?. JSON_description) (parsed ?. ext_description)) VString pmm2 !! k
            = pmm1 !! k).
  { intros k Hk. rewrite setIf_lookup_ne by (destruct Hk as [->| ->]; done).
    subst pmm2. destruct parsed as [p|]; [|done].
    rewrite !setIf_lookup_ne by (destruct Hk as [->| ->]; done). done. }
  assert (He3 : extractedEntries
            (setIf "caption"
               (later (json ?. JSON_description) (parsed ?. ext_description))
               VString pmm2)).
  { apply extractedEntries_setIf; [|done].
    intros a _ Ha. do 3 right. split; [done|]. exists a. split; [done|].
    by apply truthy_string_iff. }
  split; [exact He3|]. split.
  - apply withoutNull_id. intros k v Hk. apply He3 in Hk.
    destruct Hk as [(_ & s & ->)|[(_ & s & -> & _)|[(_ & n & -> & _)|(_ & s & -> & _)]]];
      by split.
  - rewrite !Hsame by auto. by split.
Qed.

(** X9.  The metadata that [extractImageOrVideoMetadata] makes: the file
    type is that of the detected type, the title the name of the file, the
    hash what [computeHash] gives for the item; the fields of older clients
    ([imageHash], [videoHash]) and of the mobile clients are not set, nor is
    [hasStaticThumbnail]; only a video has a duration; there is a latitude
    exactly when there is a longitude.  The modification time is that of the
    sidecar JSON when it has one, else that of the file, in microseconds;
    the creation time is that of the sidecar JSON whenever it has one that
    is not zero. *)
Theorem metadata_extracted
    (uploadItem : UploadItem) (pathPrefix : option string)
    (externalParsedMetadata : option ExternalParsedMetadata)
    (fileTypeInfo : FileTypeInfo) (lastModifiedMs collectionID : Z)
    (map : gmap string ParsedMetadataJSON) (worker : CryptoWorker)
    (r : ExtractAssetMetadataResult) :
  extractImageOrVideoMetadata uploadItem pathPrefix externalParsedMetadata fileTypeInfo
    lastModifiedMs collectionID map worker = Ok r ->
  let m := metadata r in
  let json :=
    matchJSONMetadata pathPrefix collectionID (uploadItemFileName uploadItem) map in
  fileType m = FileTypeInfo_fileType fileTypeInfo /\
  fileType m <> livePhoto /\
  title m = uploadItemFileName uploadItem /\
  (exists h, computeHash uploadItem worker = Ok h /\ hash m = Some h) /\
  imageHash m = None /\ videoHash m = None /\ hasStaticThumbnail m = None /\
  localID m = None /\ version m = None /\ deviceFolder m = None /\
  (is_Some (duration m) -> fileType m = video) /\
  (is_Some (latitude m) <-> is_Some (longitude m)) /\
  modificationTime m = default (lastModifiedMs * 1000) (json ?. JSON_modificationTime) /\
  (forall t, json ?. JSON_creationTime = Some t -> t <> 0 -> creationTime m = t).
Proof.
  intros Hr m json.
  pose proof (extractImageOrVideoMetadata_hash _ _ _ _ _ _ _ _ _ Hr) as Hhash.
  subst m. revert Hr. unfold extractImageOrVideoMetadata. intros Hr.
  apply bind_Ok in Hr as (pm & Hpm & Hr).
  apply bind_Ok in Hr as (h & _ & Hr).
  fold json in Hr. cbv zeta in Hr.
  destruct (if truthy (json ?. JSON_creationTime) then _ else _) as [ct pmm1] eqn:Hfirst.
  injection Hr as <-. cbn [metadata fileType title hash imageHash videoHash
    hasStaticThumbnail localID version deviceFolder duration latitude longitude
    modificationTime creationTime].
  split; [done|]. split.
  { intros Hty. rewrite Hty in Hpm. done. }
  split; [done|]. split; [done|].
  do 6 (split; [done|]). split.
  { destruct (FileTypeInfo_fileType fileTypeInfo); try done; by intros [? ?]. }
  split.
  { destruct (later _ _); simpl; split; intros [? ?]; by eauto. }
  split; [done|].
  intros t Ht Hne. rewrite Ht in Hfirst. simpl in Hfirst.
  replace (truthy (Some t)) with true in Hfirst
    by (symmetry; by apply truthy_Z_iff).
  unfold ensureInteger. by injection Hfirst as <- _.
Qed.

(** The file type and the title of what is extracted. *)
Lemma extractImageOrVideoMetadata_type_title
    uploadItem pathPrefix ext fileTypeInfo lastModifiedMs collectionID map worker r :
  extractImageOrVideoMetadata uploadItem pathPrefix ext fileTypeInfo lastModifiedMs
    collectionID map worker = Ok r ->
  fileType (metadata r) = FileTypeInfo_fileType fileTypeInfo /\
  title (metadata r) = uploadItemFileName uploadItem.
Proof.
  unfold extractImageOrVideoMetadata. intros Hr.
  apply bind_Ok in Hr as (pm & _ & Hr).
  apply bind_Ok in Hr as (h & _ & Hr).
  destruct (if truthy _ then _ else _) as [ct pmm] in Hr.
  by injection Hr as <-.
Qed.

(** Two records of the same type and title whose hash is the same, and
    not empty, are the same file. *)
Lemma areFilesSame_hash (f g : Metadata) (h : string) :
  fileType f = fileType g -> title f = title g ->
  hash f = Some h -> hash g = Some h -> h <> ""%string ->
  areFilesSame f g = VBool true.
Proof.
  intros Hty Hti Hf Hg Hne.
  assert (Hmh : forall m, hash m = Some h -> metadataHash m = Some h).
  { intros m Hm. unfold metadataHash. rewrite Hm.
    replace (truthy (Some h)) with true; [done|].
    symmetry. apply truthy_option_string. eauto. }
  unfold areFilesSame. rewrite Hty, Hti, bool_decide_eq_true_2, String.eqb_refl by done.
  cbn [negb orb]. rewrite (Hmh f Hf), (Hmh g Hg). unfold js_and. cbn [of_string].
  replace (truthy (VString h)) with true
    by (symmetry; by apply truthy_string_iff).
  by rewrite bool_decide_eq_true_2.
Qed.

(** X10.  An item with the name, the file type and the hash of another is
    found to be the same file, whatever else their metadata say, when the
    hash is not empty. *)
Theorem same_content_is_same_file
    (item item' : UploadItem) (pathPrefix pathPrefix' : option string)
    (ext ext' : option ExternalParsedMetadata) (fileTypeInfo fileTypeInfo' : FileTypeInfo)
    (lastModifiedMs lastModifiedMs' collectionID collectionID' : Z)
    (map map' : gmap string ParsedMetadataJSON) (worker worker' : CryptoWorker)
    (r r' : ExtractAssetMetadataResult) (h : string) :
  extractImageOrVideoMetadata item pathPrefix ext fileTypeInfo lastModifiedMs
    collectionID map worker = Ok r ->
  extractImageOrVideoMetadata item' pathPrefix' ext' fileTypeInfo' lastModifiedMs'
    collectionID' map' worker' = Ok r' ->
  uploadItemFileName item = uploadItemFileName item' ->
  FileTypeInfo_fileType fileTypeInfo = FileTypeInfo_fileType fileTypeInfo' ->
  computeHash item worker = Ok h ->
  computeHash item' worker' = Ok h ->
  h <> ""%string ->
  areFilesSame (metadata r) (metadata r') = VBool true.
Proof.
  intros Hr Hr' Hname Hty Hh Hh' Hne.
  destruct (extractImageOrVideoMetadata_type_title _ _ _ _ _ _ _ _ _ Hr) as [Ht Hn].
  destruct (extractImageOrVideoMetadata_type_title _ _ _ _ _ _ _ _ _ Hr') as [Ht' Hn'].
  destruct (extractImageOrVideoMetadata_hash _ _ _ _ _ _ _ _ _ Hr) as (h1 & Hc & Hhash).
  destruct (extractImageOrVideoMetadata_hash _ _ _ _ _ _ _ _ _ Hr') as (h2 & Hc' & Hhash').
  rewrite Hh in Hc. injection Hc as <-. rewrite Hh' in Hc'. injection Hc' as <-.
  apply (areFilesSame_hash _ _ h); congruence.
Qed.

End Extraction.

Lemma threeBytes_extracted :
  extractImageOrVideoMetadata (H := noElectron) (H0 := exifImports)
    (ItemFile threeBytes) None None jpg 1700000000000 7 ∅ echoWorker
  = Ok threeBytesExtracted.
Proof. vm_compute. reflexivity. Qed.

Lemma publicMagicMetadata_extracted_witness :
  let o := publicMagicMetadata threeBytesExtracted in
  let json : option ParsedMetadataJSON := None in
  (forall k v, o !! k = Some v ->
     (k = "dateTime"%string /\ exists s, v = VString s) \/
     (k = "offsetTime"%string /\ exists s, v = VString s /\ s <> ""%string) \/
     ((k = "w"%string \/ k = "h"%string) /\ exists n, v = VNumber n /\ n <> 0) \/
     (k = "caption"%string /\ exists s, v = VString s /\ s <> ""%string)) /\
  withoutNullAndUndefinedValues o = o /\
  (is_Some (o !! "offsetTime"%string) -> is_Some (o !! "dateTime"%string)) /\
  (is_Some (o !! "dateTime"%string) -> truthy (json ?. JSON_creationTime) = false).
Proof.
  exact (publicMagicMetadata_extracted (H := noElectron) (H0 := exifImports)
           (ItemFile threeBytes) None None jpg 1700000000000 7 ∅ echoWorker
           threeBytesExtracted threeBytes_extracted).
Defined.

Lemma metadata_extracted_witness :
  let m := metadata threeBytesExtracted in
  let json : option ParsedMetadataJSON := None in
  fileType m = image /\
  fileType m <> livePhoto /\
  title m = "a.jpg"%string /\
  (exists h, computeHash (H := noElectron) (ItemFile threeBytes) echoWorker = Ok h /\
             hash m = Some h) /\
  imageHash m = None /\ videoHash m = None /\ hasStaticThumbnail m = None /\
  localID m = None /\ version m = None /\ deviceFolder m = None /\
  (is_Some (duration m) -> fileType m = video) /\
  (is_Some (latitude m) <-> is_Some (longitude m)) /\
  modificationTime m = default (1700000000000 * 1000) (json ?. JSON_modificationTime) /\
  (forall t, json ?. JSON_creationTime = Some t -> t <> 0 -> creationTime m = t).
Proof.
  exact (metadata_extracted (H := noElectron) (H0 := exifImports)
           (ItemFile threeBytes) None None jpg 1700000000000 7 ∅ echoWorker
           threeBytesExtracted threeBytes_extracted).
Defined.

Lemma same_content_is_same_file_witness :
  areFilesSame (metadata threeBytesExtracted)
    (metadata
       {| metadata := {|
            fileType := image; title := "a.jpg";
            creationTime := 1692793980000000; modificationTime := 1800000000000000;
            latitude := None; longitude := None;
            hash := Some (String "001" (String "002" (String "003" EmptyString)));
            imageHash := None; videoHash := None;
            duration := None; hasStaticThumbnail := None; localID := None;
            version := None; deviceFolder := None |};
          publicMagicMetadata := publicMagicMetadata threeBytesExtracted |})
  = VBool true.
Proof.
  apply (same_content_is_same_file (H := noElectron) (H0 := exifImports)
           (ItemFile threeBytes) (ItemFile threeBytesAgain) None None None None
           jpg jpg 1700000000000 1800000000000 7 8 ∅ ∅ echoWorker echoWorker
           threeBytesExtracted _
           (String "001" (String "002" (String "003" EmptyString))));
    try (vm_compute; reflexivity).
  discriminate.
Defined.

End ExtractionFacts.

(** ** The pairing of live photos *)

Module LivePhotoFacts.

(** *** The suffix that is cut off a name *)

Lemma append_empty (s : string) : s +:+ "" = s.
Proof.
  induction s as [|c s IH]; [done|].
  change (String c s +:+ "") with (String c (s +:+ "")). by rewrite IH.
Qed.

Lemma substring_all (s : string) : substring 0 (String.length s) s = s.
Proof. induction s as [|c s IH]; simpl; [done | by rewrite IH]. Qed.

Lemma substring_split (s : string) : forall a : nat,
  (a <= String.length s)%nat ->
  (substring 0 a s ++ substring a (String.length s - a) s)%string = s.
Proof.
  induction s as [|c s IH]; intros a Ha.
  - destruct a; [done | simpl in Ha; lia].
  - destruct a as [|a].
    + rewrite Nat.sub_0_r, substring_all. by destruct s.
    + cbn [substring String.length Nat.sub].
      change (String c ?x +:+ ?y) with (String c (x +:+ y)). f_equal.
      apply IH. simpl in Ha. lia.
Qed.

Lemma length_substring (s : string) : forall a n : nat,
  (a + n <= String.length s)%nat -> String.length (substring a n s) = n.
Proof.
  induction s as [|c s IH]; intros a n Hn.
  - simpl in Hn. assert (a = O) as -> by lia. assert (n = O) as -> by lia. done.
  - destruct a as [|a].
    + destruct n as [|n]; [done|]. simpl. rewrite IH; [done|]. simpl in Hn. lia.
    + simpl. apply IH. simpl in Hn. lia.
Qed.

(** The last [k] characters of a name: all of it, when it has fewer. *)
Definition lastChars (k : nat) (name : string) : string :=
  substring (String.length name - k)
    (String.length name - (String.length name - k)) name.

Lemma dropLast_lastChars (k : nat) (name : string) :
  name = (dropLast k name ++ lastChars k name)%string.
Proof. unfold dropLast, lastChars. symmetry. apply substring_split. lia. Qed.

Lemma length_lastChars (k : nat) (name : string) :
  String.length (lastChars k name) = Nat.min k (String.length name).
Proof. unfold lastChars. rewrite length_substring; lia. Qed.

Lemma endsWith_lastChars (name suffix : string) :
  endsWith name suffix = true -> lastChars (String.length suffix) name = suffix.
Proof.
  unfold endsWith, lastChars. intros Hends.
  apply andb_true_iff in Hends as [Hle Heq].
  apply Nat.leb_le in Hle. apply String.eqb_eq in Heq.
  rewrite <- Heq at 3. f_equal. lia.
Qed.

(** X11.  [removePotentialLivePhotoSuffix] returns the name, or the name
    without its last characters: as many as "_3", "_HVEC" or the suffix it
    was given has (all of the name, when it has fewer).  It cuts only when
    the name ends with that suffix or with its lower case.  What it cuts off
    is that ending when the name ends with the suffix itself, and when the
    lower case of the suffix has the length of the suffix; the lower case
    can be of another length, and then it is not the ending found that is
    cut off. *)
Theorem removePotentialLivePhotoSuffix_cuts `{Imports} (name : string)
    (suffix : option string) :
  exists removed : string,
    name = (removePotentialLivePhotoSuffix name suffix ++ removed)%string /\
    (removed = ""%string \/
     exists found : string,
       (found = "_3"%string \/ found = "_HVEC"%string \/
        suffix = Some found /\ found <> ""%string) /\
       String.length removed = Nat.min (String.length found) (String.length name) /\
       (removed = found \/
        endsWith name (toLowerCase found) = true /\
        (String.length (toLowerCase found) = String.length found ->
         removed = toLowerCase found))).
Proof.
  assert (Hnone : forall P : string -> Prop,
            exists removed : string, name = (name ++ removed)%string /\
                                     (removed = ""%string \/ P removed)).
  { intros P. exists ""%string. split; [by rewrite append_empty | by left]. }
  assert (Hcut : forall found : string,
    found = "_3"%string \/ found = "_HVEC"%string \/
      suffix = Some found /\ found <> ""%string ->
    endsWith name found = true \/ endsWith name (toLowerCase found) = true ->
    exists removed : string,
      name = (dropLast (String.length found) name ++ removed)%string /\
      (removed = ""%string \/
       exists found : string,
         (found = "_3"%string \/ found = "_HVEC"%string \/
          suffix = Some found /\ found <> ""%string) /\
         String.length removed = Nat.min (String.length found) (String.length name) /\
         (removed = found \/
          endsWith name (toLowerCase found) = true /\
          (String.length (toLowerCase found) = String.length found ->
           removed = toLowerCase found)))).
  { intros found Hfound Hends. exists (lastChars (String.length found) name).
    split; [apply dropLast_lastChars|]. right. exists found.
    split; [done|]. split; [apply length_lastChars|].
    destruct Hends as [Hends|Hends].
    - left. by apply endsWith_lastChars.
    - right. split; [done|]. intros Hlen. rewrite <- Hlen.
      by apply endsWith_lastChars. }
  unfold removePotentialLivePhotoSuffix.
  destruct (endsWith name "_3") eqn:H3.
  { apply (Hcut "_3"%string); auto. }
  destruct (endsWith name "_HVEC") eqn:HH.
  { apply (Hcut "_HVEC"%string); auto. }
  destruct (endsWith name (toLowerCase "_HVEC")) eqn:Hh.
  { apply (Hcut "_HVEC"%string); auto. }
  cbn [orb].
  destruct suffix as [s|]; [|apply Hnone].
  destruct (truthy s) eqn:Hs; [|apply Hnone].
  assert (s <> ""%string) by (intros ->; done).
  destruct (endsWith name s) eqn:Hes.
  { cbn [orb]. rewrite Hs. apply (Hcut s); auto. }
  destruct (endsWith name (toLowerCase s)) eqn:Hel; [|apply Hnone].
  cbn [orb]. rewrite Hs. apply (Hcut s); auto.
Qed.

(** With names in ASCII. *)
Example removePotentialLivePhotoSuffix_evaluated :
  removePotentialLivePhotoSuffix (H := plainImports) "IMG_0001_HVEC" None
    = "IMG_0001"%string /\
  removePotentialLivePhotoSuffix (H := plainImports) "IMG_0001_hvec" None
    = "IMG_0001"%string /\
  removePotentialLivePhotoSuffix (H := plainImports) "IMG_0001.mp4" (Some ".MP4"%string)
    = "IMG_0001"%string /\
  removePotentialLivePhotoSuffix (H := plainImports) "IMG_0001_3_3" None
    = "IMG_0001_3"%string /\
  removePotentialLivePhotoSuffix (H := plainImports) "IMG_0001" (Some ""%string)
    = "IMG_0001"%string.
Proof. repeat split. Qed.

(** With a lower case that is longer: the name ends with the three
    characters of the lower case of the suffix, two characters are cut off,
    and the dot stays. *)
Example removePotentialLivePhotoSuffix_longer_lower_case :
  toLowerCase (Imports := dottingImports) ".I" = ".i'"%string /\
  removePotentialLivePhotoSuffix (H := dottingImports) "IMG.i'" (Some ".I"%string)
    = "IMG."%string.
Proof. split; reflexivity. Qed.

(** *** Pairing *)

Section Pairing.
Context `{Electron} `{Imports}.

Lemma prunedNames_swap (f g : PotentialLivePhotoAsset) :
  prunedNames g f = (fun p => (p.2, p.1)) <$> prunedNames f g.
Proof.
  unfold prunedNames.
  destruct (nameAndExtension (fileName f)) as [fName fExt].
  destruct (nameAndExtension (fileName g)) as [gName gExt].
  by destruct (PLPA_fileType f), (PLPA_fileType g).
Qed.

Lemma haveSameishDate_swap (fDate gDate : option Z) :
  haveSameishDate fDate gDate = haveSameishDate gDate fDate.
Proof.
  unfold haveSameishDate. rewrite (andb_comm (truthy fDate)).
  destruct fDate as [x|], gDate as [y|]; try done.
  by replace (Z.abs (x - y)) with (Z.abs (y - x)) by lia.
Qed.

(** X12.  [areLivePhotoAssets] returns [true] only for two assets of the
    same collection and path prefix, one an image and the other a video,
    with the same name once the live photo suffixes are cut off, each of at
    most 20 MiB, and with creation dates less than a day apart or a sidecar
    JSON for exactly one of them. *)
Theorem areLivePhotoAssets_true (f g : PotentialLivePhotoAsset)
    (map : gmap string ParsedMetadataJSON) :
  areLivePhotoAssets f g map = Ok true ->
  collectionID f = collectionID g /\
  pathPrefix f = pathPrefix g /\
  (PLPA_fileType f = image /\ PLPA_fileType g = video \/
   PLPA_fileType f = video /\ PLPA_fileType g = image) /\
  (exists name, prunedNames f g = Some (name, name)) /\
  (exists fSize gSize,
     uploadItemSize (uploadItem f) = Ok fSize /\
     uploadItemSize (uploadItem g) = Ok gSize /\
     fSize <= 20 * 1024 * 1024 /\ gSize <= 20 * 1024 * 1024) /\
  let fJSON := matchJSONMetadata (pathPrefix f) (collectionID f) (fileName f) map in
  let gJSON := matchJSONMetadata (pathPrefix g) (collectionID g) (fileName g) map in
  exists fDate gDate,
    uploadItemCreationDate (uploadItem f) (PLPA_fileType f) fJSON = Ok fDate /\
    uploadItemCreationDate (uploadItem g) (PLPA_fileType g) gJSON = Ok gDate /\
    (haveSameishDate fDate gDate = true \/ present fJSON = negb (present gJSON)).
Proof.
  unfold areLivePhotoAssets. intros Hrun.
  destruct (Z.eqb_spec (collectionID f) (collectionID g)) as [Hc|]; [|done].
  destruct (bool_decide_reflect (pathPrefix f = pathPrefix g)) as [Hp|]; [|done].
  cbn [negb] in Hrun.
  destruct (prunedNames f g) as [[fn gn]|] eqn:Hn; [|done].
  destruct (String.eqb_spec fn gn) as [->|]; [|done]. cbn [negb] in Hrun.
  destruct (uploadItemSize (uploadItem f)) as [fSize|] eqn:Hfs; [|done].
  destruct (uploadItemSize (uploadItem g)) as [gSize|] eqn:Hgs; [|done].
  cbn [mbind result_bind] in Hrun.
  destruct (Z.gtb_spec fSize (20 * 1024 * 1024)); [done|].
  destruct (Z.gtb_spec gSize (20 * 1024 * 1024)); [done|]. cbn [orb] in Hrun.
  destruct (uploadItemCreationDate (uploadItem f) _ _) as [fDate|] eqn:Hfd; [|done].
  destruct (uploadItemCreationDate (uploadItem g) _ _) as [gDate|] eqn:Hgd; [|done].
  cbn [mbind result_bind] in Hrun.
  split; [done|]. split; [done|]. split.
  { revert Hn. unfold prunedNames.
    destruct (nameAndExtension (fileName f)), (nameAndExtension (fileName g)).
    destruct (PLPA_fileType f), (PLPA_fileType g); try done; auto. }
  split; [by exists gn|]. split; [by exists fSize, gSize|].
  exists fDate, gDate. split; [done|]. split; [done|].
  destruct (haveSameishDate fDate gDate); [by left|]. right.
  cbn [negb] in Hrun.
  by destruct (present _), (present _).
Qed.

(** X13.  Whether two assets are paired does not depend on the order in
    which they are given. *)
Theorem areLivePhotoAssets_swap (f g : PotentialLivePhotoAsset)
    (map : gmap string ParsedMetadataJSON) (b : bool) :
  areLivePhotoAssets f g map = Ok b ->
  areLivePhotoAssets g f map = Ok b.
Proof.
  unfold areLivePhotoAssets. rewrite (prunedNames_swap f g).
  rewrite (Z.eqb_sym (collectionID g)).
  destruct (Z.eqb_spec (collectionID f) (collectionID g)) as [Hc|]; [|done].
  rewrite (bool_decide_ext (pathPrefix g = pathPrefix f) (pathPrefix f = pathPrefix g))
    by done.
  destruct (bool_decide_reflect (pathPrefix f = pathPrefix g)) as [Hp|]; [|done].
  cbn [negb].
  destruct (prunedNames f g) as [[fn gn]|] eqn:Hn; [|done]. cbn [fmap option_fmap option_map fst snd].
  rewrite (String.eqb_sym gn).
  destruct (String.eqb_spec fn gn) as [->|]; [|done]. cbn [negb].
  destruct (uploadItemSize (uploadItem f)) as [fSize|] eqn:Hfs; [|done].
  destruct (uploadItemSize (uploadItem g)) as [gSize|] eqn:Hgs; [|done].
  cbn [mbind result_bind].
  rewrite (orb_comm (gSize >? _)).
  destruct ((fSize >? 20 * 1024 * 1024) || (gSize >? 20 * 1024 * 1024)); [done|].
  destruct (uploadItemCreationDate (uploadItem f) _ _) as [fDate|] eqn:Hfd; [|done].
  destruct (uploadItemCreationDate (uploadItem g) _ _) as [gDate|] eqn:Hgd; [|done].
  cbn [mbind result_bind].
  rewrite (haveSameishDate_swap gDate fDate).
  destruct (haveSameishDate fDate gDate); [done|]. cbn [negb].
  by destruct (present _), (present _).
Qed.

End Pairing.

Lemma areLivePhotoAssets_true_witness :
  collectionID takeoutStill = collectionID takeoutClip /\
  pathPrefix takeoutStill = pathPrefix takeoutClip /\
  (PLPA_fileType takeoutStill = image /\ PLPA_fileType takeoutClip = video \/
   PLPA_fileType takeoutStill = video /\ PLPA_fileType takeoutClip = image) /\
  (exists name, prunedNames (H := takeoutImports) takeoutStill takeoutClip
                = Some (name, name)) /\
  (exists fSize gSize,
     uploadItemSize (H := noElectron) (uploadItem takeoutStill) = Ok fSize /\
     uploadItemSize (H := noElectron) (uploadItem takeoutClip) = Ok gSize /\
     fSize <= 20 * 1024 * 1024 /\ gSize <= 20 * 1024 * 1024) /\
  let fJSON := takeoutJSON !! "IMG_1.jpg"%string in
  let gJSON := takeoutJSON !! "IMG_1.mp4"%string in
  exists fDate gDate,
    uploadItemCreationDate (H := noElectron) (H0 := takeoutImports)
      (uploadItem takeoutStill) (PLPA_fileType takeoutStill) fJSON = Ok fDate /\
    uploadItemCreationDate (H := noElectron) (H0 := takeoutImports)
      (uploadItem takeoutClip) (PLPA_fileType takeoutClip) gJSON = Ok gDate /\
    (haveSameishDate fDate gDate = true \/ present fJSON = negb (present gJSON)).
Proof.
  apply (areLivePhotoAssets_true (H := noElectron) (H0 := takeoutImports)
           takeoutStill takeoutClip takeoutJSON).
  vm_compute. reflexivity.
Defined.

Lemma areLivePhotoAssets_swap_witness :
  areLivePhotoAssets (H := noElectron) (H0 := takeoutImports)
    takeoutClip takeoutStill takeoutJSON = Ok true.
Proof.
  apply (areLivePhotoAssets_swap (H := noElectron) (H0 := takeoutImports)
           takeoutStill takeoutClip takeoutJSON true).
  vm_compute. reflexivity.
Defined.

End LivePhotoFacts.

(** ** The multipart upload *)

Module MultipartFacts.

Import UploadTransportFacts.

Lemma partDatas_length : forall k (s : ReadableStream),
  length (partDatas k s).1 = k.
Proof.
  induction k as [|k IH]; intros s; [done|].
  cbn [partDatas]. rewrite nextMultipartUploadPart_eq.
  specialize (IH (drop 5 s)). destruct (partDatas k (drop 5 s)). simpl in *. lia.
Qed.

(** The parts that [k] calls make, and what is left of the stream, are
    the bytes of the stream. *)
Lemma partDatas_concat : forall k (s : ReadableStream),
  concat (partDatas k s).1 ++ concat (partDatas k s).2 = concat s.
Proof.
  induction k as [|k IH]; intros s; [done|].
  cbn [partDatas]. rewrite nextMultipartUploadPart_eq.
  specialize (IH (drop 5 s)). destruct (partDatas k (drop 5 s)) as [ds rest].
  simpl in *. rewrite <- app_assoc, IH, <- concat_app. by rewrite take_drop.
Qed.

Lemma partDatas_rest : forall k (s : ReadableStream),
  (partDatas k s).2 = drop (5 * k) s.
Proof.
  induction k as [|k IH]; intros s; [done|].
  cbn [partDatas]. rewrite nextMultipartUploadPart_eq.
  specialize (IH (drop 5 s)). destruct (partDatas k (drop 5 s)) as [ds rest].
  simpl in *. rewrite IH, drop_drop. f_equal. lia.
Qed.

Section Loop.
Context `{Outside}.
Variables (isCFUploadProxyDisabled : bool) (fileLocalID : Z).

(** The size that the loop adds up is that of the parts it has put. *)
Lemma uploadParts_size percentPerPart urls : forall index st w st' w',
  uploadParts isCFUploadProxyDisabled fileLocalID percentPerPart urls index st w
    = (Ok st', w') ->
  parts_fileSize st' =
    parts_fileSize st + len (concat (partDatas (length urls) (streamReader st)).1).
Proof.
  induction urls as [|u urls IH]; intros index st w st' w' Hrun.
  - injection Hrun as <- <-. unfold len. simpl. lia.
  - rewrite uploadParts_cons in Hrun.
    destruct (userCancelled (calls w)); [done|]. cbv zeta in Hrun.
    destruct (putFilePart _ _ _ _) as [[eTag|]|e]; try done.
    destruct (truthy eTag); [|done].
    apply IH in Hrun. simpl in Hrun. rewrite Hrun.
    cbn [length partDatas].
    destruct (nextMultipartUploadPart (streamReader st)) as [d rd]. simpl.
    destruct (partDatas (length urls) rd) as [ds rd']. simpl.
    rewrite len_app. lia.
Qed.

(** X14.  A multipart upload that returns has read the stream to its end:
    it has put one part per part URL, the parts, one after the other, are
    the bytes of the stream, the size it returns is the number of these
    bytes, and the stream had at most five chunks per part URL.  The
    completion call is the last of its calls to remote that carry data. *)
Theorem uploadStreamUsingMultipart_whole_stream (dataStream : EncryptedFileStream)
    (maxPercent : Z) (w w' : World) (objectKey : string) (fileSize : Z) :
  uploadStreamUsingMultipart fileLocalID dataStream isCFUploadProxyDisabled maxPercent w
    = (Ok (objectKey, fileSize), w') ->
  exists urls eTags datas,
    fetchMultipartUploadURLs (calls w)
      (ceil_div (encrypted_chunkCount dataStream) multipartChunksPerPart)
      (publicAlbumsCredentials w) = Ok urls /\
    objectKey = multipart_objectKey urls /\
    length datas = length (partURLs urls) /\
    length eTags = length (partURLs urls) /\
    concat datas = concat (encrypted_stream dataStream) /\
    fileSize = len (concat (encrypted_stream dataStream)) /\
    (length (encrypted_stream dataStream) <= 5 * length (partURLs urls))%nat /\
    uploadsOf (calls w') =
      uploadsOf (calls w) ++
      zip_with (PutFilePart (negb isCFUploadProxyDisabled)) (partURLs urls) datas ++
      [CompleteMultipartUpload (negb isCFUploadProxyDisabled) (completeURL urls)
         (numbered 1 eTags)].
Proof.
  intros Hrun.
  destruct (uploadStreamUsingMultipart_Ok _ _ _ _ _ _ _ Hrun)
    as (urls & eTags & Hfetch & HeTags & Hrest & Hup).
  exists urls, eTags, (partDatas (length (partURLs urls)) (encrypted_stream dataStream)).1.
  pose proof (partDatas_concat (length (partURLs urls)) (encrypted_stream dataStream)) as Hcat.
  rewrite Hrest in Hcat. simpl in Hcat. rewrite app_nil_r in Hcat.
  split; [done|].
  revert Hrun. unfold uploadStreamUsingMultipart, serviceFetchMultipartUploadURLs.
  unfold mbind at 1 2, Eff_bind, get, call. simpl. rewrite Hfetch.
  unfold mbind at 1, Eff_bind.
  destruct (uploadParts _ _ _ _ _ _ _) as [[st|e] w1] eqn:Hparts; [|done].
  apply uploadParts_size in Hparts. simpl in Hparts.
  destruct (read (streamReader st)) as [[c|] rest]; [done|].
  unfold mbind, Eff_bind, call. simpl.
  destruct (completeMultipartUpload _ _ _ _); [|done].
  intros [= <- <- _].
  split; [done|]. split; [apply partDatas_length|]. split; [done|].
  split; [done|]. split; [by rewrite Hparts, Hcat|]. split; [|done].
  rewrite partDatas_rest in Hrest.
  apply (f_equal length) in Hrest. rewrite length_drop in Hrest. simpl in Hrest. lia.
Qed.

End Loop.

Lemma uploadStreamUsingMultipart_whole_stream_witness :
  exists urls eTags datas,
    fetchMultipartUploadURLs (Outside := obligingOutside neverCancelled) (calls freshWorld)
      (ceil_div 12 multipartChunksPerPart) (publicAlbumsCredentials freshWorld) = Ok urls /\
    "big"%string = multipart_objectKey urls /\
    length datas = length (partURLs urls) /\
    length eTags = length (partURLs urls) /\
    concat datas = concat ((fun i : nat => [Byte.x61]) <$> seq 1 12) /\
    12 = len (concat ((fun i : nat => [Byte.x61]) <$> seq 1 12)) /\
    (length ((fun i : nat => [Byte.x61]) <$> seq 1 12) <= 5 * length (partURLs urls))%nat /\
    uploadsOf (calls
      (uploadStreamUsingMultipart (H := obligingOutside neverCancelled) 1
         {| encrypted_stream := (fun i : nat => [Byte.x61]) <$> seq 1 12;
            encrypted_chunkCount := 12 |} false 97 freshWorld).2) =
      uploadsOf (calls freshWorld) ++
      zip_with (PutFilePart (negb false)) (partURLs urls) datas ++
      [CompleteMultipartUpload (negb false) (completeURL urls) (numbered 1 eTags)].
Proof.
  refine (uploadStreamUsingMultipart_whole_stream (H := obligingOutside neverCancelled)
            false 1
            {| encrypted_stream := (fun i : nat => [Byte.x61]) <$> seq 1 12;
               encrypted_chunkCount := 12 |} 97 freshWorld
            (uploadStreamUsingMultipart (H := obligingOutside neverCancelled) 1
               {| encrypted_stream := (fun i : nat => [Byte.x61]) <$> seq 1 12;
                  encrypted_chunkCount := 12 |} false 97 freshWorld).2
            "big"%string 12 _).
  vm_compute. reflexivity.
Defined.

Section MissingETag.
Context `{Outside} `{Stages}.

(** X15.  When the response to the [PUT] of a part has no [ETag], or an
    empty one, the multipart upload throws the error of
    [CustomErrorMessage.eTagMissing] there: the parts before and this one
    have been put, no other is, and the upload is not completed.  In
    [upload] this error, when [handleUploadError] gives it back, makes the
    result [blocked]. *)
Theorem missing_eTag_blocks (fileLocalID : Z)
    (dataStream : EncryptedFileStream) (isCFUploadProxyDisabled : bool)
    (maxPercent : Z) (w w1 : World) (urls : MultipartUploadURLs)
    (done rest : list string) (u : string) (st1 : PartsState) (eTag : option string) :
  let n := ceil_div (encrypted_chunkCount dataStream) multipartChunksPerPart in
  let partData := (nextMultipartUploadPart (streamReader st1)).1 in
  let viaWorker := negb isCFUploadProxyDisabled in
  fetchMultipartUploadURLs (calls w) n (publicAlbumsCredentials w) = Ok urls ->
  partURLs urls = done ++ u :: rest ->
  uploadParts isCFUploadProxyDisabled fileLocalID (inject_Z maxPercent / inject_Z n)
    done 0
    {| streamReader := encrypted_stream dataStream; parts_fileSize := 0;
       completedParts := [] |}
    (logged (FetchMultipartUploadURLs n (publicAlbumsCredentials w)) w) = (Ok st1, w1) ->
  userCancelled (calls w1) = false ->
  putFilePart (calls (logged AbortIfCancelled w1)) viaWorker u partData = Ok eTag ->
  eTag = None \/ eTag = Some ""%string ->
  let w2 := logged (PutFilePart viaWorker u partData) (logged AbortIfCancelled w1) in
  uploadStreamUsingMultipart fileLocalID dataStream isCFUploadProxyDisabled maxPercent w
    = (Throw eTagMissing, w2) /\
  uploadsOf (calls w2) =
    uploadsOf (calls w) ++
    zip_with (PutFilePart viaWorker) done
      (partDatas (length done) (encrypted_stream dataStream)).1 ++
    [PutFilePart viaWorker u partData] /\
  (handleUploadError eTagMissing = Ok eTagMissing ->
   upload_catch eTagMissing = Ok {| uploadResult := blocked; uploadedFile := None |}).
Proof.
  intros n partData viaWorker Hfetch Hurls Hdone Hflag Hput HeTag w2.
  repeat apply conj.
  - unfold uploadStreamUsingMultipart, serviceFetchMultipartUploadURLs.
    unfold mbind at 1 2, Eff_bind, get, call. simpl. fold n. rewrite Hfetch.
    unfold mbind at 1, Eff_bind. rewrite Hurls, uploadParts_app, Hdone.
    rewrite uploadParts_cons, Hflag. cbv zeta. fold partData viaWorker.
    rewrite Hput. by destruct HeTag as [->| ->].
  - apply uploadParts_Ok in Hdone as (_ & _ & Hup & _). simpl in *.
    rewrite !uploadsOf_app in *. simpl in *. rewrite !app_nil_r in *.
    by rewrite Hup, <- app_assoc.
  - intros Hh. unfold upload_catch. by rewrite Hh.
Qed.

End MissingETag.

(** The first turn of the loop for the twelve chunks. *)
Definition firstPartPut : result PartsState * World :=
  uploadParts (H := secondPartWithoutETag) false 1
    (inject_Z 97 / inject_Z 3) ["part1"%string] 0
    {| streamReader := (fun i : nat => [Byte.x61]) <$> seq 1 12;
       parts_fileSize := 0; completedParts := [] |}
    (logged (FetchMultipartUploadURLs 3 None) freshWorld).

Lemma missing_eTag_blocks_witness :
  let a := Byte.x61 in
  let w2 := logged (PutFilePart true "part2" [a; a; a; a; a])
              (logged AbortIfCancelled firstPartPut.2) in
  uploadStreamUsingMultipart (H := secondPartWithoutETag) 1
    {| encrypted_stream := (fun i : nat => [Byte.x61]) <$> seq 1 12;
       encrypted_chunkCount := 12 |} false 97 freshWorld
    = (Throw eTagMissing, w2) /\
  uploadsOf (calls w2) =
    [ PutFilePart true "part1" [a; a; a; a; a];
      PutFilePart true "part2" [a; a; a; a; a] ] /\
  upload_catch (H := twelveChunkStages Ok) eTagMissing
    = Ok {| uploadResult := blocked; uploadedFile := None |}.
Proof.
  destruct (missing_eTag_blocks (H := secondPartWithoutETag)
              (H0 := twelveChunkStages Ok) 1
              {| encrypted_stream := (fun i : nat => [Byte.x61]) <$> seq 1 12;
                 encrypted_chunkCount := 12 |} false 97 freshWorld firstPartPut.2
              {| multipart_objectKey := "big";
                 partURLs := ["part1"; "part2"; "part3"]%string;
                 completeURL := "complete" |}
              ["part1"%string] ["part3"%string] "part2"%string
              {| streamReader := (fun i : nat => [Byte.x61]) <$> seq 6 7;
                 parts_fileSize := 5;
                 completedParts := [ {| partNumber := 1; eTag := "etag-part1" |} ] |}
              None)
    as (Hthrown & Hputs & Hblocked);
    [vm_compute; reflexivity.. | by left |].
  split; [exact Hthrown|]. split; [exact Hputs|]. by apply Hblocked.
Defined.

End MultipartFacts.

(** ** The pool of upload URLs *)

Module UploadServiceFacts.

Import UploadTransportFacts.

(** [n] calls of [getUploadURL] in a row: the URLs they return. *)
Fixpoint getUploadURLs `{Outside} (n : nat) : Eff World (list ObjectUploadURL) :=
  match n with
  | O => mret []
  | S n =>
      u ← getUploadURL;
      us ← getUploadURLs n;
      mret (u :: us)
  end.

Section Pool.
Context `{Outside}.

(** From a pool that is not empty, the last URL is taken, and that is all
    that happens. *)
Lemma getUploadURL_pop (w : World) (pool : list ObjectUploadURL) (u : ObjectUploadURL) :
  uploadURLs w = pool ++ [u] ->
  getUploadURL w = (Ok u, withUploadURLs pool w).
Proof.
  intros Hpool. unfold getUploadURL, mbind, Eff_bind, get, popUploadURL, mret, Eff_ret.
  rewrite Hpool. unfold len. rewrite length_app.
  replace (Z.of_nat (length pool + length [u]) =? 0) with false
    by (symmetry; apply Z.eqb_neq; simpl; lia).
  cbn [andb]. by rewrite Hpool, last_snoc, removelast_last.
Qed.

Lemma getUploadURLs_pool : forall (pool : list ObjectUploadURL) (w : World),
  uploadURLs w = pool ->
  getUploadURLs (length pool) w = (Ok (rev pool), withUploadURLs [] w).
Proof.
  induction pool as [|u pool IH] using rev_ind; intros w Hpool.
  - simpl. unfold mret, Eff_ret. f_equal. destruct w. simpl in *. by subst.
  - rewrite length_app, Nat.add_comm. cbn [length Nat.add getUploadURLs].
    unfold mbind at 1, Eff_bind. rewrite (getUploadURL_pop w pool u Hpool).
    unfold mbind, Eff_bind. rewrite IH by done.
    by rewrite rev_unit.
Qed.

(** X16.  As long as the pool of upload URLs is not empty, [getUploadURL]
    takes the URL that was added last and makes no request: as many calls as
    the pool has URLs return them, last one first, leave the pool empty and
    the list of calls to remote as it was.  With an empty pool and nothing
    pending, as after [logout], it throws "Failed to obtain upload URL", also
    without a request. *)
Theorem getUploadURL_from_pool (w : World) :
  getUploadURLs (length (uploadURLs w)) w
    = (Ok (rev (uploadURLs w)), withUploadURLs [] w) /\
  calls (withUploadURLs [] w) = calls w /\
  getUploadURL (logout w).2 = (Throw FailedToObtainUploadURL, (logout w).2) /\
  calls (logout w).2 = calls w.
Proof.
  split; [by apply getUploadURLs_pool|]. split; [done|]. split; done.
Qed.

Lemma length_remove_dups_le {A} `{EqDecision A} (l : list A) :
  (length (remove_dups l) <= length l)%nat.
Proof.
  induction l as [|x l IH]; simpl; [done|].
  destruct (decide_rel _ _ _); simpl; lia.
Qed.

(** [a.length == new Set(a).size] holds of the arrays without a repeat. *)
Lemma length_remove_dups_NoDup {A} `{EqDecision A} (l : list A) :
  length l = length (remove_dups l) <-> NoDup l.
Proof.
  induction l as [|x l IH]; simpl.
  - split; [constructor | done].
  - pose proof (length_remove_dups_le l).
    destruct (decide_rel _ _ _) as [Hin|Hin]; simpl.
    + split; [lia|]. intros Hnd. by apply NoDup_cons in Hnd as [? _].
    + rewrite NoDup_cons. split.
      * intros [= Hlen]. by split; [|apply IH].
      * intros [_ Hnd]. f_equal. by apply IH.
Qed.

Lemma ensureUniqueUploadURLs_run (w : World) :
  ensureUniqueUploadURLs w =
    (if decide (NoDup (url <$> uploadURLs w)) then Ok tt else Throw DuplicateUploadURLs, w).
Proof.
  unfold ensureUniqueUploadURLs.
  destruct (decide (NoDup (url <$> uploadURLs w))) as [Hnd|Hnd].
  - apply length_remove_dups_NoDup in Hnd.
    rewrite length_fmap in Hnd. rewrite Hnd, Nat.eqb_refl. done.
  - destruct (Nat.eqb_spec (length (uploadURLs w))
                (length (remove_dups (url <$> uploadURLs w)))) as [Heq|Hne]; [|done].
    exfalso. apply Hnd, length_remove_dups_NoDup. by rewrite length_fmap.
Qed.

(** [getUploadURL] when the pool is empty and uploads are pending. *)
Lemma getUploadURL_refill (w : World) :
  uploadURLs w = [] ->
  pendingUploadCount w <> 0 ->
  let fetch := FetchUploadURLs (pendingUploadCount w) (publicAlbumsCredentials w) in
  getUploadURL w =
    match fetchUploadURLs (calls w) (pendingUploadCount w) (publicAlbumsCredentials w) with
    | Throw e => (Throw e, logged fetch w)
    | Ok urls =>
        let w1 := withUploadURLs urls (logged fetch w) in
        if decide (NoDup (url <$> urls))
        then match last urls with
             | Some u => (Ok u, withUploadURLs (removelast urls) w1)
             | None => (Throw FailedToObtainUploadURL, withUploadURLs [] w1)
             end
        else (Throw DuplicateUploadURLs, w1)
    end.
Proof.
  intros Hpool Hpending fetch.
  unfold getUploadURL, mbind at 1 2, Eff_bind, get. rewrite Hpool.
  change (len (@nil ObjectUploadURL) =? 0) with true.
  replace (truthy (pendingUploadCount w)) with true
    by (symmetry; unfold truthy, truthy_Z; apply negb_true_iff, Z.eqb_neq; done).
  cbn [andb]. unfold mbind, Eff_bind.
  unfold refillUploadURLs. rewrite Hpool. fold fetch.
  destruct (fetchUploadURLs _ _ _) as [urls|e]; [|done].
  cbn [app]. rewrite ensureUniqueUploadURLs_run. cbn [uploadURLs withUploadURLs].
  destruct (decide (NoDup (url <$> urls))); [|done].
  unfold popUploadURL, throw, mret, Eff_ret. cbn [uploadURLs withUploadURLs].
  destruct (last urls) as [u|] eqn:Hlast; [done|].
  apply last_None in Hlast. by subst.
Qed.




End Pool.


Section Duplicates.
Context `{Outside}.

(** X18.  A refill that brings the same URL twice makes [getUploadURL]
    throw "Duplicate upload URLs detected", but the URLs stay in the pool:
    the next call takes one of them without a check, and without a
    request. *)
Theorem duplicate_urls_stay (w : World) (urls : list ObjectUploadURL) :
  uploadURLs w = [] ->
  pendingUploadCount w <> 0 ->
  fetchUploadURLs (calls w) (pendingUploadCount w) (publicAlbumsCredentials w) = Ok urls ->
  ~ NoDup (url <$> urls) ->
  exists w1 rest u,
    getUploadURL w = (Throw DuplicateUploadURLs, w1) /\
    uploadURLs w1 = urls /\
    urls = rest ++ [u] /\
    getUploadURL w1 = (Ok u, withUploadURLs rest w1) /\
    calls (withUploadURLs rest w1) = calls w1.
Proof.
  intros Hpool Hpending Hfetch Hdup.
  rewrite getUploadURL_refill, Hfetch by done. cbv zeta.
  destruct (decide (NoDup (url <$> urls))); [done|].
  destruct (last_is_Some urls) as [_ [u Hlast]].
  { intros ->. apply Hdup. constructor. }
  apply last_Some in Hlast as [rest ->].
  eexists _, rest, u. split; [reflexivity|]. split; [reflexivity|].
  split; [reflexivity|]. split; [|reflexivity].
  by apply getUploadURL_pop.
Qed.

End Duplicates.

Lemma duplicate_urls_stay_witness :
  exists w1 rest u,
    getUploadURL (H := repeatingOutside) freshWorld = (Throw DuplicateUploadURLs, w1) /\
    uploadURLs w1 = [ {| objectKey := "object1"; url := "url1" |};
                      {| objectKey := "object2"; url := "url1" |} ] /\
    [ {| objectKey := "object1"; url := "url1" |};
      {| objectKey := "object2"; url := "url1" |} ] = rest ++ [u] /\
    getUploadURL (H := repeatingOutside) w1 = (Ok u, withUploadURLs rest w1) /\
    calls (withUploadURLs rest w1) = calls w1.
Proof.
  apply (duplicate_urls_stay (H := repeatingOutside) freshWorld).
  - reflexivity.
  - discriminate.
  - reflexivity.
  - simpl. intros Hnd. apply NoDup_cons in Hnd as [Hin _].
    apply Hin, list_elem_of_here.
Defined.

Section Prefetch.
Context `{Outside} `{Stages}.

(** X19.  [setFileCount] notes the count whatever happens next, and asks
    remote once, for that many URLs.  The URLs that come are added to the
    pool.  A request that fails does not make [setFileCount] fail when
    [handleUploadError] returns: the pool is then as it was. *)
Theorem setFileCount_prefetches (fileCount : Z) (w : World) :
  let after := (setFileCount fileCount w).2 in
  let credentials := publicAlbumsCredentials w in
  pendingUploadCount after = fileCount /\
  calls after = calls w ++ [FetchUploadURLs fileCount credentials] /\
  publicAlbumsCredentials after = credentials /\
  (forall urls,
     fetchUploadURLs (calls w) fileCount credentials = Ok urls ->
     uploadURLs after = uploadURLs w ++ urls /\
     (setFileCount fileCount w).1 =
       if decide (NoDup (url <$> uploadURLs w ++ urls)) then Ok tt
       else Throw DuplicateUploadURLs) /\
  (forall e,
     fetchUploadURLs (calls w) fileCount credentials = Throw e ->
     uploadURLs after = uploadURLs w /\
     (setFileCount fileCount w).1 =
       match handleUploadError e with
       | Throw e' => Throw e'
       | Ok _ => if decide (NoDup (url <$> uploadURLs w)) then Ok tt
                 else Throw DuplicateUploadURLs
       end).
Proof.
  unfold setFileCount, preFetchUploadURLs, refillUploadURLs.
  cbn [calls pendingUploadCount publicAlbumsCredentials uploadURLs withPendingUploadCount].
  destruct (fetchUploadURLs (calls w) fileCount (publicAlbumsCredentials w))
    as [urls|e] eqn:Hfetch.
  - rewrite ensureUniqueUploadURLs_run. cbn.
    repeat apply conj; try done.
    intros urls' [= <-]. done.
  - destruct (handleUploadError e) as [e0|e'] eqn:Hh.
    + rewrite ensureUniqueUploadURLs_run. cbn.
      repeat apply conj; try done.
      intros e1 [= <-]. by rewrite Hh.
    + cbn. repeat apply conj; try done.
      intros e1 [= <-]. by rewrite Hh.
Qed.

End Prefetch.

(** Two files are announced; remote gives two URLs; two uploads take them,
    the second one first. *)
Example setFileCount_evaluated :
  let w := (setFileCount (H := obligingOutside neverCancelled)
              (H0 := twelveChunkStages Ok) 2 (logout freshWorld).2).2 in
  (getUploadURLs (H := obligingOutside neverCancelled) 2 w).1
    = Ok [ {| objectKey := "object2"; url := "url2" |};
           {| objectKey := "object1"; url := "url1" |} ] /\
  calls (getUploadURLs (H := obligingOutside neverCancelled) 2 w).2
    = [FetchUploadURLs 2 None].
Proof. vm_compute. split; reflexivity. Qed.

End UploadServiceFacts.

(** ** The results of an upload *)

Module UploadFacts.

Import UploadTransportFacts.

Section Upload.
Context `{Electron} `{Imports} `{Outside} `{Stages}.
Variables (item : UploadableUploadItem) (uploaderName : string)
  (existingFiles : list EnteFile) (map : gmap string ParsedMetadataJSON)
  (worker : CryptoWorker) (isCFUploadProxyDisabled : bool).

(** Neither of the two extractions sets [hasStaticThumbnail]. *)
Lemma extractAssetMetadata_hasStaticThumbnail asset fileTypeInfo lastModifiedMs
    collectionID r :
  extractAssetMetadata asset fileTypeInfo lastModifiedMs collectionID map worker = Ok r ->
  hasStaticThumbnail (metadata r) = None.
Proof.
  assert (Himage : forall uploadItem pathPrefix ext fti lm cid r,
    extractImageOrVideoMetadata uploadItem pathPrefix ext fti lm cid map worker = Ok r ->
    hasStaticThumbnail (metadata r) = None).
  { intros uploadItem pathPrefix ext fti lm cid r0. unfold extractImageOrVideoMetadata.
    intros Hr. apply bind_Ok in Hr as (pm & _ & Hr).
    apply bind_Ok in Hr as (h & _ & Hr).
    destruct (if truthy _ then _ else _) as [ct pmm] in Hr.
    by injection Hr as <-. }
  unfold extractAssetMetadata.
  destruct (truthy (isLivePhoto asset)).
  - destruct (livePhotoAssets asset) as [lp|]; [|done].
    unfold extractLivePhotoMetadata. intros Hr.
    apply bind_Ok in Hr as (ri & Hi & Hr).
    apply bind_Ok in Hr as (vh & _ & Hr).
    injection Hr as <-. simpl. by apply Himage in Hi.
  - destruct (asset_uploadItem asset) as [uploadItem|]; [|done]. apply Himage.
Qed.

(** X20.  An asset whose size is 10 GiB or more is [tooLarge], and one
    whose type the detection does not support is [unsupported]: in either
    case [upload] returns at once, having called nothing but
    [readAssetDetails]. *)
Theorem upload_refuses (w : World) :
  let here := logged (Other "readAssetDetails") w in
  (forall details,
     readAssetDetails (uploadAsset item) = Ok details ->
     10 * 1024 * 1024 * 1024 <= details_fileSize details ->
     upload item uploaderName existingFiles map worker isCFUploadProxyDisabled w
     = (Ok {| uploadResult := tooLarge; uploadedFile := None |}, here)) /\
  (forall e,
     readAssetDetails (uploadAsset item) = Throw e ->
     isFileTypeNotSupportedError e = true ->
     upload item uploaderName existingFiles map worker isCFUploadProxyDisabled w
     = (Ok {| uploadResult := unsupported; uploadedFile := None |}, here)).
Proof.
  split.
  - intros details Hd Hsize. unfold upload, upload_try, stage, call. rewrite Hd.
    unfold upload_details.
    destruct (Z.geb_spec (details_fileSize details) (10 * 1024 * 1024 * 1024)); [done|lia].
  - intros e He Hun. unfold upload, upload_try, stage, call. by rewrite He, Hun.
Qed.

(** X21.  For an asset of less than 10 GiB, when the user has not
    cancelled: if the metadata extracted for the asset are those of files
    that exist already, nothing is uploaded.  If one of these files is in
    the collection, the result is [alreadyUploaded], with the first such
    file; if none is, the first of them is added to the collection as a
    symlink, and the result is [addedSymlink] (or what the [catch] block
    makes of a failure to add it). *)
Theorem upload_of_a_duplicate (w : World) (details : ReadAssetDetailsResult)
    (extracted : ExtractAssetMetadataResult) (anyMatch : EnteFile)
    (others : list EnteFile) :
  let collection := collection item in
  let w1 := logged (Other "readAssetDetails") w in
  let w3 := logged (Other "extractAssetMetadata") (logged AbortIfCancelled w1) in
  let w4 := logged (Other "addToCollection") w3 in
  let symlink := symlinkTo (collection_id collection) anyMatch in
  readAssetDetails (uploadAsset item) = Ok details ->
  details_fileSize details < 10 * 1024 * 1024 * 1024 ->
  userCancelled (calls w1) = false ->
  extractAssetMetadata (uploadAsset item) (fileTypeInfo details)
    (details_lastModifiedMs details) (collection_id collection) map worker
    = Ok extracted ->
  filter (fun file =>
            truthy (areFilesSame (EnteFile_metadata file) (metadata extracted)) = true)
    existingFiles = anyMatch :: others ->
  upload item uploaderName existingFiles map worker isCFUploadProxyDisabled w =
    match find (fun f => file_collectionID f =? collection_id collection)
            (anyMatch :: others) with
    | Some matchInSameCollection =>
        (Ok {| uploadResult := alreadyUploaded;
               uploadedFile := Some matchInSameCollection |}, w3)
    | None =>
        match addToCollection collection [symlink] with
        | Ok _ => (Ok {| uploadResult := addedSymlink; uploadedFile := Some symlink |}, w4)
        | Throw e => (upload_catch e, w4)
        end
    end /\
  uploadsOf
    (calls (upload item uploaderName existingFiles map worker isCFUploadProxyDisabled w).2)
  = uploadsOf (calls w).
Proof.
  intros collection w1 w3 w4 symlink Hd Hsize Hflag Hex Hmatches.
  assert (Hrun :
    upload item uploaderName existingFiles map worker isCFUploadProxyDisabled w =
    match find (fun f => file_collectionID f =? collection_id collection)
            (anyMatch :: others) with
    | Some matchInSameCollection =>
        (Ok {| uploadResult := alreadyUploaded;
               uploadedFile := Some matchInSameCollection |}, w3)
    | None =>
        match addToCollection collection [symlink] with
        | Ok _ => (Ok {| uploadResult := addedSymlink; uploadedFile := Some symlink |}, w4)
        | Throw e => (upload_catch e, w4)
        end
    end).
  { unfold upload, upload_try, stage, call. rewrite Hd. unfold upload_details.
    destruct (Z.geb_spec (details_fileSize details) (10 * 1024 * 1024 * 1024)); [lia|].
    unfold mbind at 1, Eff_bind. fold w1. rewrite abortIfCancelled_run, Hflag.
    unfold mbind at 1, Eff_bind, stage, call. fold collection. rewrite Hex.
    cbn [calls]. rewrite Hmatches.
    destruct (find _ (anyMatch :: others)) as [m|]; [done|].
    unfold mbind, Eff_bind, mret, Eff_ret. fold symlink.
    by destruct (addToCollection collection [symlink]). }
  split; [exact Hrun|]. rewrite Hrun.
  destruct (find _ _); [|destruct (addToCollection _ _)]; simpl;
    rewrite !uploadsOf_app; simpl; by rewrite !app_nil_r.
Qed.

(** X22.  A result of [uploaded] or [uploadedWithStaticThumbnail] means
    that no file that exists already had the metadata extracted for the
    asset, that [uploadToBucket] returned for the pieces that [encryptFile]
    made, and that the file returned is the one that remote made of them; the
    result is [uploadedWithStaticThumbnail] exactly when [readAsset] had to
    use the fallback thumbnail, and this is then also noted in the metadata
    that are encrypted. *)
Theorem upload_uploaded (w w' : World) (response : UploadResponse) :
  upload item uploaderName existingFiles map worker isCFUploadProxyDisabled w
    = (Ok response, w') ->
  uploadResult response = uploaded \/
    uploadResult response = uploadedWithStaticThumbnail ->
  let collection := collection item in
  exists details extracted thumbnailed pubMM pieces encryptedFileKey w1 backedUp w2 posted,
    readAssetDetails (uploadAsset item) = Ok details /\
    extractAssetMetadata (uploadAsset item) (fileTypeInfo details)
      (details_lastModifiedMs details) (collection_id collection) map worker
      = Ok extracted /\
    (forall f, f ∈ existingFiles ->
       truthy (areFilesSame (EnteFile_metadata f) (metadata extracted)) = false) /\
    readAsset (fileTypeInfo details) (uploadAsset item) = Ok thumbnailed /\
    constructPublicMagicMetadata
      (<["uploaderName"%string := VString uploaderName]> (publicMagicMetadata extracted))
      = Ok pubMM /\
    encryptFile
      {| fwm_localID := item_localID item;
         fwm_fileStreamOrData := fileStreamOrData thumbnailed;
         fwm_thumbnail := thumbnail thumbnailed;
         fwm_metadata :=
           if thumbnailed_hasStaticThumbnail thumbnailed
           then withStaticThumbnail (metadata extracted) else metadata extracted;
         fwm_pubMagicMetadata := pubMM |}
      (collection_key collection) worker = Ok (pieces, encryptedFileKey) /\
    uploadToBucket pieces isCFUploadProxyDisabled w1 = (Ok backedUp, w2) /\
    postFile (publicAlbumsCredentials w2)
      {| post_collectionID := collection_id collection;
         encryptedKey := encryptedFileKey.1;
         keyDecryptionNonce := encryptedFileKey.2;
         post_backedUp := backedUp |} = Ok posted /\
    uploadedFile response = Some posted /\
    (uploadResult response = uploadedWithStaticThumbnail <->
     thumbnailed_hasStaticThumbnail thumbnailed = true).
Proof.
  intros Hrun Hres collection. revert Hrun. unfold upload.
  destruct (upload_try _ _ _ _ _ _ w) as [[resp|e] w0] eqn:Htry.
  2:{ intros [= Hc <-]. apply upload_catch_results in Hc.
      destruct Hres as [Hr|Hr]; rewrite Hr in Hc; by destruct Hc as [|[|]]. }
  intros [= -> ->]. revert Htry. unfold upload_try, stage, call.
  destruct (readAssetDetails (uploadAsset item)) as [details|e] eqn:Hd.
  2:{ destruct (isFileTypeNotSupportedError e); [|done].
      intros [= <- _]. by destruct Hres. }
  unfold upload_details. fold collection.
  destruct (details_fileSize details >=? _).
  { intros [= <- _]. by destruct Hres. }
  unfold mbind at 1, Eff_bind. rewrite abortIfCancelled_run.
  destruct (userCancelled _); [done|].
  unfold mbind at 1, Eff_bind, stage, call.
  destruct (extractAssetMetadata _ _ _ _ _ _) as [extracted|e] eqn:Hex; [|done].
  cbn [calls].
  destruct (filter _ existingFiles) as [|anyMatch others] eqn:Hmatches.
  2:{ destruct (find _ _).
      - intros [= <- _]. by destruct Hres.
      - unfold mbind, Eff_bind, mret, Eff_ret.
        destruct (addToCollection _ _); [|done]. intros [= <- _]. by destruct Hres. }
  unfold mbind at 1, Eff_bind. rewrite abortIfCancelled_run.
  destruct (userCancelled _); [done|].
  unfold mbind at 1, Eff_bind.
  destruct (readAsset _ _) as [thumbnailed|e] eqn:Hread; [|done].
  unfold mbind at 1, Eff_bind.
  destruct (constructPublicMagicMetadata _) as [pubMM|e] eqn:Hpub; [|done].
  unfold mbind at 1, Eff_bind. rewrite abortIfCancelled_run.
  destruct (userCancelled _); [done|].
  unfold mbind at 1, Eff_bind.
  destruct (encryptFile _ _ _) as [[pieces key]|e] eqn:Henc; [|done].
  unfold mbind at 1, Eff_bind. rewrite abortIfCancelled_run.
  destruct (userCancelled _); [done|].
  unfold mbind at 1, Eff_bind.
  destruct (uploadToBucket pieces isCFUploadProxyDisabled _) as [[backedUp|e] w2] eqn:Hup;
    [|done].
  unfold mbind at 1, Eff_bind. rewrite abortIfCancelled_run.
  destruct (userCancelled _); [done|].
  unfold mbind at 1, Eff_bind, get.
  unfold mbind, Eff_bind, mret, Eff_ret.
  destruct (postFile _ _) as [posted|e] eqn:Hpost; [|done].
  intros [= <- _].
  pose proof (extractAssetMetadata_hasStaticThumbnail _ _ _ _ _ Hex) as Hstatic.
  eexists details, extracted, thumbnailed, pubMM, pieces, key, _, backedUp, w2, posted.
  split; [done|]. split; [done|]. split.
  { intros f Hf. destruct (truthy (areFilesSame _ _)) eqn:Hsame; [|done].
    assert (Hin : f ∈ filter
              (fun file => truthy (areFilesSame (EnteFile_metadata file)
                                    (metadata extracted)) = true) existingFiles)
      by (by apply list_elem_of_filter).
    rewrite Hmatches in Hin. by apply elem_of_nil in Hin. }
  split; [done|]. split; [done|]. split; [done|]. split; [exact Hup|].
  split; [exact Hpost|]. split; [done|]. cbn [uploadResult].
  destruct (thumbnailed_hasStaticThumbnail thumbnailed); cbn [hasStaticThumbnail withStaticThumbnail].
  - done.
  - rewrite Hstatic. done.
Qed.

End Upload.

Lemma upload_refuses_witness :
  upload (H := noElectron) (H0 := plainImports) (H1 := obligingOutside neverCancelled)
    (H2 := readingStages (Ok tenGiB) false) anItem "" [] ∅ echoWorker false freshWorld
  = (Ok {| uploadResult := tooLarge; uploadedFile := None |},
     logged (Other "readAssetDetails") freshWorld) /\
  upload (H := noElectron) (H0 := plainImports) (H1 := obligingOutside neverCancelled)
    (H2 := readingStages (Throw UnexpectedFileType) true) anItem "" [] ∅ echoWorker
    false freshWorld
  = (Ok {| uploadResult := unsupported; uploadedFile := None |},
     logged (Other "readAssetDetails") freshWorld).
Proof.
  split.
  - refine (proj1 (upload_refuses (H := noElectron) (H0 := plainImports)
                     (H1 := obligingOutside neverCancelled)
                     (H2 := readingStages (Ok tenGiB) false)
                     anItem "" [] ∅ echoWorker false freshWorld) tenGiB _ _).
    + reflexivity.
    + vm_compute. discriminate.
  - refine (proj2 (upload_refuses (H := noElectron) (H0 := plainImports)
                     (H1 := obligingOutside neverCancelled)
                     (H2 := readingStages (Throw UnexpectedFileType) true)
                     anItem "" [] ∅ echoWorker false freshWorld) UnexpectedFileType _ _);
      reflexivity.
Defined.

(** Two copies exist, the second of them in the collection of the item:
    it is the one returned. *)
Lemma upload_of_a_duplicate_witness :
  upload (H := noElectron) (H0 := plainImports) (H1 := obligingOutside neverCancelled)
    (H2 := twelveChunkStages Ok) anItem ""
    [syncedFile; storedCopy 21 9; storedCopy 22 7] ∅ echoWorker false freshWorld
  = (Ok {| uploadResult := alreadyUploaded; uploadedFile := Some (storedCopy 22 7) |},
     logged (Other "extractAssetMetadata")
       (logged AbortIfCancelled (logged (Other "readAssetDetails") freshWorld))) /\
  uploadsOf
    (calls (upload (H := noElectron) (H0 := plainImports)
              (H1 := obligingOutside neverCancelled) (H2 := twelveChunkStages Ok) anItem ""
              [syncedFile; storedCopy 21 9; storedCopy 22 7] ∅ echoWorker false
              freshWorld).2)
  = uploadsOf (calls freshWorld).
Proof.
  refine (upload_of_a_duplicate (H := noElectron) (H0 := plainImports)
            (H1 := obligingOutside neverCancelled) (H2 := twelveChunkStages Ok)
            anItem "" [syncedFile; storedCopy 21 9; storedCopy 22 7] ∅ echoWorker false
            freshWorld
            {| fileTypeInfo := {| FileTypeInfo_fileType := image;
                                  extension := Some "jpg"%string;
                                  imageType := None; videoType := None |};
               details_fileSize := 3; details_lastModifiedMs := 1700000000000 |}
            {| metadata := EnteFile_metadata (storedCopy 21 9);
               publicMagicMetadata := ∅ |}
            (storedCopy 21 9) [storedCopy 22 7] _ _ _ _ _).
  - reflexivity.
  - vm_compute. reflexivity.
  - vm_compute. reflexivity.
  - vm_compute. reflexivity.
  - vm_compute. reflexivity.
Defined.

Lemma upload_uploaded_witness :
  exists details extracted thumbnailed pubMM pieces encryptedFileKey w1 backedUp w2 posted,
    readAssetDetails (Stages := twelveChunkStages Ok) (uploadAsset anItem) = Ok details /\
    extractAssetMetadata (H := noElectron) (H0 := plainImports) (uploadAsset anItem)
      (fileTypeInfo details) (details_lastModifiedMs details) 7 ∅ echoWorker
      = Ok extracted /\
    (forall f, f ∈ [syncedFile] ->
       truthy (areFilesSame (EnteFile_metadata f) (metadata extracted)) = false) /\
    readAsset (Stages := twelveChunkStages Ok) (fileTypeInfo details) (uploadAsset anItem)
      = Ok thumbnailed /\
    constructPublicMagicMetadata (Stages := twelveChunkStages Ok)
      (<["uploaderName"%string := VString ""]> (publicMagicMetadata extracted))
      = Ok pubMM /\
    encryptFile (Stages := twelveChunkStages Ok)
      {| fwm_localID := 1;
         fwm_fileStreamOrData := fileStreamOrData thumbnailed;
         fwm_thumbnail := thumbnail thumbnailed;
         fwm_metadata :=
           if thumbnailed_hasStaticThumbnail thumbnailed
           then withStaticThumbnail (metadata extracted) else metadata extracted;
         fwm_pubMagicMetadata := pubMM |}
      "ck" echoWorker = Ok (pieces, encryptedFileKey) /\
    uploadToBucket (H := obligingOutside neverCancelled) pieces false w1
      = (Ok backedUp, w2) /\
    postFile (Stages := twelveChunkStages Ok) (publicAlbumsCredentials w2)
      {| post_collectionID := 7;
         encryptedKey := encryptedFileKey.1;
         keyDecryptionNonce := encryptedFileKey.2;
         post_backedUp := backedUp |} = Ok posted /\
    Some syncedFile = Some posted /\
    (uploaded = uploadedWithStaticThumbnail <->
     thumbnailed_hasStaticThumbnail thumbnailed = true).
Proof.
  refine (upload_uploaded (H := noElectron) (H0 := plainImports)
            (H1 := obligingOutside neverCancelled) (H2 := twelveChunkStages Ok)
            anItem "" [syncedFile] ∅ echoWorker false freshWorld
            (upload (H := noElectron) (H0 := plainImports)
               (H1 := obligingOutside neverCancelled) (H2 := twelveChunkStages Ok)
               anItem "" [syncedFile] ∅ echoWorker false freshWorld).2
            {| uploadResult := uploaded; uploadedFile := Some syncedFile |} _ _).
  - vm_compute. reflexivity.
  - left. reflexivity.
Defined.

End UploadFacts.

(** ** What is shown of a file *)

Module FileDisplayFacts.

Import MetadataStoreFacts.

(** The number of colons of a string. *)
Fixpoint colons (s : string) : nat :=
  match s with
  | EmptyString => 0
  | String c s => (if Ascii.eqb c ":" then 1 else 0) + colons s
  end.

(** A number below 60 in two digits. *)
Definition twoDigits (n : Z) : string :=
  if n <? 10 then ("0" ++ pretty n)%string else pretty n.

Lemma colons_app (a b : string) : colons (a +:+ b) = (colons a + colons b)%nat.
Proof. induction a as [|c a IH]; simpl; [done|]. rewrite IH. lia. Qed.

Lemma pretty_N_char_colon (n : N) : Ascii.eqb (pretty_N_char n) ":" = false.
Proof.
  destruct n as [|p]; [done|].
  do 4 (destruct p as [p|p|]; try done).
Qed.

Lemma colons_pretty_N_go (x : N) : forall s, colons (pretty_N_go x s) = colons s.
Proof.
  induction (N.lt_wf_0 x) as [x _ IH]. intros s.
  destruct (decide (x = 0)%N) as [->|Hx]; [by rewrite pretty_N_go_0|].
  rewrite pretty_N_go_step by lia.
  rewrite IH by (apply N.div_lt; lia). simpl. by rewrite pretty_N_char_colon.
Qed.

Lemma colons_pretty (z : Z) : colons (pretty z) = 0%nat.
Proof.
  assert (HN : forall n : N, colons (pretty n) = 0%nat).
  { intros n. unfold pretty, pretty_N. case_decide; [done|].
    by rewrite colons_pretty_N_go. }
  destruct z as [|p|p]; [done|apply HN|].
  unfold pretty, pretty_Z. rewrite colons_app. simpl. apply HN.
Qed.

Lemma colons_twoDigits (n : Z) : colons (twoDigits n) = 0%nat.
Proof.
  unfold twoDigits. destruct (n <? 10); [|apply colons_pretty].
  rewrite colons_app. simpl. apply colons_pretty.
Qed.

(** Where the first colon is, the parts before and after it are known. *)
Lemma split_colon (a a' b b' : string) :
  colons a = 0%nat -> colons a' = 0%nat ->
  a +:+ ":" +:+ b = a' +:+ ":" +:+ b' -> a = a' /\ b = b'.
Proof.
  revert a'. induction a as [|c a IH]; intros [|c' a'] Ha Ha' Heq.
  - by injection Heq.
  - injection Heq as <- _. simpl in Ha'. done.
  - injection Heq as -> _. simpl in Ha. done.
  - injection Heq as -> Heq. simpl in Ha, Ha'.
    destruct (Ascii.eqb c' ":"); [done|].
    destruct (IH a' Ha Ha' Heq) as [-> ->]. done.
Qed.

Lemma twoDigits_inj (m n : Z) :
  0 <= m < 60 -> 0 <= n < 60 -> twoDigits m = twoDigits n -> m = n.
Proof.
  intros Hm Hn Heq.
  assert (Hall : forallb (fun i =>
                    forallb (fun j =>
                      implb (String.eqb (twoDigits i) (twoDigits j)) (i =? j))
                      (seqZ 0 60)) (seqZ 0 60) = true)
    by (vm_compute; reflexivity).
  rewrite forallb_forall in Hall.
  specialize (Hall m). rewrite forallb_forall in Hall.
  assert (Hin : forall i, 0 <= i < 60 -> In i (seqZ 0 60)).
  { intros i Hi. apply list_elem_of_In, elem_of_seqZ. lia. }
  specialize (Hall (Hin m Hm) n (Hin n Hn)).
  rewrite Heq, String.eqb_refl in Hall. simpl in Hall. by apply Z.eqb_eq.
Qed.

(** The string of a positive duration: minutes and seconds, after the
    hours when there is one or more. *)
Lemma fileDurationString_pos (file : EnteFile) (d : Z) :
  duration (EnteFile_metadata file) = Some d -> 0 < d ->
  let h := d / 3600 in
  let m := (d / 60) mod 60 in
  let s := d mod 60 in
  d = 3600 * h + 60 * m + s /\ 0 <= h /\ 0 <= m < 60 /\ 0 <= s < 60 /\
  fileDurationString file =
    Some (if h =? 0 then pretty m +:+ ":" +:+ twoDigits s
          else pretty h +:+ ":" +:+ twoDigits m +:+ ":" +:+ twoDigits s).
Proof.
  intros Hd Hpos h m s.
  assert (Hs : 0 <= s < 60) by (apply Z.mod_pos_bound; lia).
  assert (Hm : 0 <= m < 60) by (apply Z.mod_pos_bound; lia).
  assert (Hh : 0 <= h) by (apply Z.div_pos; lia).
  assert (Hsum : d = 3600 * h + 60 * m + s).
  { subst h m s. replace 3600 with (60 * 60) by done.
    rewrite <- Z.div_div by lia.
    pose proof (Z.div_mod d 60). pose proof (Z.div_mod (d / 60) 60). lia. }
  repeat split; try done; try lia.
  unfold fileDurationString. rewrite Hd.
  assert (Ht : truthy d = true).
  { unfold truthy, truthy_Z. apply negb_true_iff, Z.eqb_neq. lia. }
  rewrite Ht. cbn [negb].
  rewrite !Z.rem_mod_nonneg by (try apply Z.div_pos; lia).
  fold h m s.
  assert (Htwo : forall n, (if n >? 9 then pretty n else ("0" ++ pretty n)%string)
                           = twoDigits n).
  { intros n. unfold twoDigits. rewrite Z.gtb_ltb.
    destruct (Z.ltb_spec 9 n), (Z.ltb_spec n 10); try done; lia. }
  rewrite !Htwo. unfold truthy, truthy_Z. by destruct (h =? 0).
Qed.

(** X23.  A file has no duration string exactly when its metadata have
    no duration, or one of zero.  Two positive durations that differ are
    never shown by the same string. *)
Theorem fileDurationString_distinct (f g : EnteFile) :
  (fileDurationString f = None <->
   duration (EnteFile_metadata f) = None \/ duration (EnteFile_metadata f) = Some 0) /\
  (forall d e,
     duration (EnteFile_metadata f) = Some d ->
     duration (EnteFile_metadata g) = Some e ->
     0 < d -> 0 < e ->
     fileDurationString f = fileDurationString g -> d = e).
Proof.
  split.
  - unfold fileDurationString.
    destruct (duration (EnteFile_metadata f)) as [d|]; [|by split; [left|]].
    unfold truthy at 1, truthy_Z. destruct (Z.eqb_spec d 0) as [->|Hd]; cbn [negb].
    + by split; [right|].
    + split; [by destruct (truthy _)|]. intros [|[=]]; done.
  - intros d e Hd He Hdpos Hepos Heq.
    destruct (fileDurationString_pos f d Hd Hdpos) as (Hsum & _ & Hm & Hs & Hf).
    destruct (fileDurationString_pos g e He Hepos) as (Hsum' & _ & Hm' & Hs' & Hg).
    rewrite Hf, Hg in Heq. injection Heq as Heq.
    destruct (Z.eqb_spec (d / 3600) 0) as [Hh|Hh],
             (Z.eqb_spec (e / 3600) 0) as [Hh'|Hh'].
    + apply split_colon in Heq as [Hmm Hss]; try apply colons_pretty.
      apply (inj pretty) in Hmm. apply twoDigits_inj in Hss; [lia|done..].
    + apply (f_equal colons) in Heq. rewrite !colons_app in Heq. simpl in Heq.
      rewrite !colons_pretty, !colons_twoDigits in Heq. lia.
    + apply (f_equal colons) in Heq. rewrite !colons_app in Heq. simpl in Heq.
      rewrite !colons_pretty, !colons_twoDigits in Heq. lia.
    + apply split_colon in Heq as [Hhh Hrest]; try apply colons_pretty.
      apply (inj pretty) in Hhh.
      apply split_colon in Hrest as [Hmm Hss]; try apply colons_twoDigits.
      apply twoDigits_inj in Hmm; [|done..].
      apply twoDigits_inj in Hss; [|done..]. lia.
Qed.

(** Nine seconds, and an hour, two minutes and five seconds. *)
Example fileDurationString_evaluated :
  fileDurationString (lasting (Some 9)) = Some "0:09"%string /\
  fileDurationString (lasting (Some 754)) = Some "12:34"%string /\
  fileDurationString (lasting (Some 3725)) = Some "1:02:05"%string /\
  fileDurationString (lasting (Some 0)) = None /\
  fileDurationString (lasting None) = None.
Proof. repeat split; vm_compute; reflexivity. Qed.

(** The file with the private tier that an update returned. *)
Definition withPrivateEnvelope (file : EnteFile) (envelope : MagicMetadata) : EnteFile := {|
  file_id := file_id file;
  file_key := file_key file;
  file_collectionID := file_collectionID file;
  EnteFile_metadata := EnteFile_metadata file;
  magicMetadata := Some envelope;
  pubMagicMetadata := pubMagicMetadata file;
|}.

Lemma shallowMerge_lookup (existing : option (gmap string Value))
    (updates : gmap string Value) (k : string) :
  shallowMerge existing updates !! k =
    match updates !! k with
    | Some v => Some v
    | None => default ∅ existing !! k
    end.
Proof.
  unfold shallowMerge. destruct (updates !! k) as [v|] eqn:Hk.
  - by apply lookup_union_Some_l.
  - by rewrite lookup_union_r.
Qed.

(** Reading a key of an object from which the nullish values were
    dropped. *)
Lemma withoutNull_read (o : gmap string Value) (k : string) :
  default VUndefined (withoutNullAndUndefinedValues o !! k) =
    match o !! k with
    | Some v => if decide (nonNullish v) then v else VUndefined
    | None => VUndefined
    end.
Proof.
  destruct (withoutNullAndUndefinedValues o !! k) as [v|] eqn:Hk.
  - apply withoutNull_lookup in Hk as [-> Hnn]. by rewrite decide_True.
  - destruct (o !! k) as [v|] eqn:Ho; [|done]. case_decide as Hnn; [|done].
    assert (withoutNullAndUndefinedValues o !! k = Some v); [|congruence].
    by apply withoutNull_lookup.
Qed.

(** X24.  What is read after an update is what the update wrote.  The
    caption of a file whose public tier was updated is the caption of the
    update, and [undefined] when that was [null] or [undefined]; when the
    update has no caption, it is the one that was read before.  The
    visibility of a file that carries the private tier an update returned is
    the visibility of the update, so that the file is archived exactly when
    that is [ItemVisibility.archived]. *)
Theorem read_after_update `{Crypto} `{Remote} `{FileImports}
    (file : EnteFile) (updates : gmap string Value) (sent : list Put) :
  roundTrips ->
  (forall f, pubMagicMetadata (mergeMetadata1 f) = pubMagicMetadata f) ->
  (forall file' sent',
     updateRemotePublicMagicMetadata file updates sent = (Ok file', sent') ->
     match updates !! "caption"%string with
     | Some v => fileCaption file' = Ok (if decide (nonNullish v) then v else VUndefined)
     | None =>
         exists existing,
           fst <$> decryptPublicMagicMetadata file = Ok existing /\
           fileCaption file' = Ok (prop existing "caption")
     end) /\
  (forall tier sent' file',
     updateRemotePrivateMagicMetadata file updates sent = (Ok tier, sent') ->
     magicMetadata file' = Some tier ->
     forall v, updates !! "visibility"%string = Some v ->
     fileVisibility file' = Ok v /\
     isArchivedFile file' = Ok (bool_decide (v = VNumber ItemVisibility.archived))).
Proof.
  intros Hrt Hmerge. split.
  - intros file' sent' Hrun.
    destruct (updateRemotePublicMagicMetadata_Ok _ _ _ _ _ Hrt Hmerge Hrun)
      as (existing & c & Hex & _ & _ & _ & Hpub).
    cbv zeta in Hpub.
    assert (Hcaption : fileCaption file' =
              Ok (default VUndefined
                    (withoutNullAndUndefinedValues (shallowMerge existing updates)
                       !! "caption"%string))).
    { unfold fileCaption, filePublicMagicMetadata. by rewrite Hpub. }
    rewrite Hcaption, withoutNull_read, shallowMerge_lookup.
    destruct (updates !! "caption"%string) as [v|]; [done|].
    exists existing. split; [done|]. f_equal.
    destruct existing as [o|]; [|done]. simpl.
    destruct (o !! "caption"%string) as [v|] eqn:Ho; [|done].
    rewrite decide_True; [done|].
    destruct (decryptPublicMagicMetadata file) as [[r file0]|] eqn:Hd; [|done].
    injection Hex as ->. apply decryptPublicMagicMetadata_Ok in Hd.
    destruct (pubMagicMetadata file); [|by destruct Hd].
    destruct Hd as (json & _ & _ & [= ->] & _).
    by apply withoutNull_lookup in Ho as [_ ?].
  - intros tier sent' file' Hrun Htier v Hv.
    rewrite updateRemotePrivateMagicMetadata_run in Hrun.
    destruct (filePrivateMagicMetadata file) as [existing|e]; [|done].
    cbv zeta in Hrun. destruct (encryptMetadataJSON _ _) as [c|e]; [|done].
    destruct (fetch _ _) as [[]|e]; try done. injection Hrun as <- <-.
    assert (Hvis : fileVisibility file' = Ok v).
    { unfold fileVisibility, filePrivateMagicMetadata. rewrite Htier. simpl.
      by rewrite shallowMerge_lookup, Hv. }
    split; [done|]. unfold isArchivedFile. by rewrite Hvis.
Qed.

(** The synced file: its caption is cleared, and it is archived. *)
Lemma read_after_update_witness :
  (forall file' sent',
     updateRemotePublicMagicMetadata (H := clearCrypto) (H0 := acceptingRemote)
       (H1 := noFileImports) syncedFile
       {[ "caption"%string := VNull; "visibility"%string := VNumber 1 ]} []
     = (Ok file', sent') ->
     fileCaption file' = Ok VUndefined) /\
  (forall tier sent' file',
     updateRemotePrivateMagicMetadata (H := clearCrypto) (H0 := acceptingRemote)
       syncedFile {[ "caption"%string := VNull; "visibility"%string := VNumber 1 ]} []
     = (Ok tier, sent') ->
     magicMetadata file' = Some tier ->
     fileVisibility file' = Ok (VNumber 1) /\ isArchivedFile file' = Ok true).
Proof.
  pose proof (read_after_update (H := clearCrypto) (H0 := acceptingRemote)
                (H1 := noFileImports) syncedFile
                {[ "caption"%string := VNull; "visibility"%string := VNumber 1 ]} []
                clearCrypto_roundTrips (fun _ => eq_refl)) as [Hpublic Hprivate].
  split.
  - intros file' sent' Hrun. exact (Hpublic file' sent' Hrun).
  - intros tier sent' file' Hrun Htier.
    exact (Hprivate tier sent' file' Hrun Htier (VNumber 1) eq_refl).
Defined.

(** The two updates of the witness, evaluated. *)
Example read_after_update_evaluated :
  (fileCaption <$>
     (updateRemotePublicMagicMetadata (H := clearCrypto) (H0 := acceptingRemote)
        (H1 := noFileImports) syncedFile {[ "caption"%string := VString "x" ]} []).1)
    = Ok (Ok (VString "x")) /\
  (fileCaption <$>
     (updateRemotePublicMagicMetadata (H := clearCrypto) (H0 := acceptingRemote)
        (H1 := noFileImports) syncedFile {[ "caption"%string := VNull ]} []).1)
    = Ok (Ok VUndefined) /\
  ((fun tier => isArchivedFile (withPrivateEnvelope syncedFile tier)) <$>
     (updateRemotePrivateMagicMetadata (H := clearCrypto) (H0 := acceptingRemote)
        syncedFile {[ "visibility"%string := VNumber 1 ]} []).1)
    = Ok (Ok true) /\
  isArchivedFile syncedFile = Ok false.
Proof. repeat split; vm_compute; reflexivity. Qed.

End FileDisplayFacts.

(** ** The API origin of the developer settings *)

Module DevSettingsFacts.

(** X25.  [updateAPIOrigin] touches no key of the local storage but
    [apiOrigin].  When it throws, the storage is as it was.  When it
    returns, for an empty origin the key is gone, and for another one the
    key holds the origin, and the ping of that origin was answered with an
    ok status and a JSON object whose [message] is [pong]. *)
Theorem updateAPIOrigin_saves `{Network} (origin : string)
    (localStorage : gmap string string) :
  let r := (updateAPIOrigin origin localStorage).1 in
  let localStorage' := (updateAPIOrigin origin localStorage).2 in
  (forall k, k <> "apiOrigin"%string -> localStorage' !! k = localStorage !! k) /\
  match r with
  | Throw _ => localStorage' = localStorage /\ origin <> ""%string
  | Ok _ =>
      if decide (origin = ""%string)
      then localStorage' !! "apiOrigin"%string = None
      else
        localStorage' !! "apiOrigin"%string = Some origin /\
        exists res entries,
          fetchURL (origin +:+ "/ping") = Ok res /\
          ping_ok res = true /\
          ping_json res = Ok (JObject entries) /\
          member "message" entries = Some (JString "pong")
  end.
Proof.
  unfold updateAPIOrigin, truthy, truthy_string.
  destruct origin as [|c origin]; cbn [negb String.eqb].
  { cbn. split; [|apply lookup_delete_eq].
    intros k Hk. by apply lookup_delete_ne. }
  change (String.eqb (String c origin) "") with false. cbn [negb].
  destruct (fetchURL _) as [res|e] eqn:Hfetch; [|by cbn].
  destruct (ping_ok res) eqn:Hok; cbn [negb]; [|by cbn].
  destruct (ping_json res) as [json|e] eqn:Hjson; cbn [mbind result_bind]; [|by cbn].
  unfold PingResponse_parse.
  destruct json as [| | | |items|entries]; try by cbn.
  destruct (member "message" entries) as [[| | |message| |]|] eqn:Hmember; try by cbn.
  destruct (String.eqb_spec message "pong") as [->|Hne]; [|by cbn].
  cbn [fst snd]. split.
  - intros k Hk. by apply lookup_insert_ne.
  - rewrite decide_False by done. split; [apply lookup_insert_eq|].
    by exists res, entries.
Qed.

(** An origin that answers is saved; one that answers with something
    else, or does not answer, is not, and what was saved before stays. *)
Example updateAPIOrigin_evaluated :
  let before : gmap string string :=
    {[ "apiOrigin" := "https://old.example.org"; "locale" := "en" ]}%string in
  updateAPIOrigin (H := selfHosted) "https://photos.example.org" before
    = (Ok tt, {[ "apiOrigin" := "https://photos.example.org"; "locale" := "en" ]}%string) /\
  updateAPIOrigin (H := selfHosted) "https://example.org" before
    = (Throw (OtherError "Invalid response"), before) /\
  updateAPIOrigin (H := selfHosted) "https://nowhere.example.org" before
    = (Throw (OtherError "Failed to fetch https://nowhere.example.org/ping: HTTP 404"),
       before) /\
  updateAPIOrigin (H := selfHosted) "" before = (Ok tt, {[ "locale" := "en" ]}%string).
Proof. repeat split; vm_compute; reflexivity. Qed.

End DevSettingsFacts.
